(** * Visit lifecycle of the visitor check-in platform

    A shallow embedding of the code that creates and moves a visit:

    - the submit route        (app/api/visits/submit/route.ts),
    - the deny route          (app/api/visits/[visitId]/deny/route.ts),
    - the checkout route      (app/api/visits/[visitId]/checkout/route.ts),
    - [handleApprove] and [handleDeny] of the manage-visits page,

    and of the pages around it: the lists and the checkout button of the
    manage-visits page, the routing of a signed-in user by the dashboard
    page and the auth provider, the field names and the submitted data of
    the visitor form page, and the list of fields of the form editor.

    The Supabase client is modelled by the tables it is queried on; every
    call of the client is one atomic statement on these tables.  A call can
    fail for reasons outside the tables (connectivity, policies); each
    handler therefore receives, next to its request, the error (if any) that
    each of its calls is answered with.  Row-level security and the
    [updated_at] trigger belong to the storage engine and are not part of
    the model.

    The provisioning step of the submit route reads [user.id] of a [user]
    that the route neither declares nor imports: evaluating it throws, and
    the step ends in the [catch] of the route.

    A string is the sequence of the bytes of its UTF-8 encoding.  [trim]
    knows every white-space character of ECMAScript; the labels and keys of
    forms are taken to be ASCII, and [toLowerCase] and the [\s] of the key
    normalization are modelled on ASCII. *)

From stdpp Require Import base decidable option list strings sorting.
From Stdlib Require Import Ascii.
From Stdlib Require DecimalString.

(** ** JavaScript values used by the handlers *)

Module Js.

(** A value read from a form object or a nullable column: [None] stands
    for [undefined] / [null]. *)
Definition truthy (v : option string) : bool :=
  match v with
  | Some s => negb (bool_decide (s = ""))
  | None => false
  end.

(** [a || b] *)
Definition or (a b : option string) : option string :=
  if truthy a then a else b.

(** [!b] on a [boolean | null] column. *)
Definition not_bool (b : option bool) : bool :=
  match b with
  | Some true => false
  | _ => true
  end.

Definition lower_char (c : ascii) : ascii :=
  let n := nat_of_ascii c in
  if (65 <=? n)%nat && (n <=? 90)%nat then ascii_of_nat (n + 32) else c.

(** [s.toLowerCase()] *)
Fixpoint toLowerCase (s : string) : string :=
  match s with
  | EmptyString => EmptyString
  | String c s' => String (lower_char c) (toLowerCase s')
  end.

(** [s.replace(/\s+/g, '_')]: [in_run] tells that the previous character
    belonged to the run of white space already replaced. *)
Fixpoint replace_spaces (in_run : bool) (s : string) : string :=
  match s with
  | EmptyString => EmptyString
  | String c s' =>
      if Ascii.is_space c
      then (if in_run then replace_spaces true s'
            else String "_" (replace_spaces true s'))
      else String c (replace_spaces false s')
  end.

(** The white space of [String.prototype.trim] (WhiteSpace and
    LineTerminator of ECMAScript) beyond the six characters of ASCII, as
    the bytes of its UTF-8 encoding: U+00A0 takes two bytes, the others
    three. *)
Definition space2 (a b : ascii) : bool :=
  (nat_of_ascii a =? 194)%nat && (nat_of_ascii b =? 160)%nat.

Definition space3 (a b c : ascii) : bool :=
  let x := nat_of_ascii a in
  let y := nat_of_ascii b in
  let z := nat_of_ascii c in
  (* U+1680 *)
  ((x =? 225) && (y =? 154) && (z =? 128))%nat
  (* U+2000 to U+200A, U+2028, U+2029, U+202F *)
  || ((x =? 226) && (y =? 128)
      && (((128 <=? z) && (z <=? 138)) || (z =? 168) || (z =? 169)
          || (z =? 175)))%nat
  (* U+205F *)
  || ((x =? 226) && (y =? 129) && (z =? 159))%nat
  (* U+3000 *)
  || ((x =? 227) && (y =? 128) && (z =? 128))%nat
  (* U+FEFF *)
  || ((x =? 239) && (y =? 187) && (z =? 191))%nat.

(** The string without the white space it starts with; [two] and [three]
    recognise the characters of two and of three bytes. *)
Fixpoint strip_spaces (two : ascii → ascii → bool)
  (three : ascii → ascii → ascii → bool) (s : string) : string :=
  match s with
  | EmptyString => EmptyString
  | String a s1 =>
      if Ascii.is_space a then strip_spaces two three s1
      else
        match s1 with
        | EmptyString => s
        | String b s2 =>
            if two a b then strip_spaces two three s2
            else
              match s2 with
              | EmptyString => s
              | String c s3 =>
                  if three a b c then strip_spaces two three s3 else s
              end
        end
  end.

(** [s.trimStart()] *)
Definition trim_start (s : string) : string := strip_spaces space2 space3 s.

(** [s.trimEnd()]: the same from the last byte backwards. *)
Definition trim_end (s : string) : string :=
  String.rev
    (strip_spaces (λ a b, space2 b a) (λ a b c, space3 c b a) (String.rev s)).

(** [s.trim()] *)
Definition trim (s : string) : string := trim_end (trim_start s).

(** Every character of the string passes the test. *)
Fixpoint all (p : ascii → bool) (s : string) : bool :=
  match s with
  | EmptyString => true
  | String c s' => p c && all p s'
  end.

(** [s.trim() === ""]: the string is made of white space only (the empty
    string included). *)
Definition blank (s : string) : bool := bool_decide (trim s = "").

(** A plain object with string values, in property order. *)
Definition object := list (string * string).

(** [o[k]] *)
Fixpoint get (k : string) (o : object) : option string :=
  match o with
  | [] => None
  | (k', v) :: o' => if bool_decide (k' = k) then Some v else get k o'
  end.

(** [o[k] = v]: an existing property keeps its place. *)
Fixpoint set (k v : string) (o : object) : object :=
  match o with
  | [] => [(k, v)]
  | (k', v') :: o' =>
      if bool_decide (k' = k) then (k, v) :: o' else (k', v') :: set k v o'
  end.

End Js.

(** ** The store *)

Module PgError.
Record t := mk { code : string; message : string }.
End PgError.

(** The answer of one client call: [{ data, error }] with exactly one set. *)
Definition PgResult (A : Type) : Type := PgError.t + A.

Module Premise.
Record t := mk { id : string; owner_id : option string }.
End Premise.

Module Form.
Record t := mk {
  id : string;
  name : string;
  is_active : option bool;
  premise_id : option string
}.
End Form.

Module QRCode.
Record t := mk {
  id : string;
  form_id : option string;
  premise_id : option string;
  qr_identifier : string;
  is_active : option bool
}.
End QRCode.

Module Profile.
Record t := mk {
  id : string;
  full_name : option string;
  phone_number : option string;
  email : option string
}.
End Profile.

Module Visit.
Record t := mk {
  id : string;
  premise_id : option string;
  form_id : option string;
  qrcode_id : option string;
  visitor_id : option string;
  form_data : option Js.object;
  status : option string;
  check_in_time : string;
  check_out_time : option string;
  denial_reason : option string;
  updated_at : string
}.

Definition with_status (s now : string) (v : t) : t :=
  mk (id v) (premise_id v) (form_id v) (qrcode_id v) (visitor_id v)
     (form_data v) (Some s) (check_in_time v) (check_out_time v)
     (denial_reason v) now.

Definition with_denial (reason now : string) (v : t) : t :=
  mk (id v) (premise_id v) (form_id v) (qrcode_id v) (visitor_id v)
     (form_data v) (Some "denied") (check_in_time v) (check_out_time v)
     (Some reason) now.

Definition with_checkout (now : string) (v : t) : t :=
  mk (id v) (premise_id v) (form_id v) (qrcode_id v) (visitor_id v)
     (form_data v) (Some "checked_out") (check_in_time v) (Some now)
     (denial_reason v) now.

Definition with_visitor (p now : string) (v : t) : t :=
  mk (id v) (premise_id v) (form_id v) (qrcode_id v) (Some p)
     (form_data v) (status v) (check_in_time v) (check_out_time v)
     (denial_reason v) now.
End Visit.

Record Store := mkStore {
  premises : list Premise.t;
  forms : list Form.t;
  qrcodes : list QRCode.t;
  profiles : list Profile.t;
  visits : list Visit.t
}.

Definition set_visits (vs : list Visit.t) (st : Store) : Store :=
  mkStore (premises st) (forms st) (qrcodes st) (profiles st) vs.

Module Pg.

Definition PGRST116 : PgError.t :=
  PgError.mk "PGRST116" "JSON object requested, multiple (or no) rows returned".

Definition unique_violation : PgError.t :=
  PgError.mk "23505" "duplicate key value violates unique constraint".

(** [.single()]: exactly one row, anything else is PGRST116. *)
Definition single {A} (rows : list A) : PgResult A :=
  match rows with
  | [r] => inr r
  | _ => inl PGRST116
  end.

(** [.maybeSingle()]: no row is [null] data, several rows are an error. *)
Definition maybeSingle {A} (rows : list A) : PgResult (option A) :=
  match rows with
  | [] => inr None
  | [r] => inr (Some r)
  | _ => inl PGRST116
  end.

(** A call answered with [fault] when the environment makes it fail. *)
Definition call {A} (fault : option PgError.t) (answer : PgResult A)
  : PgResult A :=
  match fault with
  | Some e => inl e
  | None => answer
  end.

(** [.eq(column, value)] on a text column. *)
Definition eq_col {A} (col : A → string) (x : string) (rows : list A)
  : list A :=
  filter (λ r, col r = x) rows.

(** [.eq(column, value)] on a nullable column: [null] matches nothing. *)
Definition eq_ncol {A} (col : A → option string) (x : string)
  (rows : list A) : list A :=
  filter (λ r, col r = Some x) rows.

(** [UPDATE ... SET ... WHERE P]: the rewritten table. *)
Definition update {A} (P : A → Prop) `{∀ r, Decision (P r)} (f : A → A)
  (rows : list A) : list A :=
  (λ r, if decide (P r) then f r else r) <$> rows.

(** The rows an [UPDATE ... WHERE P ... RETURNING *] gives back. *)
Definition updated {A} (P : A → Prop) `{∀ r, Decision (P r)} (f : A → A)
  (rows : list A) : list A :=
  f <$> filter P rows.

End Pg.

(** What a route hands back: [NextResponse.json(body, { status })]. *)
Module Response.
Inductive body :=
| Error (error : string)
| ErrorDetails (error details : string)
| Visit (message : string) (visit : Visit.t)
| Created (message visitId : string).

Record t := mk { status : nat; json : body }.
End Response.

(** The trace of one handler run: the tables it leaves, the lines it wrote
    with [console.error], and its answer. *)
Record Run (R : Type) := mkRun {
  store : Store;
  console : list string;
  answer : R
}.
Arguments mkRun {R} _ _ _.
Arguments store {R} _.
Arguments console {R} _.
Arguments answer {R} _.

(** ** The submit route: [POST /api/visits/submit] *)

Module SubmitRoute.

(** The parsed request body [{ qrIdentifier, formData }]. *)
Record Request := mkRequest {
  qrIdentifier : option string;
  formData : option Js.object
}.

(** What the run depends on besides the tables: the clock, the key the
    database draws for the new visit, and the error of each client call
    the route reaches. *)
Record Env := mkEnv {
  now : string;
  new_visit_id : string;
  qr_fault : option PgError.t;
  form_fault : option PgError.t;
  insert_fault : option PgError.t;
  email_fault : option PgError.t;
  phone_fault : option PgError.t;
  link_fault : option PgError.t
}.

(** An exception thrown inside the [try] of the route. *)
Inductive Thrown :=
| ReferenceError (name : string).

Definition thrown_message (e : Thrown) : string :=
  match e with
  | ReferenceError name => "ReferenceError: " +:+ name +:+ " is not defined"
  end.

(** [key.toLowerCase().replace(/\s+/g, '_')] *)
Definition normalize_key (key : string) : string :=
  Js.replace_spaces false (Js.toLowerCase key).

(** [for (const key in formData) normalizedFormData[...] = formData[key]] *)
Definition normalize (formData : Js.object) : Js.object :=
  foldl (λ acc kv, Js.set (normalize_key kv.1) kv.2 acc) [] formData.

(** [INSERT INTO visits ... RETURNING *], [id] being the primary key. *)
Definition insert_visit (fault : option PgError.t) (row : Visit.t)
  (vs : list Visit.t) : PgResult (list Visit.t * Visit.t) :=
  Pg.call fault
    (if bool_decide (Visit.id row ∈ (Visit.id <$> vs))
     then inl Pg.unique_violation
     else inr (vs ++ [row], row)).

(** Step 4, first lookup: by email. *)
Definition find_by_email (env : Env) (visitorEmail : option string)
  (ps : list Profile.t) : list string * option string :=
  match visitorEmail with
  | Some e =>
      if Js.truthy visitorEmail then
        match Pg.call (email_fault env)
                (Pg.maybeSingle (Pg.eq_ncol Profile.email e ps)) with
        | inl err =>
            (["Error finding visitor by email: " +:+ PgError.message err],
             None)
        | inr (Some existingVisitor) => ([], Some (Profile.id existingVisitor))
        | inr None => ([], None)
        end
      else ([], None)
  | None => ([], None)
  end.

(** Step 4, second lookup: by phone, when nothing is linked yet. *)
Definition find_by_phone (env : Env) (linked visitorPhone : option string)
  (ps : list Profile.t) : list string * option string :=
  match visitorPhone with
  | Some ph =>
      if negb (Js.truthy linked) && Js.truthy visitorPhone then
        match Pg.call (phone_fault env)
                (Pg.maybeSingle (Pg.eq_ncol Profile.phone_number ph ps)) with
        | inl err =>
            (["Error finding visitor by phone: " +:+ PgError.message err],
             linked)
        | inr (Some existingVisitor) => ([], Some (Profile.id existingVisitor))
        | inr None => ([], linked)
        end
      else ([], linked)
  | None => ([], linked)
  end.

(** Step 4, provisioning.  The row to insert is
    [{ id: user.id, full_name, phone_number }] (the email is left out of
    it), and the route neither declares nor imports a [user]: whenever the
    guard lets the step run, evaluating the row throws before the client
    is called.  No profile is inserted, and the insert and its error
    branch are never reached. *)
Definition create_visitor
  (linked visitorFullName visitorEmail visitorIdNumber : option string)
  : Thrown + option string :=
  if negb (Js.truthy linked)
     && (Js.truthy visitorFullName || Js.truthy visitorEmail
         || Js.truthy visitorIdNumber)
  then inl (ReferenceError "user")
  else inr linked.

(** The secondary update that writes [visitor_id] on the new visit. *)
Definition link_visit (env : Env) (linked : option string)
  (visitId : string) (vs : list Visit.t) : list Visit.t * list string :=
  match linked with
  | Some p =>
      if Js.truthy linked then
        match link_fault env with
        | Some err =>
            (vs, ["Error linking visit to visitor: " +:+ PgError.message err])
        | None =>
            (Pg.update (λ v, Visit.id v = visitId)
               (Visit.with_visitor p (now env)) vs, [])
        end
      else (vs, [])
  | None => (vs, [])
  end.

(** Step 4 up to the link: the lines it logs, and [visitorIdToLink] or
    the exception that ends the step. *)
Definition resolve_visitor (env : Env) (normalizedFormData : Js.object)
  (ps : list Profile.t) : list string * (Thrown + option string) :=
  let visitorEmail := Js.get "email" normalizedFormData in
  let visitorPhone :=
    Js.or (Js.get "phone_number" normalizedFormData)
          (Js.get "phone" normalizedFormData) in
  let visitorFullName :=
    Js.or (Js.get "full_name" normalizedFormData)
          (Js.get "name" normalizedFormData) in
  let visitorIdNumber := Js.get "id_number" normalizedFormData in
  let by_email := find_by_email env visitorEmail ps in
  let by_phone := find_by_phone env by_email.2 visitorPhone ps in
  (by_email.1 ++ by_phone.1,
   create_visitor by_phone.2 visitorFullName visitorEmail visitorIdNumber).

(** The row of step 3. *)
Definition new_visit (env : Env) (qrCodeData : QRCode.t)
  (formDetails : Form.t) (formData : Js.object) : Visit.t :=
  Visit.mk (new_visit_id env) (QRCode.premise_id qrCodeData)
    (Some (Form.id formDetails)) (Some (QRCode.id qrCodeData))
    None (Some formData) (Some "checked_in") (now env) None None (now env).

(** Step 1: the QR code row of the scanned identifier. *)
Definition fetch_qr (env : Env) (qr_id : string) (st : Store)
  : PgResult QRCode.t :=
  Pg.call (qr_fault env)
    (Pg.single (Pg.eq_col QRCode.qr_identifier qr_id (qrcodes st))).

(** Step 2: the form the QR code is bound to. *)
Definition fetch_form (env : Env) (qrCodeData : QRCode.t) (st : Store)
  : PgResult Form.t :=
  Pg.call (form_fault env)
    (Pg.single
       (filter (λ f, Some (Form.id f) = QRCode.form_id qrCodeData)
          (forms st))).

(** The [try] of the route and its [catch]; the client [supabase] is the
    store. *)
Definition POST (env : Env) (req : Request) (st : Store)
  : Run Response.t :=
  match qrIdentifier req, formData req with
  | Some qr_id, Some fd =>
    if negb (Js.truthy (Some qr_id)) then
      mkRun st []
        (Response.mk 400 (Response.Error "Missing qrIdentifier or formData"))
    else
    (* 1. Fetch QR code details *)
    match fetch_qr env qr_id st with
    | inl qrError =>
        mkRun st
          ["Error fetching QR code or QR code not found: "
             +:+ PgError.message qrError]
          (Response.mk 404 (Response.Error "Invalid or expired QR code."))
    | inr qrCodeData =>
    if Js.not_bool (QRCode.is_active qrCodeData) then
      mkRun st []
        (Response.mk 400 (Response.Error "This QR code is no longer active."))
    else
    (* 2. Fetch Form details to ensure it's active *)
    match fetch_form env qrCodeData st with
    | inl _ =>
        mkRun st []
          (Response.mk 404
             (Response.Error "Form associated with this QR code not found."))
    | inr formDetails =>
    if Js.not_bool (Form.is_active formDetails) then
      mkRun st []
        (Response.mk 400 (Response.Error "This form is no longer active."))
    else if bool_decide
              (Form.premise_id formDetails ≠ QRCode.premise_id qrCodeData)
    then
      mkRun st ["Mismatch in premise ID between QR code and form."]
        (Response.mk 500 (Response.Error "Form configuration error."))
    else
    let normalizedFormData := normalize fd in
    (* 3. Insert into 'visits' table *)
    match insert_visit (insert_fault env)
            (new_visit env qrCodeData formDetails fd) (visits st)
    with
    | inl insertError =>
        mkRun st ["Error inserting visit: " +:+ PgError.message insertError]
          (Response.mk 500
             (Response.ErrorDetails "Failed to submit form."
                (PgError.message insertError)))
    | inr (vs1, visitData) =>
    (* 4. Find or Create Visitor and Link to Visit *)
    let found := resolve_visitor env normalizedFormData (profiles st) in
    match found.2 with
    | inl error =>
        (* catch (error): the visit of step 3 is in the table *)
        mkRun (set_visits vs1 st)
          (found.1
           ++ ["Unexpected error in /api/visits/submit: "
                 +:+ thrown_message error])
          (Response.mk 500 (Response.Error "Internal Server Error"))
    | inr visitorIdToLink =>
        let linked := link_visit env visitorIdToLink (Visit.id visitData) vs1 in
        mkRun (set_visits linked.1 st) (found.1 ++ linked.2)
          (Response.mk 201
             (Response.Created "Visit recorded successfully"
                (Visit.id visitData)))
    end
    end end end
  | _, _ =>
      mkRun st []
        (Response.mk 400 (Response.Error "Missing qrIdentifier or formData"))
  end.

End SubmitRoute.

(** ** Steps shared by the two owner routes

    Both routes fetch the visit with [.single()], so a fetch without error
    carries a row and their [if (!visit)] branch is never taken. *)

Module OwnerRoute.

(** [supabase.auth.getSession()] *)
Record Auth := mkAuth {
  session : option string;          (* [session.user.id] *)
  sessionError : option PgError.t
}.

(** The embedded [premises ( owner_id )] of a fetched visit. *)
Definition embedded_premise (st : Store) (v : Visit.t)
  : option Premise.t :=
  match Visit.premise_id v with
  | Some pid => head (filter (λ p, Premise.id p = pid) (premises st))
  | None => None
  end.

(** [.update(...).eq('id', visitId).select().single()] *)
Definition update_single (fault : option PgError.t) (visitId : string)
  (f : Visit.t → Visit.t) (vs : list Visit.t)
  : PgResult (list Visit.t * Visit.t) :=
  Pg.call fault
    (match Pg.single (Pg.updated (λ v, Visit.id v = visitId) f vs) with
     | inl e => inl e
     | inr r => inr (Pg.update (λ v, Visit.id v = visitId) f vs, r)
     end).

End OwnerRoute.

(** ** The deny route: [POST /api/visits/[visitId]/deny] *)

Module DenyRoute.
Import OwnerRoute.

Record Env := mkEnv {
  now : string;
  auth : Auth;
  fetch_fault : option PgError.t;
  update_fault : option PgError.t
}.

Definition POST (env : Env) (visitId : string) (st : Store)
  : Run Response.t :=
  if negb (Js.truthy (Some visitId)) then
    mkRun st [] (Response.mk 400 (Response.Error "Visit ID is required"))
  else
  (* 1. Get authenticated user *)
  match sessionError (auth env), session (auth env) with
  | None, Some userId =>
    (* 2. Fetch the visit record and the associated premise's owner_id *)
    match Pg.call (fetch_fault env)
            (Pg.single (Pg.eq_col Visit.id visitId (visits st))) with
    | inl fetchError =>
        if bool_decide (PgError.code fetchError = "PGRST116") then
          mkRun st [] (Response.mk 404 (Response.Error "Visit not found"))
        else
          mkRun st ["Error fetching visit: " +:+ PgError.message fetchError]
            (Response.mk 500 (Response.Error "Failed to fetch visit details"))
    | inr visit =>
      (* 3. Verify ownership *)
      match embedded_premise st visit with
      | Some premiseData =>
        if bool_decide (Premise.owner_id premiseData ≠ Some userId) then
          mkRun st []
            (Response.mk 403
               (Response.Error
                  "Forbidden: You do not own this premise or form."))
        else
        (* 4. Update visit status to 'denied' *)
        match update_single (update_fault env) visitId
                (Visit.with_status "denied" (now env)) (visits st) with
        | inl updateError =>
            mkRun st
              ["Error updating visit status: "
                 +:+ PgError.message updateError]
              (Response.mk 500
                 (Response.Error "Failed to update visit status."))
        | inr (vs', updatedVisit) =>
            mkRun (set_visits vs' st) []
              (Response.mk 200
                 (Response.Visit "Visitor denied successfully" updatedVisit))
        end
      | None =>
          mkRun st []
            (Response.mk 403
               (Response.Error
                  "Forbidden: You do not own this premise or form."))
      end
    end
  | _, _ => mkRun st [] (Response.mk 401 (Response.Error "Unauthorized"))
  end.

End DenyRoute.

(** ** The checkout route: [POST /api/visits/[visitId]/checkout] *)

Module CheckoutRoute.
Import OwnerRoute.

Record Env := mkEnv {
  now : string;
  auth : Auth;
  fetch_fault : option PgError.t;
  update_fault : option PgError.t
}.

Definition POST (env : Env) (visitId : string) (st : Store)
  : Run Response.t :=
  if negb (Js.truthy (Some visitId)) then
    mkRun st [] (Response.mk 400 (Response.Error "Visit ID is required"))
  else
  (* 1. Get authenticated user *)
  match sessionError (auth env), session (auth env) with
  | None, Some userId =>
    (* 2. Fetch the visit record *)
    match Pg.call (fetch_fault env)
            (Pg.single (Pg.eq_col Visit.id visitId (visits st))) with
    | inl fetchError =>
        if bool_decide (PgError.code fetchError = "PGRST116") then
          mkRun st [] (Response.mk 404 (Response.Error "Visit not found"))
        else
          mkRun st ["Error fetching visit: " +:+ PgError.message fetchError]
            (Response.mk 500 (Response.Error "Failed to fetch visit details"))
    | inr visit =>
      (* 3. Verify ownership *)
      match embedded_premise st visit with
      | Some premiseData =>
        if bool_decide (Premise.owner_id premiseData ≠ Some userId) then
          mkRun st []
            (Response.mk 403
               (Response.Error "Forbidden: You do not own this premise."))
        (* 4. Check if the visit is already checked out or not approved *)
        else if bool_decide (Visit.status visit = Some "checked_out") then
          mkRun st []
            (Response.mk 400 (Response.Error "Visitor already checked out."))
        else if bool_decide (Visit.status visit ≠ Some "approved") then
          mkRun st []
            (Response.mk 400 (Response.Error "Visitor not approved yet."))
        else
        (* 5. Update visit status to 'checked_out' and set check_out_time *)
        match update_single (update_fault env) visitId
                (Visit.with_checkout (now env)) (visits st) with
        | inl updateError =>
            mkRun st
              ["Error updating visit status to checked_out: "
                 +:+ PgError.message updateError]
              (Response.mk 500
                 (Response.Error "Failed to check out visitor."))
        | inr (vs', updatedVisit) =>
            mkRun (set_visits vs' st) []
              (Response.mk 200
                 (Response.Visit "Visitor checked out successfully"
                    updatedVisit))
        end
      | None =>
          mkRun st []
            (Response.mk 403
               (Response.Error "Forbidden: You do not own this premise."))
      end
    end
  | _, _ => mkRun st [] (Response.mk 401 (Response.Error "Unauthorized"))
  end.

End CheckoutRoute.

(** ** The manage-visits page: [handleApprove] and [handleDeny] *)

Module ManageVisitsPage.

(** The component state and browser inputs a handler reads. *)
Record Env := mkEnv {
  now : string;
  session : option string;        (* [session.user.id], if signed in *)
  premiseId : option string;      (* the [premiseId] state *)
  update_fault : option PgError.t
}.

(** What the handler leaves on the page. *)
Inductive Ui :=
| SetError (error : string)
| SetMessage (message : string)
| Untouched.

(** [.eq('id', visitId).eq('premise_id', premiseId)] *)
Definition targets (visitId premise : string) (v : Visit.t) : Prop :=
  Visit.id v = visitId ∧ Visit.premise_id v = Some premise.

Global Instance targets_dec visitId premise v :
  Decision (targets visitId premise v).
Proof. unfold targets. apply _. Defined.

Definition handleApprove (env : Env) (visitId : string) (st : Store)
  : Run Ui :=
  match session env, premiseId env with
  | Some _, Some premise =>
    if negb (Js.truthy (Some premise)) then
      mkRun st [] (SetError "User or premise information is missing.")
    else
    match update_fault env with
    | Some updateError =>
        mkRun st ["Error approving visit: " +:+ PgError.message updateError]
          (SetError
             ("Failed to approve visit: " +:+ PgError.message updateError))
    | None =>
        mkRun
          (set_visits
             (Pg.update (targets visitId premise)
                (Visit.with_status "approved" (now env)) (visits st)) st)
          [] (SetMessage "Visit approved successfully.")
    end
  | _, _ => mkRun st [] (SetError "User or premise information is missing.")
  end.

(** [prompted] is what [prompt(...)] returned: [None] when dismissed. *)
Definition handleDeny (env : Env) (prompted : option string)
  (visitId : string) (st : Store) : Run Ui :=
  match prompted with
  | None => mkRun st [] Untouched
  | Some reason =>
    if bool_decide (Js.trim reason = "") then
      mkRun st [] (SetError "A reason for denial is required.")
    else
    match session env, premiseId env with
    | Some _, Some premise =>
      if negb (Js.truthy (Some premise)) then
        mkRun st [] (SetError "User or premise information is missing.")
      else
      match update_fault env with
      | Some updateError =>
          mkRun st ["Error denying visit: " +:+ PgError.message updateError]
            (SetError
               ("Failed to deny visit: " +:+ PgError.message updateError))
      | None =>
          mkRun
            (set_visits
               (Pg.update (targets visitId premise)
                  (Visit.with_denial reason (now env)) (visits st)) st)
            [] (SetMessage ("Visit denied. Reason: " +:+ reason))
      end
    | _, _ =>
        mkRun st [] (SetError "User or premise information is missing.")
    end
  end.

(** The page is signed in, knows its premise, and the store takes the
    update. *)
Definition goes_through (env : Env) (premise : string) : Prop :=
  is_Some (session env) ∧ premiseId env = Some premise ∧ premise ≠ ""
  ∧ update_fault env = None.

(** The owner's decision on a visit, as one call of the page. *)
Inductive Verdict :=
| ApproveIt
| DenyIt (reason : string).

Definition decide_visit (d : Verdict) (env : Env) (visitId : string)
  (st : Store) : Run Ui :=
  match d with
  | ApproveIt => handleApprove env visitId st
  | DenyIt reason => handleDeny env (Some reason) visitId st
  end.

Definition verdict_status (d : Verdict) : string :=
  match d with
  | ApproveIt => "approved"
  | DenyIt _ => "denied"
  end.

(** What a decision writes on a visit. *)
Definition written (d : Verdict) (now : string) (v : Visit.t) : Visit.t :=
  match d with
  | ApproveIt => Visit.with_status "approved" now v
  | DenyIt reason => Visit.with_denial reason now v
  end.

Definition well_formed (d : Verdict) : Prop :=
  match d with
  | ApproveIt => True
  | DenyIt reason => Js.blank reason = false
  end.

Definition succeeded (a : Ui) : Prop := ∃ m, a = SetMessage m.

End ManageVisitsPage.

(** ** The life of the store *)

(** One request of any of the exposed operations. *)
Inductive Op :=
| Submit (env : SubmitRoute.Env) (req : SubmitRoute.Request)
| Approve (env : ManageVisitsPage.Env) (visitId : string)
| Deny (env : ManageVisitsPage.Env) (prompted : option string)
    (visitId : string)
| DenyByRoute (env : DenyRoute.Env) (visitId : string)
| Checkout (env : CheckoutRoute.Env) (visitId : string).

Definition apply (op : Op) (st : Store) : Store :=
  match op with
  | Submit env req => store (SubmitRoute.POST env req st)
  | Approve env visitId => store (ManageVisitsPage.handleApprove env visitId st)
  | Deny env prompted visitId =>
      store (ManageVisitsPage.handleDeny env prompted visitId st)
  | DenyByRoute env visitId => store (DenyRoute.POST env visitId st)
  | Checkout env visitId => store (CheckoutRoute.POST env visitId st)
  end.

Definition run (ops : list Op) (st : Store) : Store :=
  foldl (λ s op, apply op s) st ops.

(** The stores that calls of the five handlers produce from one without
    any visit, each handler being called with any argument.  This bounds
    the stores the program reaches from above: the page calls
    [handleApprove] and [handleDeny] on the rows of its pending list only
    (see [page_reachable] below). *)
Inductive reachable : Store → Prop :=
| reachable_init st : visits st = [] → reachable st
| reachable_step op st : reachable st → reachable (apply op st).


(** What every stored visit satisfies: a fresh visit has no check-out time,
    a checked-out one has one, and the owner's decisions may have been
    written over either. *)
Definition lifecycle_ok (v : Visit.t) : Prop :=
  (Visit.status v = Some "checked_in" ∧ Visit.check_out_time v = None)
  ∨ Visit.status v = Some "approved"
  ∨ Visit.status v = Some "denied"
  ∨ (Visit.status v = Some "checked_out" ∧ is_Some (Visit.check_out_time v)).

(** The visits with a given id. *)
Definition visits_with_id (visitId : string) (st : Store) : list Visit.t :=
  Pg.eq_col Visit.id visitId (visits st).

(** ** A small site used in the examples *)

Module Demo.

Definition premise : Premise.t := Premise.mk "p1" (Some "owner").
Definition form : Form.t := Form.mk "f1" "Front desk" (Some true) (Some "p1").
Definition qr : QRCode.t :=
  QRCode.mk "q1" (Some "f1") (Some "p1") "qr-abc" (Some true).

Definition site : Store := mkStore [premise] [form] [qr] [] [].

Definition submit_env (t vid : string) : SubmitRoute.Env :=
  SubmitRoute.mkEnv t vid None None None None None None.

Definition owner_page (t : string) : ManageVisitsPage.Env :=
  ManageVisitsPage.mkEnv t (Some "owner") (Some "p1") None.

Definition owner_auth : OwnerRoute.Auth :=
  OwnerRoute.mkAuth (Some "owner") None.

Definition owner_checkout (t : string) : CheckoutRoute.Env :=
  CheckoutRoute.mkEnv t owner_auth None None.

Definition owner_deny (t : string) : DenyRoute.Env :=
  DenyRoute.mkEnv t owner_auth None None.

Definition jane : SubmitRoute.Request :=
  SubmitRoute.mkRequest (Some "qr-abc")
    (Some [("Full Name", "Jane"); ("Email", "jane@x.com")]).

(** The visit Jane's submission creates at time [t0]. *)
Definition jane_visit (status : string) (visitor : option string)
  (out reason : option string) (upd : string) : Visit.t :=
  Visit.mk "v1" (Some "p1") (Some "f1") (Some "q1") visitor
    (Some [("Full Name", "Jane"); ("Email", "jane@x.com")])
    (Some status) "t0" out reason upd.

(** Two visitors on record, known by their phone numbers. *)
Definition ann : Profile.t := Profile.mk "a" (Some "Ann") (Some "111") None.
Definition bob : Profile.t := Profile.mk "b" (Some "Bob") (Some "222") None.

Definition site_with_visitors : Store :=
  mkStore [premise] [form] [qr] [ann; bob] [].

(** A visitor on record with her email. *)
Definition jane_profile : Profile.t :=
  Profile.mk "j" (Some "Jane") None (Some "jane@x.com").

Definition site_with_jane : Store :=
  mkStore [premise] [form] [qr] [jane_profile] [].

(** A submission with an email and a phone number. *)
Definition contact (email phone : string) : SubmitRoute.Request :=
  SubmitRoute.mkRequest (Some "qr-abc")
    (Some [("Email", email); ("Phone Number", phone)]).

(** The example site holding one visit. *)
Definition with_visit (v : Visit.t) : Store :=
  mkStore [premise] [form] [qr] [] [v].

End Demo.

(** ** The manage-visits page: the three lists, their rows and checkout *)

Module ManageVisitsView.

(** A listed visit with its embedded [profiles ( full_name, email )]. *)
Record Row := mkRow {
  visit : Visit.t;
  profile : option Profile.t
}.

(** The embedded profile: the row [visitor_id] refers to. *)
Definition embed (st : Store) (v : Visit.t) : Row :=
  mkRow v
    (match Visit.visitor_id v with
     | Some p => head (filter (λ r, Profile.id r = p) (profiles st))
     | None => None
     end).

(** [.order(column, { ascending: false })] on a timestamp column. *)
Definition newest_first (key : Visit.t → string) (x y : Visit.t) : Prop :=
  Stdlib.Strings.String.leb (key y) (key x) = true.

Global Instance newest_first_dec key x y : Decision (newest_first key x y).
Proof. unfold newest_first. apply _. Defined.

Definition order_desc (key : Visit.t → string) (vs : list Visit.t)
  : list Visit.t :=
  merge_sort (newest_first key) vs.

(** The pending list: [.eq('premise_id', p).eq('status', 'pending_approval')
    .order('created_at', desc)].  No handler writes or reads [created_at]
    otherwise, so the visits above do not carry it: the query takes the
    column as [created_at]. *)
Definition pending_query (created_at : Visit.t → string) (premise : string)
  (st : Store) : list Row :=
  embed st
  <$> order_desc created_at
        (filter (λ v, Visit.premise_id v = Some premise
                      ∧ Visit.status v = Some "pending_approval")
           (visits st)).

(** The admitted list: approved and not yet checked out. *)
Definition admitted_query (premise : string) (st : Store) : list Row :=
  embed st
  <$> order_desc Visit.check_in_time
        (filter (λ v, Visit.premise_id v = Some premise
                      ∧ Visit.status v = Some "approved"
                      ∧ Visit.check_out_time v = None)
           (visits st)).

(** The history: [.in('status', ['checked_out', 'denied'])]. *)
Definition historical_query (premise : string) (st : Store) : list Row :=
  embed st
  <$> order_desc Visit.updated_at
        (filter (λ v, Visit.premise_id v = Some premise
                      ∧ (Visit.status v = Some "checked_out"
                         ∨ Visit.status v = Some "denied"))
           (visits st)).

(** The state of the component that the fetch and the table read. *)
Record Page := mkPage {
  user : option string;
  premiseId : option string;
  pendingVisits : list Row;
  admittedVisits : list Row;
  historicalVisits : list Row;
  loading : bool;
  error : option string;
  pushed : option string          (* the last [router.push] *)
}.

Record Env := mkEnv {
  auth : OwnerRoute.Auth;
  created_at : Visit.t → string;    (* the column of that name *)
  premise_fault : option PgError.t;
  pending_fault : option PgError.t;
  admitted_fault : option PgError.t;
  historical_fault : option PgError.t
}.

(** [setError(prev => prev ? `${prev} ${msg}` : msg)] *)
Definition add_error (msg : string) (prev : option string) : option string :=
  if Js.truthy prev
  then Some (default "" prev +:+ " " +:+ msg)
  else Some msg.

Definition fetchUserDataAndVisits (env : Env) (page : Page) (st : Store)
  : Page * list string :=
  (* setLoading(true); setError(null) *)
  match OwnerRoute.sessionError (auth env), OwnerRoute.session (auth env) with
  | None, Some uid =>
    match Pg.call (premise_fault env)
            (Pg.single
               (filter (λ p, Premise.owner_id p = Some uid) (premises st)))
    with
    | inl _ =>
        (mkPage (Some uid) (premiseId page) (pendingVisits page)
           (admittedVisits page) (historicalVisits page) false
           (Some ("Could not retrieve premise information. "
                  +:+ "Please ensure your profile is complete."))
           (pushed page), [])
    | inr premiseData =>
      let pid := Premise.id premiseData in
      let pending :=
        Pg.call (pending_fault env)
          (inr (pending_query (created_at env) pid st)) in
      let admitted :=
        Pg.call (admitted_fault env) (inr (admitted_query pid st)) in
      let historical :=
        Pg.call (historical_fault env) (inr (historical_query pid st)) in
      let e1 : option string :=
        match pending with
        | inl _ => add_error "Failed to load pending visits." None
        | inr _ => None
        end in
      let e2 :=
        match admitted with
        | inl _ => add_error "Failed to load admitted visits." e1
        | inr _ => e1
        end in
      let e3 :=
        match historical with
        | inl _ => add_error "Failed to load historical visits." e2
        | inr _ => e2
        end in
      (mkPage (Some uid) (Some pid)
         (match pending with inl _ => pendingVisits page | inr d => d end)
         (match admitted with inl _ => admittedVisits page | inr d => d end)
         (match historical with
          | inl _ => historicalVisits page
          | inr d => d
          end)
         false e3 (pushed page),
       match pending with
       | inl e => ["Error fetching pending visits: " +:+ PgError.message e]
       | inr _ => []
       end
       ++ match admitted with
          | inl e => ["Error fetching admitted visits: " +:+ PgError.message e]
          | inr _ => []
          end
       ++ match historical with
          | inl e =>
              ["Error fetching historical visits: " +:+ PgError.message e]
          | inr _ => []
          end)
    end
  | _, _ =>
      (mkPage (user page) (premiseId page) (pendingVisits page)
         (admittedVisits page) (historicalVisits page) true None
         (Some "/login"), [])
  end.

(** [a || b || fallback] on strings. *)
Definition first_truthy (candidates : list (option string)) (fallback : string)
  : string :=
  let chosen := foldl Js.or None candidates in
  if Js.truthy chosen then default fallback chosen else fallback.

(** [result.error] and [result.message] of a parsed route answer. *)
Definition json_error (b : Response.body) : option string :=
  match b with
  | Response.Error e => Some e
  | Response.ErrorDetails e _ => Some e
  | _ => None
  end.

Definition json_message (b : Response.body) : option string :=
  match b with
  | Response.Visit m _ => Some m
  | Response.Created m _ => Some m
  | _ => None
  end.

(** [response.ok] *)
Definition ok (r : Response.t) : bool :=
  (200 <=? Response.status r)%nat && (Response.status r <=? 299)%nat.

(** What becomes of the request of the page and of the answer of the
    route on their way. *)
Inductive Delivery :=
| Delivered
    (* the answer arrives and [response.json()] parses it *)
| RequestLost (message : string)
    (* [fetch] rejects and the route was not reached *)
| ResponseLost (message : string).
    (* the route ran, and [fetch] or [response.json()] rejects *)

Record CheckoutEnv := mkCheckoutEnv {
  page_session : option string;
  page_premiseId : option string;
  delivery : Delivery;
  route_env : CheckoutRoute.Env
}.

(** The [catch] of [handleCheckout]. *)
Definition caught (message : string) : ManageVisitsPage.Ui :=
  ManageVisitsPage.SetError
    (first_truthy [Some message]
       "An unexpected error occurred during checkout.").

(** [handleCheckout]: the console holds the lines of the route followed by
    the line of the page. *)
Definition handleCheckout (env : CheckoutEnv) (visitId : string) (st : Store)
  : Run ManageVisitsPage.Ui :=
  match page_session env with
  | Some _ =>
    if negb (Js.truthy (page_premiseId env)) then
      mkRun st []
        (ManageVisitsPage.SetError "User or premise information is missing.")
    else
    let r := CheckoutRoute.POST (route_env env) visitId st in
    match delivery env with
    | RequestLost msg =>
        mkRun st ["Error checking out visitor: " +:+ msg] (caught msg)
    | ResponseLost msg =>
        mkRun (store r) (console r ++ ["Error checking out visitor: " +:+ msg])
          (caught msg)
    | Delivered =>
      if negb (ok (answer r)) then
        let msg :=
          first_truthy [json_error (Response.json (answer r))]
            "Failed to check out visitor." in
        mkRun (store r) (console r ++ ["Error checking out visitor: " +:+ msg])
          (caught msg)
      else
        mkRun (store r) (console r)
          (ManageVisitsPage.SetMessage
             (first_truthy [json_message (Response.json (answer r))]
                "Visitor checked out successfully."))
    end
  | None =>
      mkRun st []
        (ManageVisitsPage.SetError "User or premise information is missing.")
  end.

End ManageVisitsView.

(** ** Where a signed-in user is sent: the dashboard page and the provider *)

Module Routing.

Record Env := mkEnv {
  auth : OwnerRoute.Auth;
  profile_fault : option PgError.t;
  premise_fault : option PgError.t
}.

(** What the effect leaves: the route pushed (if any), whether the page
    still shows "Loading...", and the console. *)
Record Outcome := mkOutcome {
  pushed : option string;
  loading : bool;
  console : list string
}.

(** [error && error.code !== 'PGRST116'] *)
Definition fatal {A} (r : PgResult A) : option PgError.t :=
  match r with
  | inl e => if bool_decide (PgError.code e = "PGRST116") then None else Some e
  | inr _ => None
  end.

(** The [data] of an answer: [null] when there is an error. *)
Definition data {A} (r : PgResult (option A)) : option A :=
  match r with
  | inl _ => None
  | inr d => d
  end.

(** [profiles.select('id').eq('id', uid).maybeSingle()] *)
Definition profile_maybe (env : Env) (uid : string) (st : Store)
  : PgResult (option Profile.t) :=
  Pg.call (profile_fault env)
    (Pg.maybeSingle (Pg.eq_col Profile.id uid (profiles st))).

(** [profiles.select('id').eq('id', uid).single()] *)
Definition profile_single (env : Env) (uid : string) (st : Store)
  : PgResult (option Profile.t) :=
  match Pg.call (profile_fault env)
          (Pg.single (Pg.eq_col Profile.id uid (profiles st))) with
  | inl e => inl e
  | inr p => inr (Some p)
  end.

(** [premises.select('id').eq('owner_id', uid).maybeSingle()] *)
Definition premise_maybe (env : Env) (uid : string) (st : Store)
  : PgResult (option Premise.t) :=
  Pg.call (premise_fault env)
    (Pg.maybeSingle
       (filter (λ p, Premise.owner_id p = Some uid) (premises st))).

(** [checkUserAndProfile] of the dashboard page. *)
Definition checkUserAndProfile (env : Env) (st : Store) : Outcome :=
  match OwnerRoute.sessionError (auth env), OwnerRoute.session (auth env) with
  | None, Some uid =>
      (* Check if the user has a profile *)
      match fatal (profile_maybe env uid st) with
      | Some e =>
          mkOutcome None false
            ["Error checking profile: " +:+ PgError.message e]
      | None =>
        match data (profile_maybe env uid st) with
        | None => mkOutcome (Some "/auth/complete-profile") true []
        | Some _ =>
          (* Check if the user has a premise *)
          match fatal (premise_maybe env uid st) with
          | Some e =>
              mkOutcome None false
                ["Error fetching premise: " +:+ PgError.message e]
          | None =>
            match data (premise_maybe env uid st) with
            | None => mkOutcome (Some "/auth/complete-profile") true []
            | Some _ => mkOutcome (Some "/dashboard/premise") true []
            end
          end
        end
      end
  | _, _ => mkOutcome (Some "/login") true []
  end.

Inductive AuthEvent :=
| SIGNED_IN
| SIGNED_OUT
| OtherEvent.

(** The [onAuthStateChange] callback of the provider; [session] is the id
    of [session.user] when the event carries a session. *)
Definition onAuthStateChange (env : Env) (event : AuthEvent)
  (session : option string) (st : Store) : Outcome :=
  match event, session with
  | SIGNED_IN, Some uid =>
      match fatal (profile_single env uid st) with
      | Some e =>
          mkOutcome None false
            ["Error checking profile: " +:+ PgError.message e]
      | None =>
        match data (profile_single env uid st) with
        | None => mkOutcome (Some "/auth/complete-profile") false []
        | Some _ =>
          match fatal (premise_maybe env uid st) with
          | Some e =>
              mkOutcome None false
                ["Error checking premise: " +:+ PgError.message e]
          | None =>
            match data (premise_maybe env uid st) with
            | None => mkOutcome (Some "/auth/complete-profile") false []
            | Some _ => mkOutcome (Some "/dashboard") false []
            end
          end
        end
      end
  | SIGNED_OUT, _ => mkOutcome (Some "/login") false []
  | _, _ => mkOutcome None false []
  end.

End Routing.

(** ** The visitor form page: field names and the submitted data

    The expressions of the page that name the fields and build the
    submitted object; the handlers around them are not modelled. *)

Module VisitorFormPage.

(** A character that [/[^a-zA-Z0-9_]/] does not match. *)
Definition word_char (c : ascii) : bool :=
  let n := nat_of_ascii c in
  ((48 <=? n)%nat && (n <=? 57)%nat)
  || ((65 <=? n)%nat && (n <=? 90)%nat)
  || ((97 <=? n)%nat && (n <=? 122)%nat)
  || (n =? 95)%nat.

(** [s.replace(/[^a-zA-Z0-9_]/g, '')] *)
Fixpoint strip_non_word (s : string) : string :=
  match s with
  | EmptyString => EmptyString
  | String c s' =>
      if word_char c then String c (strip_non_word s') else strip_non_word s'
  end.

(** [label.toLowerCase().replace(/\s+/g, '_').replace(/[^a-zA-Z0-9_]/g, '')] *)
Definition derived_name (label : string) : string :=
  strip_non_word (Js.replace_spaces false (Js.toLowerCase label)).

(** [`field_${index}`] *)
Definition fallback_name (index : nat) : string :=
  "field_" +:+ DecimalString.NilZero.string_of_uint (Nat.to_uint index).

(** The [name] the page gives the field at [index] of the definition. *)
Definition field_name (label : string) (index : nat) : string :=
  if Js.truthy (Some (derived_name label)) then derived_name label
  else fallback_name index.

Inductive FieldType := text | email | phone | id_number | textarea.

Record FormField := mkField {
  label : string;
  type : FieldType;
  required : bool;
  name : option string
}.

(** The definition as [fetchFormData] stores it in the page state. *)
Definition with_names (definition : list FormField) : list FormField :=
  imap (λ index field,
          mkField (label field) (type field) (required field)
            (Some (field_name (label field) index)))
    definition.

(** [field.name || `field_${index}`]: the name an input of the page types
    into. *)
Definition input_name (field : FormField) (index : nat) : string :=
  if Js.truthy (name field) then default "" (name field)
  else fallback_name index.

(** [handleInputChange]: [{ ...prev, [fieldName]: value }] *)
Definition handleInputChange (fieldName value : string) (formValues : Js.object)
  : Js.object :=
  Js.set fieldName value formValues.

(** [field.name || field.label.toLowerCase()...] of [handleSubmit]. *)
Definition value_key (field : FormField) : string :=
  if Js.truthy (name field) then default "" (name field)
  else derived_name (label field).

(** An object under construction: a property can hold [undefined]. *)
Fixpoint assign (k : string) (v : option string)
  (o : list (string * option string)) : list (string * option string) :=
  match o with
  | [] => [(k, v)]
  | (k', v') :: o' =>
      if bool_decide (k' = k) then (k, v) :: o' else (k', v') :: assign k v o'
  end.

(** [submissionData] of [handleSubmit], before it is sent. *)
Definition submissionData (definition : list FormField)
  (formValues : Js.object) : list (string * option string) :=
  foldl (λ acc field,
           assign (label field) (Js.get (value_key field) formValues) acc)
    [] definition.

(** The object as JSON carries it: properties holding [undefined] are
    left out. *)
Definition to_json (o : list (string * option string)) : Js.object :=
  omap (λ kv, (λ v, (kv.1, v)) <$> kv.2) o.

(** A lower-case letter, a digit or an underscore. *)
Definition name_char (c : ascii) : bool :=
  let n := nat_of_ascii c in
  ((48 <=? n)%nat && (n <=? 57)%nat)
  || ((97 <=? n)%nat && (n <=? 122)%nat)
  || (n =? 95)%nat.

End VisitorFormPage.

(** ** The form editor: the list of fields of the new-form page *)

Module FormEditor.

Record FormField := mkField {
  id : string;
  label : string;
  type : VisitorFormPage.FieldType;
  required : bool
}.

(** [addField]; [new_id] is the value [uuidv4()] returns. *)
Definition addField (new_id : string) (fields : list FormField)
  : list FormField :=
  fields ++ [mkField new_id "" VisitorFormPage.text false].

Definition removeField (field_id : string) (fields : list FormField)
  : list FormField :=
  filter (λ field, id field ≠ field_id) fields.

(** A [property] of a field with a value of its type. *)
Inductive Change :=
| SetId (value : string)
| SetLabel (value : string)
| SetType (value : VisitorFormPage.FieldType)
| SetRequired (value : bool).

(** [{ ...field, [property]: value }] *)
Definition change (c : Change) (field : FormField) : FormField :=
  match c with
  | SetId v => mkField v (label field) (type field) (required field)
  | SetLabel v => mkField (id field) v (type field) (required field)
  | SetType v => mkField (id field) (label field) v (required field)
  | SetRequired v => mkField (id field) (label field) (type field) v
  end.

Definition handleFieldChange (field_id : string) (c : Change)
  (fields : list FormField) : list FormField :=
  (λ field, if decide (id field = field_id) then change c field else field)
  <$> fields.

(** [fields.map(({ id, ...rest }) => rest)] *)
Definition formDefinitionForDb (fields : list FormField)
  : list (string * VisitorFormPage.FieldType * bool) :=
  (λ field, (label field, type field, required field)) <$> fields.

End FormEditor.

(** ** The states the program reaches

    Next to the tables, a state holds the rows that the open manage-visits
    pages show in their pending lists.  A page offers Approve and Deny on
    these rows only, and it shows a row until its next fetch, whatever has
    become of the visit meanwhile.  The three routes answer any request.
    (The visitor form page has an insert of its own, which writes the same
    status as the submit route; its handler stops at a state setter the
    page does not declare before it reaches the client, and is not among
    the events.) *)

Record State := mkState {
  tables : Store;
  pending_rows : list ManageVisitsView.Row
}.

Inductive Event :=
| Submitted (env : SubmitRoute.Env) (req : SubmitRoute.Request)
| Fetched (env : ManageVisitsView.Env) (page : ManageVisitsView.Page)
| ApproveClicked (env : ManageVisitsPage.Env) (row : ManageVisitsView.Row)
| DenyClicked (env : ManageVisitsPage.Env) (prompted : option string)
    (row : ManageVisitsView.Row)
| DenyRequested (env : DenyRoute.Env) (visitId : string)
| CheckoutRequested (env : CheckoutRoute.Env) (visitId : string).

(** The event can happen: a fetch runs on an open page, whose pending list
    is among the rows shown (an empty one on a page just opened), and a
    click needs its button. *)
Definition enabled (e : Event) (s : State) : Prop :=
  match e with
  | Fetched _ page => ManageVisitsView.pendingVisits page ⊆ pending_rows s
  | ApproveClicked _ row => row ∈ pending_rows s
  | DenyClicked _ _ row => row ∈ pending_rows s
  | _ => True
  end.

Definition after (e : Event) (s : State) : State :=
  match e with
  | Submitted env req =>
      mkState (apply (Submit env req) (tables s)) (pending_rows s)
  | Fetched env page =>
      mkState (tables s)
        (pending_rows s
         ++ ManageVisitsView.pendingVisits
              (ManageVisitsView.fetchUserDataAndVisits env page (tables s)).1)
  | ApproveClicked env row =>
      mkState
        (apply (Approve env (Visit.id (ManageVisitsView.visit row)))
           (tables s))
        (pending_rows s)
  | DenyClicked env prompted row =>
      mkState
        (apply (Deny env prompted (Visit.id (ManageVisitsView.visit row)))
           (tables s))
        (pending_rows s)
  | DenyRequested env visitId =>
      mkState (apply (DenyByRoute env visitId) (tables s)) (pending_rows s)
  | CheckoutRequested env visitId =>
      mkState (apply (Checkout env visitId) (tables s)) (pending_rows s)
  end.

(** The states reached from tables without any visit and no page open. *)
Inductive page_reachable : State → Prop :=
| page_reachable_init st : visits st = [] → page_reachable (mkState st [])
| page_reachable_step e s :
    page_reachable s → enabled e s → page_reachable (after e s).

(** A visit no owner has decided on through the page and that was not
    checked out. *)
Definition undecided (v : Visit.t) : Prop :=
  (Visit.status v = Some "checked_in" ∨ Visit.status v = Some "denied")
  ∧ Visit.check_out_time v = None
  ∧ Visit.denial_reason v = None.

(** ** Notions used to speak about whole runs *)

(** The operation is answered with a success. *)
Definition succeeds (op : Op) (st : Store) : Prop :=
  match op with
  | Submit env req =>
      Response.status (answer (SubmitRoute.POST env req st)) = 201
  | Approve env visitId =>
      ManageVisitsPage.succeeded
        (answer (ManageVisitsPage.handleApprove env visitId st))
  | Deny env prompted visitId =>
      ManageVisitsPage.succeeded
        (answer (ManageVisitsPage.handleDeny env prompted visitId st))
  | DenyByRoute env visitId =>
      Response.status (answer (DenyRoute.POST env visitId st)) = 200
  | Checkout env visitId =>
      Response.status (answer (CheckoutRoute.POST env visitId st)) = 200
  end.

(** [v'] is [v] at a later time: what was submitted is the same, and a
    check-out time or denial reason that was set is still set. *)
Definition evolves (v v' : Visit.t) : Prop :=
  Visit.id v' = Visit.id v
  ∧ Visit.premise_id v' = Visit.premise_id v
  ∧ Visit.form_id v' = Visit.form_id v
  ∧ Visit.qrcode_id v' = Visit.qrcode_id v
  ∧ Visit.visitor_id v' = Visit.visitor_id v
  ∧ Visit.form_data v' = Visit.form_data v
  ∧ Visit.check_in_time v' = Visit.check_in_time v
  ∧ (is_Some (Visit.check_out_time v) → is_Some (Visit.check_out_time v'))
  ∧ (is_Some (Visit.denial_reason v) → is_Some (Visit.denial_reason v')).

(** [uid] owns the premise of the one visit with this id. *)
Definition owns_visit (uid visitId : string) (st : Store) : Prop :=
  ∃ v p, visits_with_id visitId st = [v]
    ∧ OwnerRoute.embedded_premise st v = Some p
    ∧ Premise.owner_id p = Some uid.

(** The caller of an owner route is signed in as [uid]. *)
Definition signed_in (a : OwnerRoute.Auth) (uid : string) : Prop :=
  OwnerRoute.sessionError a = None ∧ OwnerRoute.session a = Some uid.

(** * Properties *)

(** ** Facts about the statements of the store *)

Section PgFacts.
Context {A : Type} (P : A → Prop) `{∀ r, Decision (P r)} (f : A → A).

Lemma update_length (rows : list A) :
  length (Pg.update P f rows) = length rows.
Proof. unfold Pg.update. by rewrite length_fmap. Qed.

Lemma update_Forall (Q : A → Prop) (rows : list A) :
  Forall Q rows → (∀ r, P r → Q r → Q (f r)) →
  Forall Q (Pg.update P f rows).
Proof.
  intros Hrows Hf. unfold Pg.update. apply Forall_fmap.
  induction Hrows as [|r rows Hr _ IH]; constructor; [|exact IH].
  simpl. destruct (decide (P r)); auto.
Qed.

Lemma update_untouched (rows : list A) :
  Forall (λ r, ¬ P r) rows → Pg.update P f rows = rows.
Proof.
  unfold Pg.update. induction 1 as [|r rows Hr _ IH]; [done|].
  rewrite fmap_cons, IH. by destruct (decide (P r)).
Qed.

Lemma filter_update (rows : list A) :
  (∀ r, P r → P (f r)) →
  filter P (Pg.update P f rows) = f <$> filter P rows.
Proof.
  intros Hf. unfold Pg.update.
  induction rows as [|r rows IH]; [done|].
  rewrite fmap_cons. destruct (decide (P r)) as [Hr|Hr].
  - rewrite (filter_cons_True P _ _ (Hf r Hr)), (filter_cons_True P _ _ Hr).
    by rewrite fmap_cons, IH.
  - by rewrite !(filter_cons_False P _ _ Hr).
Qed.

Lemma update_keeps_others (r : A) (rows : list A) :
  r ∈ rows → ¬ P r → r ∈ Pg.update P f rows.
Proof.
  intros Hin Hr. unfold Pg.update. apply list_elem_of_fmap.
  exists r. split; [|done]. by destruct (decide (P r)).
Qed.

Lemma update_app (rows rows' : list A) :
  Pg.update P f (rows ++ rows') = Pg.update P f rows ++ Pg.update P f rows'.
Proof. unfold Pg.update. apply fmap_app. Qed.

End PgFacts.

Lemma single_inv {A} (rows : list A) (r : A) :
  Pg.single rows = inr r → rows = [r].
Proof. destruct rows as [|r' [|r'' rows]]; simpl; congruence. Qed.

(** ** Checkout *)

Lemma with_checkout_id (t : string) (v : Visit.t) :
  Visit.id (Visit.with_checkout t v) = Visit.id v.
Proof. done. Qed.

(** C4.  For a visit that exists and whose premise is owned by the signed-in
    user, the checkout route answers 400 "Visitor already checked out." when
    the status is [checked_out], answers 400 "Visitor not approved yet." for
    every other status that is not [approved], both without touching the
    store; for an approved visit whose update goes through it answers 200 and
    leaves the visit with status [checked_out] and [check_out_time] equal to
    the time of the request, every other visit being kept. *)
Theorem checkout_guards_and_effect
  (env : CheckoutRoute.Env) (visitId userId : string) (st : Store)
  (v : Visit.t) (p : Premise.t) :
  visitId ≠ "" →
  OwnerRoute.sessionError (CheckoutRoute.auth env) = None →
  OwnerRoute.session (CheckoutRoute.auth env) = Some userId →
  CheckoutRoute.fetch_fault env = None →
  visits_with_id visitId st = [v] →
  OwnerRoute.embedded_premise st v = Some p →
  Premise.owner_id p = Some userId →
  let r := CheckoutRoute.POST env visitId st in
  (Visit.status v = Some "checked_out" →
     answer r = Response.mk 400 (Response.Error "Visitor already checked out.")
     ∧ store r = st)
  ∧ (Visit.status v ≠ Some "checked_out" → Visit.status v ≠ Some "approved" →
     answer r = Response.mk 400 (Response.Error "Visitor not approved yet.")
     ∧ store r = st)
  ∧ (Visit.status v = Some "approved" → CheckoutRoute.update_fault env = None →
     ∃ v', answer r =
             Response.mk 200
               (Response.Visit "Visitor checked out successfully" v')
       ∧ visits_with_id visitId (store r) = [v']
       ∧ Visit.status v' = Some "checked_out"
       ∧ Visit.check_out_time v' = Some (CheckoutRoute.now env)
       ∧ ∀ w, w ∈ visits st → Visit.id w ≠ visitId → w ∈ visits (store r)).
Proof.
  intros Hid Herr Hsess Hfetch Hrow Hprem Hown r. subst r.
  unfold CheckoutRoute.POST, visits_with_id in *.
  assert (Js.truthy (Some visitId) = true) as ->.
  { simpl. by rewrite bool_decide_eq_false_2. }
  rewrite Herr, Hsess, Hfetch, Hrow. simpl. rewrite Hprem, Hown.
  rewrite bool_decide_eq_false_2 by (intros Hne; by apply Hne).
  split; [|split].
  - intros Hst. by rewrite bool_decide_eq_true_2.
  - intros Hout Happ.
    by rewrite (bool_decide_eq_false_2 _ Hout), (bool_decide_eq_true_2 _ Happ).
  - intros Happ Hupd.
    rewrite bool_decide_eq_false_2 by (rewrite Happ; discriminate).
    rewrite bool_decide_eq_false_2 by (intros Hne; by apply Hne).
    unfold Pg.eq_col in Hrow.
    unfold OwnerRoute.update_single, Pg.updated. rewrite Hupd, Hrow. simpl.
    exists (Visit.with_checkout (CheckoutRoute.now env) v).
    split; [done|]. split; [|split; [done|split; [done|]]].
    + unfold Pg.eq_col. rewrite filter_update by done. by rewrite Hrow.
    + intros w Hw Hne. by apply update_keeps_others.
Qed.

(** The visit of the example site, once approved, is checked out. *)
Lemma checkout_guards_and_effect_witness :
  let st := mkStore [Demo.premise] [Demo.form] [Demo.qr] []
              [Demo.jane_visit "approved" None None None "t1"] in
  ∃ v', answer (CheckoutRoute.POST (Demo.owner_checkout "t2") "v1" st)
        = Response.mk 200
            (Response.Visit "Visitor checked out successfully" v')
    ∧ Visit.status v' = Some "checked_out"
    ∧ Visit.check_out_time v' = Some "t2".
Proof.
  intros st.
  destruct (checkout_guards_and_effect (Demo.owner_checkout "t2") "v1" "owner"
              st (Demo.jane_visit "approved" None None None "t1")
              Demo.premise)
    as (_ & _ & Hok); try reflexivity; try discriminate.
  destruct Hok as (v' & Hans & _ & Hst & Hout & _); try reflexivity.
  exists v'. auto.
Defined.

(** ** Submission intake *)

Lemma not_bool_false (b : option bool) :
  Js.not_bool b = false ↔ b = Some true.
Proof. destruct b as [[]|]; simpl; split; congruence. Qed.

Lemma truthy_nonempty (s : string) : s ≠ "" → Js.truthy (Some s) = true.
Proof. intros Hs. simpl. by rewrite bool_decide_eq_false_2. Qed.

(** C6.  The submit route runs its checks in order and answers each failure
    with its own error: a QR identifier that does not resolve gets 404
    "Invalid or expired QR code." and an inactive QR code 400 "This QR code
    is no longer active."; an inactive form gets 400 "This form is no longer
    active."; a form whose premise differs from the QR code's gets 500 "Form
    configuration error.".  None of these touches the store, the four
    answers are pairwise different, and the store changes only when the QR
    code and the form are both found active with equal premises. *)
Theorem intake_checks_in_order
  (env : SubmitRoute.Env) (qr_id : string) (fd : Js.object) (st : Store) :
  qr_id ≠ "" →
  let r := SubmitRoute.POST env
             (SubmitRoute.mkRequest (Some qr_id) (Some fd)) st in
  let invalid_qr :=
    Response.mk 404 (Response.Error "Invalid or expired QR code.") in
  let inactive_qr :=
    Response.mk 400 (Response.Error "This QR code is no longer active.") in
  let inactive_form :=
    Response.mk 400 (Response.Error "This form is no longer active.") in
  let config_fault :=
    Response.mk 500 (Response.Error "Form configuration error.") in
  (∀ e, SubmitRoute.fetch_qr env qr_id st = inl e →
        answer r = invalid_qr ∧ store r = st)
  ∧ (∀ qr, SubmitRoute.fetch_qr env qr_id st = inr qr →
        QRCode.is_active qr ≠ Some true →
        answer r = inactive_qr ∧ store r = st)
  ∧ (∀ qr form, SubmitRoute.fetch_qr env qr_id st = inr qr →
        QRCode.is_active qr = Some true →
        SubmitRoute.fetch_form env qr st = inr form →
        Form.is_active form ≠ Some true →
        answer r = inactive_form ∧ store r = st)
  ∧ (∀ qr form, SubmitRoute.fetch_qr env qr_id st = inr qr →
        QRCode.is_active qr = Some true →
        SubmitRoute.fetch_form env qr st = inr form →
        Form.is_active form = Some true →
        Form.premise_id form ≠ QRCode.premise_id qr →
        answer r = config_fault ∧ store r = st)
  ∧ (invalid_qr ≠ inactive_form ∧ inactive_qr ≠ inactive_form
     ∧ config_fault ≠ invalid_qr ∧ config_fault ≠ inactive_qr
     ∧ config_fault ≠ inactive_form ∧ Response.status config_fault = 500)
  ∧ (store r ≠ st →
       ∃ qr form, SubmitRoute.fetch_qr env qr_id st = inr qr
         ∧ QRCode.is_active qr = Some true
         ∧ SubmitRoute.fetch_form env qr st = inr form
         ∧ Form.is_active form = Some true
         ∧ Form.premise_id form = QRCode.premise_id qr).
Proof.
  intros Hid r invalid_qr inactive_qr inactive_form config_fault.
  subst r. unfold SubmitRoute.POST. cbn [SubmitRoute.qrIdentifier
    SubmitRoute.formData]. rewrite (truthy_nonempty _ Hid). cbn [negb].
  split; [|split; [|split; [|split; [|split]]]].
  - intros e Hq. by rewrite Hq.
  - intros qr Hq Hact. rewrite Hq.
    by destruct (QRCode.is_active qr) as [[]|].
  - intros qr form Hq Hact Hf Hfact. rewrite Hq, Hact, Hf. cbn.
    by destruct (Form.is_active form) as [[]|].
  - intros qr form Hq Hact Hf Hfact Hprem. rewrite Hq, Hact, Hf, Hfact. cbn.
    by rewrite bool_decide_eq_true_2.
  - repeat split; discriminate.
  - destruct (SubmitRoute.fetch_qr env qr_id st) as [e|qr] eqn:Hq; [done|].
    destruct (Js.not_bool (QRCode.is_active qr)) eqn:Hqr; [done|].
    apply not_bool_false in Hqr.
    destruct (SubmitRoute.fetch_form env qr st) as [e|form] eqn:Hf; [done|].
    destruct (Js.not_bool (Form.is_active form)) eqn:Hform; [done|].
    apply not_bool_false in Hform.
    case_bool_decide as Hprem; [done|].
    intros _. exists qr, form. repeat split; done.
Qed.

(** On the example site an unknown identifier is turned away with 404 and
    the store is left as it was. *)
Lemma intake_checks_in_order_witness :
  answer (SubmitRoute.POST (Demo.submit_env "t0" "v1")
            (SubmitRoute.mkRequest (Some "qr-zzz") (Some [])) Demo.site)
  = Response.mk 404 (Response.Error "Invalid or expired QR code.").
Proof.
  assert ("qr-zzz" ≠ "") as Hid by discriminate.
  destruct (intake_checks_in_order (Demo.submit_env "t0" "v1") "qr-zzz"
              [] Demo.site Hid) as (Hunknown & _).
  apply (Hunknown Pg.PGRST116). reflexivity.
Defined.

Lemma insert_visit_inv (fault : option PgError.t) (row r : Visit.t)
  (vs vs' : list Visit.t) :
  SubmitRoute.insert_visit fault row vs = inr (vs', r) →
  fault = None ∧ (Visit.id row ∉ Visit.id <$> vs) ∧ vs' = vs ++ [row] ∧ r = row.
Proof.
  unfold SubmitRoute.insert_visit, Pg.call.
  destruct fault; [done|]. case_bool_decide; [done|].
  intros [= <- <-]. done.
Qed.

(** The run of a submission that is answered 201. *)
Lemma submit_created (env : SubmitRoute.Env) (req : SubmitRoute.Request)
  (st : Store) :
  Response.status (answer (SubmitRoute.POST env req st)) = 201 →
  ∃ qr_id fd qr form,
    SubmitRoute.qrIdentifier req = Some qr_id
    ∧ SubmitRoute.formData req = Some fd
    ∧ SubmitRoute.fetch_qr env qr_id st = inr qr
    ∧ QRCode.is_active qr = Some true
    ∧ SubmitRoute.fetch_form env qr st = inr form
    ∧ Form.is_active form = Some true
    ∧ Form.premise_id form = QRCode.premise_id qr
    ∧ (SubmitRoute.new_visit_id env ∉ Visit.id <$> visits st)
    ∧ let found :=
        SubmitRoute.resolve_visitor env (SubmitRoute.normalize fd)
          (profiles st) in
      ∃ visitorIdToLink, found.2 = inr visitorIdToLink
        ∧ let linked :=
            SubmitRoute.link_visit env visitorIdToLink
              (SubmitRoute.new_visit_id env)
              (visits st ++ [SubmitRoute.new_visit env qr form fd]) in
          SubmitRoute.POST env req st
          = mkRun (set_visits linked.1 st) (found.1 ++ linked.2)
              (Response.mk 201
                 (Response.Created "Visit recorded successfully"
                    (SubmitRoute.new_visit_id env))).
Proof.
  unfold SubmitRoute.POST.
  destruct (SubmitRoute.qrIdentifier req) as [qr_id|]; [|done].
  destruct (SubmitRoute.formData req) as [fd|]; [|done].
  destruct (negb (Js.truthy (Some qr_id))); [done|].
  destruct (SubmitRoute.fetch_qr env qr_id st) as [e|qr] eqn:Hq; [done|].
  destruct (Js.not_bool (QRCode.is_active qr)) eqn:Hqr; [done|].
  apply not_bool_false in Hqr.
  destruct (SubmitRoute.fetch_form env qr st) as [e|form] eqn:Hf; [done|].
  destruct (Js.not_bool (Form.is_active form)) eqn:Hform; [done|].
  apply not_bool_false in Hform.
  case_bool_decide as Hprem; [done|].
  destruct (SubmitRoute.insert_visit _ _ _) as [e|[vs1 visitData]] eqn:Hins;
    [done|].
  apply insert_visit_inv in Hins as (_ & Hfresh & -> & ->).
  destruct (SubmitRoute.resolve_visitor _ _ _).2 as [error|linked] eqn:Hfound;
    [done|].
  intros _. exists qr_id, fd, qr, form. repeat split; try done.
  by exists linked.
Qed.

(** The one exception of step 4. *)
Lemma resolve_throws_user (env : SubmitRoute.Env) (nfd : Js.object)
  (ps : list Profile.t) (error : SubmitRoute.Thrown) :
  (SubmitRoute.resolve_visitor env nfd ps).2 = inl error →
  error = SubmitRoute.ReferenceError "user".
Proof.
  unfold SubmitRoute.resolve_visitor, SubmitRoute.create_visitor.
  cbn [snd]. case_match; congruence.
Qed.

(** A submission answered otherwise leaves the store as it was, unless it
    was stopped by the exception of step 4: the visit of step 3 is then in
    the table, as it was inserted. *)
Lemma submit_not_created (env : SubmitRoute.Env) (req : SubmitRoute.Request)
  (st : Store) :
  Response.status (answer (SubmitRoute.POST env req st)) ≠ 201 →
  store (SubmitRoute.POST env req st) = st
  ∨ ∃ fd qr form,
      SubmitRoute.formData req = Some fd
      ∧ (SubmitRoute.new_visit_id env ∉ Visit.id <$> visits st)
      ∧ (SubmitRoute.resolve_visitor env (SubmitRoute.normalize fd)
           (profiles st)).2 = inl (SubmitRoute.ReferenceError "user")
      ∧ answer (SubmitRoute.POST env req st)
        = Response.mk 500 (Response.Error "Internal Server Error")
      ∧ store (SubmitRoute.POST env req st)
        = set_visits (visits st ++ [SubmitRoute.new_visit env qr form fd]) st.
Proof.
  unfold SubmitRoute.POST.
  destruct (SubmitRoute.qrIdentifier req) as [qr_id|]; [|by left].
  destruct (SubmitRoute.formData req) as [fd|]; [|by left].
  destruct (negb (Js.truthy (Some qr_id))); [by left|].
  destruct (SubmitRoute.fetch_qr env qr_id st) as [e|qr]; [by left|].
  destruct (Js.not_bool (QRCode.is_active qr)); [by left|].
  destruct (SubmitRoute.fetch_form env qr st) as [e|form]; [by left|].
  destruct (Js.not_bool (Form.is_active form)); [by left|].
  case_bool_decide; [by left|].
  destruct (SubmitRoute.insert_visit _ _ _) as [e|[vs1 visitData]] eqn:Hins;
    [by left|].
  apply insert_visit_inv in Hins as (_ & Hfresh & -> & ->).
  destruct (SubmitRoute.resolve_visitor _ _ _).2 as [error|linked] eqn:Hfound;
    [|done].
  pose proof (resolve_throws_user _ _ _ _ Hfound) as ->.
  intros _. right. exists fd, qr, form. repeat split; done.
Qed.

(** ** The lists of the manage-visits page *)

Lemma filter_none {A} (P : A → Prop) `{∀ r, Decision (P r)} (rows : list A) :
  Forall (λ r, ¬ P r) rows → filter P rows = [].
Proof.
  induction 1 as [|r rows Hr _ IH]; [done|].
  by rewrite filter_cons_False.
Qed.

Section Listings.
Import ManageVisitsView.

Lemma elem_of_order_desc (key : Visit.t → string) (v : Visit.t)
  (vs : list Visit.t) :
  v ∈ order_desc key vs ↔ v ∈ vs.
Proof. unfold order_desc. by rewrite merge_sort_Permutation. Qed.

Lemma elem_of_listing (st : Store) (P : Visit.t → Prop)
  `{∀ v, Decision (P v)} (key : Visit.t → string) (r : Row) :
  r ∈ embed st <$> order_desc key (filter P (visits st))
  ↔ ∃ v, r = embed st v ∧ v ∈ visits st ∧ P v.
Proof.
  rewrite list_elem_of_fmap. split.
  - intros (v & -> & Hv). exists v. split; [done|].
    by apply elem_of_order_desc, list_elem_of_filter in Hv as [? ?].
  - intros (v & -> & Hv & HP). exists v. split; [done|].
    by apply elem_of_order_desc, list_elem_of_filter.
Qed.

Lemma listing_nil (st : Store) (P : Visit.t → Prop) `{∀ v, Decision (P v)}
  (key : Visit.t → string) :
  Forall (λ v, ¬ P v) (visits st) →
  embed st <$> order_desc key (filter P (visits st)) = [].
Proof. intros Hnone. by rewrite filter_none. Qed.

(** With no visit awaiting approval in the table, a fetch leaves an empty
    pending list empty. *)
Lemma fetch_pending_nil (env : Env) (page : Page) (st : Store) :
  Forall (λ v, Visit.status v ≠ Some "pending_approval") (visits st) →
  pendingVisits page = [] →
  pendingVisits (fetchUserDataAndVisits env page st).1 = [].
Proof.
  intros Hst Hpage. unfold fetchUserDataAndVisits.
  destruct (OwnerRoute.sessionError (auth env)); [done|].
  destruct (OwnerRoute.session (auth env)) as [uid|]; [|done].
  destruct (Pg.call (premise_fault env) _) as [e|premiseData]; [done|].
  cbn [fst pendingVisits]. unfold Pg.call.
  destruct (pending_fault env); [done|].
  unfold pending_query. apply listing_nil.
  eapply Forall_impl; [exact Hst|]. by intros v Hv [_ Hpending].
Qed.

End Listings.

(** ** The invariant of the visits table *)

Lemma update_single_inv (fault : option PgError.t) (visitId : string)
  (f : Visit.t → Visit.t) (vs vs' : list Visit.t) (r : Visit.t) :
  OwnerRoute.update_single fault visitId f vs = inr (vs', r) →
  fault = None
  ∧ vs' = Pg.update (λ v, Visit.id v = visitId) f vs
  ∧ Pg.updated (λ v, Visit.id v = visitId) f vs = [r].
Proof.
  unfold OwnerRoute.update_single, Pg.call. destruct fault; [done|].
  destruct (Pg.single _) as [e|r'] eqn:Hs; [done|].
  intros [= <- <-]. by apply single_inv in Hs.
Qed.

Lemma link_visit_cases (env : SubmitRoute.Env) (linked : option string)
  (visitId : string) (vs : list Visit.t) :
  (SubmitRoute.link_visit env linked visitId vs).1 = vs
  ∨ ∃ p, linked = Some p
      ∧ (SubmitRoute.link_visit env linked visitId vs).1
        = Pg.update (λ v, Visit.id v = visitId)
            (Visit.with_visitor p (SubmitRoute.now env)) vs.
Proof.
  unfold SubmitRoute.link_visit. destruct linked as [p|]; [|by left].
  destruct (Js.truthy (Some p)); [|by left].
  destruct (SubmitRoute.link_fault env); [by left|]. right. by exists p.
Qed.

Lemma lifecycle_ok_new (env : SubmitRoute.Env) (qr : QRCode.t) (form : Form.t)
  (fd : Js.object) :
  lifecycle_ok (SubmitRoute.new_visit env qr form fd).
Proof. by left. Qed.

Lemma lifecycle_ok_visitor (p now : string) (v : Visit.t) :
  lifecycle_ok v → lifecycle_ok (Visit.with_visitor p now v).
Proof. done. Qed.

Lemma lifecycle_ok_approved (now : string) (v : Visit.t) :
  lifecycle_ok (Visit.with_status "approved" now v).
Proof. right. by left. Qed.

Lemma lifecycle_ok_denied (now : string) (v : Visit.t) :
  lifecycle_ok (Visit.with_status "denied" now v).
Proof. right. right. by left. Qed.

Lemma lifecycle_ok_denial (reason now : string) (v : Visit.t) :
  lifecycle_ok (Visit.with_denial reason now v).
Proof. right. right. by left. Qed.

Lemma lifecycle_ok_checkout (now : string) (v : Visit.t) :
  lifecycle_ok (Visit.with_checkout now v).
Proof. right. right. right. split; [done|]. by eexists. Qed.

Create HintDb lifecycle.

Local Hint Resolve lifecycle_ok_new lifecycle_ok_visitor lifecycle_ok_approved
  lifecycle_ok_denied lifecycle_ok_denial lifecycle_ok_checkout : lifecycle.

Lemma submit_preserves (env : SubmitRoute.Env) (req : SubmitRoute.Request)
  (st : Store) :
  Forall lifecycle_ok (visits st) →
  Forall lifecycle_ok (visits (store (SubmitRoute.POST env req st))).
Proof.
  intros Hst.
  destruct (decide (Response.status (answer (SubmitRoute.POST env req st))
                    = 201)) as [Hok|Hno].
  - apply submit_created in Hok
      as (qr_id & fd & qr & form & _ & _ & _ & _ & _ & _ & _ & _
          & linked & _ & ->).
    unfold set_visits. cbn [store visits].
    assert (Forall lifecycle_ok
              (visits st ++ [SubmitRoute.new_visit env qr form fd])) as Hnew.
    { apply Forall_app. split; [done|]. repeat constructor. }
    destruct (link_visit_cases env linked (SubmitRoute.new_visit_id env)
                (visits st ++ [SubmitRoute.new_visit env qr form fd]))
      as [->|(p & _ & ->)]; [done|].
    apply update_Forall; [done|]. intros r _. apply lifecycle_ok_visitor.
  - destruct (submit_not_created env req st Hno)
      as [->|(fd & qr & form & _ & _ & _ & _ & ->)]; [done|].
    unfold set_visits. cbn [visits].
    apply Forall_app. split; [done|]. repeat constructor.
Qed.

Lemma approve_preserves (env : ManageVisitsPage.Env) (visitId : string)
  (st : Store) :
  Forall lifecycle_ok (visits st) →
  Forall lifecycle_ok
    (visits (store (ManageVisitsPage.handleApprove env visitId st))).
Proof.
  intros Hst. unfold ManageVisitsPage.handleApprove.
  repeat case_match; simpl; auto using update_Forall with lifecycle.
Qed.

Lemma deny_preserves (env : ManageVisitsPage.Env) (prompted : option string)
  (visitId : string) (st : Store) :
  Forall lifecycle_ok (visits st) →
  Forall lifecycle_ok
    (visits (store (ManageVisitsPage.handleDeny env prompted visitId st))).
Proof.
  intros Hst. unfold ManageVisitsPage.handleDeny.
  repeat case_match; simpl; auto using update_Forall with lifecycle.
Qed.

Lemma deny_route_preserves (env : DenyRoute.Env) (visitId : string)
  (st : Store) :
  Forall lifecycle_ok (visits st) →
  Forall lifecycle_ok (visits (store (DenyRoute.POST env visitId st))).
Proof.
  intros Hst. unfold DenyRoute.POST.
  repeat case_match; simpl; try done.
  match goal with H : OwnerRoute.update_single _ _ _ _ = inr _ |- _ =>
    apply update_single_inv in H as (_ & -> & _) end.
  auto using update_Forall with lifecycle.
Qed.

Lemma checkout_preserves (env : CheckoutRoute.Env) (visitId : string)
  (st : Store) :
  Forall lifecycle_ok (visits st) →
  Forall lifecycle_ok (visits (store (CheckoutRoute.POST env visitId st))).
Proof.
  intros Hst. unfold CheckoutRoute.POST.
  repeat case_match; simpl; try done.
  match goal with H : OwnerRoute.update_single _ _ _ _ = inr _ |- _ =>
    apply update_single_inv in H as (_ & -> & _) end.
  auto using update_Forall with lifecycle.
Qed.

Lemma reachable_lifecycle_ok (st : Store) :
  reachable st → Forall lifecycle_ok (visits st).
Proof.
  induction 1 as [st Hempty|op st _ IH].
  - rewrite Hempty. constructor.
  - destruct op; simpl.
    + by apply submit_preserves.
    + by apply approve_preserves.
    + by apply deny_preserves.
    + by apply deny_route_preserves.
    + by apply checkout_preserves.
Qed.

Lemma reachable_run (ops : list Op) (st : Store) :
  reachable st → reachable (run ops st).
Proof.
  revert st. induction ops as [|op ops IH]; intros st Hst; [done|].
  simpl. apply IH. by constructor.
Qed.

(** *** In the states the program reaches *)

Lemma undecided_new (env : SubmitRoute.Env) (qr : QRCode.t) (form : Form.t)
  (fd : Js.object) :
  undecided (SubmitRoute.new_visit env qr form fd).
Proof. split; [by left|done]. Qed.

Lemma submit_undecided (env : SubmitRoute.Env) (req : SubmitRoute.Request)
  (st : Store) :
  Forall undecided (visits st) →
  Forall undecided (visits (store (SubmitRoute.POST env req st))).
Proof.
  intros Hst.
  assert (∀ qr form fd,
            Forall undecided
              (visits st ++ [SubmitRoute.new_visit env qr form fd])) as Hnew.
  { intros qr form fd. apply Forall_app. split; [done|].
    repeat constructor; apply undecided_new. }
  destruct (decide (Response.status (answer (SubmitRoute.POST env req st))
                    = 201)) as [Hok|Hno].
  - apply submit_created in Hok
      as (qr_id & fd & qr & form & _ & _ & _ & _ & _ & _ & _ & _
          & linked & _ & ->).
    unfold set_visits. cbn [store visits].
    destruct (link_visit_cases env linked (SubmitRoute.new_visit_id env)
                (visits st ++ [SubmitRoute.new_visit env qr form fd]))
      as [->|(p & _ & ->)]; [done|].
    apply update_Forall; [done|]. by intros r _ Hr.
  - destruct (submit_not_created env req st Hno)
      as [->|(fd & qr & form & _ & _ & _ & _ & ->)]; [done|].
    unfold set_visits. cbn [visits]. apply Hnew.
Qed.

Lemma deny_route_undecided (env : DenyRoute.Env) (visitId : string)
  (st : Store) :
  Forall undecided (visits st) →
  Forall undecided (visits (store (DenyRoute.POST env visitId st))).
Proof.
  intros Hst. unfold DenyRoute.POST.
  repeat case_match; simpl; try done.
  match goal with H : OwnerRoute.update_single _ _ _ _ = inr _ |- _ =>
    apply update_single_inv in H as (_ & -> & _) end.
  apply update_Forall; [done|]. intros r _ (_ & Hout & Hreason).
  split; [by right|done].
Qed.

(** The checkout route changes nothing while no visit is approved. *)
Lemma checkout_undecided (env : CheckoutRoute.Env) (visitId : string)
  (st : Store) :
  Forall undecided (visits st) →
  store (CheckoutRoute.POST env visitId st) = st
  ∧ Response.status (answer (CheckoutRoute.POST env visitId st)) ≠ 200.
Proof.
  intros Hst. unfold CheckoutRoute.POST.
  destruct (negb (Js.truthy (Some visitId))); [done|].
  destruct (OwnerRoute.sessionError (CheckoutRoute.auth env)); [done|].
  destruct (OwnerRoute.session (CheckoutRoute.auth env)); [|done].
  destruct (Pg.call _ _) as [e|v] eqn:Hfetch; [by case_bool_decide|].
  assert (undecided v) as ([Hs|Hs] & _ & _).
  { unfold Pg.call in Hfetch.
    destruct (CheckoutRoute.fetch_fault env); [done|].
    apply single_inv in Hfetch. rewrite Forall_forall in Hst. apply Hst.
    assert (v ∈ Pg.eq_col Visit.id visitId (visits st)) as Hin
      by (rewrite Hfetch; apply list_elem_of_here).
    by apply list_elem_of_filter in Hin as [_ ?]. }
  - destruct (OwnerRoute.embedded_premise st v); [|done].
    case_bool_decide; [done|].
    rewrite bool_decide_eq_false_2 by (rewrite Hs; discriminate).
    by rewrite bool_decide_eq_true_2 by (rewrite Hs; discriminate).
  - destruct (OwnerRoute.embedded_premise st v); [|done].
    case_bool_decide; [done|].
    rewrite bool_decide_eq_false_2 by (rewrite Hs; discriminate).
    by rewrite bool_decide_eq_true_2 by (rewrite Hs; discriminate).
Qed.

(** No page ever shows a pending row, so that no decision is taken on a
    page; the visits stay as the submit route and the deny route leave
    them. *)
Lemma page_reachable_undecided (s : State) :
  page_reachable s →
  pending_rows s = [] ∧ Forall undecided (visits (tables s)).
Proof.
  induction 1 as [st Hempty|e s _ [Hrows Hvisits] Hen].
  - split; [done|]. cbn [tables]. rewrite Hempty. constructor.
  - destruct e as [env req|env page|env row|env prompted row|env visitId
                  |env visitId]; cbn [after enabled tables pending_rows apply]
      in *.
    + split; [done|]. by apply submit_undecided.
    + split; [|done]. rewrite Hrows in Hen |- *. cbn [app].
      apply fetch_pending_nil.
      2: { destruct (ManageVisitsView.pendingVisits page) as [|r l]; [done|].
           specialize (Hen r (list_elem_of_here _ _)).
           by apply elem_of_nil in Hen. }
      eapply Forall_impl; [exact Hvisits|].
      intros v ([Hs|Hs] & _ & _); rewrite Hs; discriminate.
    + rewrite Hrows in Hen. by apply elem_of_nil in Hen.
    + rewrite Hrows in Hen. by apply elem_of_nil in Hen.
    + split; [done|]. by apply deny_route_undecided.
    + split; [done|]. by rewrite (proj1 (checkout_undecided env visitId _ Hvisits)).
Qed.

(** The program reaches only stores that calls of the handlers produce. *)
Lemma page_reachable_reachable (s : State) :
  page_reachable s → reachable (tables s).
Proof.
  induction 1 as [st Hempty|e s _ IH _]; [by constructor|].
  destruct e; cbn [after tables]; try done; by constructor.
Qed.



(** ** White space *)

(** [reason.trim() === ""] is the test [blank]. *)
Lemma trim_empty (s : string) : Js.trim s = "" ↔ Js.blank s = true.
Proof. unfold Js.blank. by rewrite bool_decide_eq_true. Qed.

(** A string of ASCII white space is blank. *)
Lemma ascii_blank (s : string) :
  Js.all Ascii.is_space s = true → Js.blank s = true.
Proof.
  intros Hs. apply trim_empty. unfold Js.trim.
  assert (Js.trim_start s = "") as ->; [|done].
  unfold Js.trim_start. induction s as [|c s IH]; [done|].
  simpl in Hs. apply andb_true_iff in Hs as [Hc Hs]. simpl.
  rewrite Hc. by apply IH.
Qed.

(** So are the no-break space and the ideographic space, alone or next to
    a tab. *)
Example unicode_blank :
  Js.blank (String (ascii_of_nat 194) (String (ascii_of_nat 160) "")) = true
  ∧ Js.blank
      (String (ascii_of_nat 9)
         (String (ascii_of_nat 227)
            (String (ascii_of_nat 128) (String (ascii_of_nat 128) " "))))
    = true
  ∧ Js.trim
      (String (ascii_of_nat 194) (String (ascii_of_nat 160) "no badge "))
    = "no badge".
Proof. repeat split; reflexivity. Qed.

(** ** The owner's decisions on the manage-visits page *)

Section Decisions.
Import ManageVisitsPage.

Lemma approve_goes_through (env : Env) (premise visitId : string)
  (st : Store) :
  goes_through env premise →
  handleApprove env visitId st
  = mkRun
      (set_visits
         (Pg.update (targets visitId premise)
            (Visit.with_status "approved" (now env)) (visits st)) st)
      [] (SetMessage "Visit approved successfully.").
Proof.
  intros ([u Hu] & Hp & Hne & Hf). unfold handleApprove.
  by rewrite Hu, Hp, Hf, (truthy_nonempty _ Hne).
Qed.

Lemma deny_goes_through (env : Env) (premise reason visitId : string)
  (st : Store) :
  goes_through env premise → Js.blank reason = false →
  handleDeny env (Some reason) visitId st
  = mkRun
      (set_visits
         (Pg.update (targets visitId premise)
            (Visit.with_denial reason (now env)) (visits st)) st)
      [] (SetMessage ("Visit denied. Reason: " +:+ reason)).
Proof.
  intros ([u Hu] & Hp & Hne & Hf) Hr. unfold handleDeny.
  rewrite bool_decide_eq_false_2
    by (rewrite trim_empty; by rewrite Hr).
  by rewrite Hu, Hp, Hf, (truthy_nonempty _ Hne).
Qed.

Lemma decision_goes_through (d : Verdict) (env : Env)
  (premise visitId : string) (st : Store) :
  goes_through env premise → well_formed d →
  store (decide_visit d env visitId st)
  = set_visits
      (Pg.update (targets visitId premise) (written d (now env)) (visits st))
      st
  ∧ succeeded (answer (decide_visit d env visitId st)).
Proof.
  intros Henv Hd. destruct d as [|reason]; unfold decide_visit, written.
  - rewrite (approve_goes_through _ premise) by done. split; [done|].
    by eexists.
  - rewrite (deny_goes_through _ premise) by done. split; [done|].
    by eexists.
Qed.

Lemma written_targets (d : Verdict) (now visitId premise : string)
  (v : Visit.t) :
  targets visitId premise v → targets visitId premise (written d now v).
Proof. by destruct d. Qed.

Lemma written_status (d : Verdict) (now : string) (v : Visit.t) :
  Visit.status (written d now v) = Some (verdict_status d).
Proof. by destruct d. Qed.

Lemma update_written_elem (d : Verdict) (now visitId premise : string)
  (v : Visit.t) (vs : list Visit.t) :
  v ∈ vs → targets visitId premise v →
  written d now v ∈ Pg.update (targets visitId premise) (written d now) vs.
Proof.
  intros Hv Ht. unfold Pg.update. apply list_elem_of_fmap. exists v.
  split; [|done]. by rewrite decide_True.
Qed.

(** Rows of the page's premise with the given id carry the status of the
    decision written last. *)
Lemma update_written_status (d : Verdict) (now visitId premise : string)
  (w : Visit.t) (vs : list Visit.t) :
  w ∈ Pg.update (targets visitId premise) (written d now) vs →
  targets visitId premise w →
  Visit.status w = Some (verdict_status d).
Proof.
  unfold Pg.update. intros (v & -> & Hv)%list_elem_of_fmap Ht.
  destruct (decide (targets visitId premise v)); [|done].
  apply written_status.
Qed.

End Decisions.

(** C2, as stated, fails: the owner approves a pending visit twice; the
    second call is answered like the first, with the success message. *)
Lemma second_approve_succeeds :
  let st :=
    Demo.with_visit (Demo.jane_visit "pending_approval" None None None "t0") in
  let r1 := ManageVisitsPage.handleApprove (Demo.owner_page "t1") "v1" st in
  let r2 :=
    ManageVisitsPage.handleApprove (Demo.owner_page "t2") "v1" (store r1) in
  answer r1 = ManageVisitsPage.SetMessage "Visit approved successfully."
  ∧ answer r2 = ManageVisitsPage.SetMessage "Visit approved successfully."
  ∧ visits (store r2) = [Demo.jane_visit "approved" None None None "t2"].
Proof. repeat split; reflexivity. Qed.

(** C2, amended.  [handleApprove] looks at no status: for a signed-in page
    with a premise and a store that takes the update, it answers "Visit
    approved successfully." whatever state the visit is in and leaves the
    visit approved; approving the same visit again is answered the same way
    and leaves every status as the first approval left it. *)
Theorem approve_ignores_status
  (env1 env2 : ManageVisitsPage.Env) (premise visitId : string) (st : Store)
  (v : Visit.t) :
  ManageVisitsPage.goes_through env1 premise →
  ManageVisitsPage.goes_through env2 premise →
  v ∈ visits st → ManageVisitsPage.targets visitId premise v →
  let r1 := ManageVisitsPage.handleApprove env1 visitId st in
  let r2 := ManageVisitsPage.handleApprove env2 visitId (store r1) in
  answer r1 = ManageVisitsPage.SetMessage "Visit approved successfully."
  ∧ Visit.with_status "approved" (ManageVisitsPage.now env1) v
      ∈ visits (store r1)
  ∧ answer r2 = ManageVisitsPage.SetMessage "Visit approved successfully."
  ∧ Visit.status <$> visits (store r2) = Visit.status <$> visits (store r1).
Proof.
  intros H1 H2 Hv Ht r1 r2. subst r1 r2.
  rewrite (approve_goes_through env1 premise) by done.
  rewrite (approve_goes_through env2 premise) by done.
  cbn [answer store]. unfold set_visits. cbn [visits].
  split; [done|]. split; [|split; [done|]].
  - apply (update_written_elem ManageVisitsPage.ApproveIt); done.
  - unfold Pg.update. rewrite <- !list_fmap_compose.
    apply list_fmap_ext. intros _ w _. simpl.
    destruct (decide (ManageVisitsPage.targets visitId premise w)) as [Hw|Hw].
    + by rewrite decide_True.
    + by rewrite decide_False.
Qed.

(** A visit of the example site that was denied is approved, twice. *)
Lemma approve_ignores_status_witness :
  let st :=
    Demo.with_visit
      (Demo.jane_visit "denied" None None (Some "no badge") "t1") in
  answer (ManageVisitsPage.handleApprove (Demo.owner_page "t2") "v1" st)
  = ManageVisitsPage.SetMessage "Visit approved successfully.".
Proof.
  intros st.
  refine (proj1 (approve_ignores_status (Demo.owner_page "t2")
                   (Demo.owner_page "t3") "p1" "v1" st
                   (Demo.jane_visit "denied" None None (Some "no badge") "t1")
                   _ _ _ _)).
  - unfold ManageVisitsPage.goes_through. simpl. repeat split; eauto.
  - unfold ManageVisitsPage.goes_through. simpl. repeat split; eauto.
  - apply list_elem_of_singleton. reflexivity.
  - split; reflexivity.
Defined.

(** C10, as stated, fails for a visit that is not pending: a denied visit of
    the owner's premise is approved; the call reports success and the row is
    rewritten. *)
Lemma approve_rewrites_denied_visit :
  let st :=
    Demo.with_visit
      (Demo.jane_visit "denied" None None (Some "no badge") "t1") in
  let r := ManageVisitsPage.handleApprove (Demo.owner_page "t2") "v1" st in
  answer r = ManageVisitsPage.SetMessage "Visit approved successfully."
  ∧ visits (store r)
    = [Demo.jane_visit "approved" None None (Some "no badge") "t2"]
  ∧ visits (store r) ≠ visits st.
Proof. repeat split; [reflexivity..|discriminate]. Qed.

(** C10, amended.  For a signed-in page with a premise and a store that takes
    the update, [handleApprove] always reports success and logs nothing.  The
    update is filtered by [id] and [premise_id] only: when no visit has the
    id, or the visits with the id belong to another premise, the store is
    left as it was; a visit of the premise with that id is set to [approved]
    whatever status it had; all other visits are kept. *)
Theorem approve_reports_success
  (env : ManageVisitsPage.Env) (premise visitId : string) (st : Store) :
  ManageVisitsPage.goes_through env premise →
  let r := ManageVisitsPage.handleApprove env visitId st in
  answer r = ManageVisitsPage.SetMessage "Visit approved successfully."
  ∧ console r = []
  ∧ ((∀ v, v ∈ visits st → Visit.id v = visitId →
           Visit.premise_id v ≠ Some premise) → store r = st)
  ∧ (∀ v, v ∈ visits st → ManageVisitsPage.targets visitId premise v →
          Visit.with_status "approved" (ManageVisitsPage.now env) v
            ∈ visits (store r))
  ∧ (∀ v, v ∈ visits st → ¬ ManageVisitsPage.targets visitId premise v →
          v ∈ visits (store r)).
Proof.
  intros Henv r. subst r. rewrite (approve_goes_through env premise) by done.
  cbn [answer store console]. unfold set_visits. cbn [visits].
  split; [done|]. split; [done|]. split; [|split].
  - intros Hnone. rewrite update_untouched; [by destruct st|].
    apply Forall_forall. intros v Hv [Hid Hp]. by apply (Hnone v).
  - intros v Hv Ht.
    by apply (update_written_elem ManageVisitsPage.ApproveIt).
  - intros v Hv Ht. by apply update_keeps_others.
Qed.

(** An id that no visit of the example site carries. *)
Lemma approve_reports_success_witness :
  let st :=
    Demo.with_visit (Demo.jane_visit "checked_in" None None None "t0") in
  let r := ManageVisitsPage.handleApprove (Demo.owner_page "t1") "v9" st in
  answer r = ManageVisitsPage.SetMessage "Visit approved successfully."
  ∧ store r = st.
Proof.
  intros st r.
  assert (ManageVisitsPage.goes_through (Demo.owner_page "t1") "p1") as Henv.
  { unfold ManageVisitsPage.goes_through. simpl. repeat split; eauto. }
  destruct (approve_reports_success (Demo.owner_page "t1") "p1" "v9" st Henv)
    as (Hans & _ & Hsame & _).
  split; [exact Hans|]. apply Hsame.
  intros v Hv%list_elem_of_singleton Hid. subst v. discriminate Hid.
Defined.

(** C5, as stated, fails: two approve calls on one pending visit.  Each call
    is a single update statement, so a race between them is one of the two
    orders; the calls carry the same request and differ by their time only,
    and in either order both are answered with the success message. *)
Lemma racing_approvals_both_succeed :
  let st :=
    Demo.with_visit (Demo.jane_visit "pending_approval" None None None "t0") in
  let first_then_second :=
    let r1 := ManageVisitsPage.handleApprove (Demo.owner_page "t1") "v1" st in
    (answer r1,
     answer (ManageVisitsPage.handleApprove (Demo.owner_page "t2") "v1"
               (store r1))) in
  let second_then_first :=
    let r2 := ManageVisitsPage.handleApprove (Demo.owner_page "t2") "v1" st in
    (answer (ManageVisitsPage.handleApprove (Demo.owner_page "t1") "v1"
               (store r2)),
     answer r2) in
  first_then_second
  = (ManageVisitsPage.SetMessage "Visit approved successfully.",
     ManageVisitsPage.SetMessage "Visit approved successfully.")
  ∧ second_then_first
  = (ManageVisitsPage.SetMessage "Visit approved successfully.",
     ManageVisitsPage.SetMessage "Visit approved successfully.").
Proof. split; reflexivity. Qed.

(** C5, amended.  The update of [handleApprove] and [handleDeny] is
    conditioned on [id] and [premise_id], never on the status.  When two
    such calls (approve or deny with a reason, in any combination) reach the
    store one after the other, both report success, and the visit ends with
    what the later call wrote over what the earlier call wrote. *)
Theorem racing_decisions_last_write_wins
  (d1 d2 : ManageVisitsPage.Verdict) (env1 env2 : ManageVisitsPage.Env)
  (premise visitId : string) (st : Store) :
  ManageVisitsPage.goes_through env1 premise →
  ManageVisitsPage.goes_through env2 premise →
  ManageVisitsPage.well_formed d1 → ManageVisitsPage.well_formed d2 →
  let r1 := ManageVisitsPage.decide_visit d1 env1 visitId st in
  let r2 := ManageVisitsPage.decide_visit d2 env2 visitId (store r1) in
  ManageVisitsPage.succeeded (answer r1)
  ∧ ManageVisitsPage.succeeded (answer r2)
  ∧ (∀ v, v ∈ visits st → ManageVisitsPage.targets visitId premise v →
       ManageVisitsPage.written d2 (ManageVisitsPage.now env2)
         (ManageVisitsPage.written d1 (ManageVisitsPage.now env1) v)
       ∈ visits (store r2))
  ∧ (∀ w, w ∈ visits (store r2) →
       ManageVisitsPage.targets visitId premise w →
       Visit.status w = Some (ManageVisitsPage.verdict_status d2)).
Proof.
  intros H1 H2 Hd1 Hd2 r1 r2.
  destruct (decision_goes_through d1 env1 premise visitId st H1 Hd1)
    as [Hs1 Ha1].
  destruct (decision_goes_through d2 env2 premise visitId (store r1) H2 Hd2)
    as [Hs2 Ha2].
  fold r1 in Hs1, Ha1. fold r2 in Hs2, Ha2.
  split; [done|]. split; [done|]. rewrite Hs2, Hs1.
  unfold set_visits. cbn [visits]. split.
  - intros v Hv Ht. apply update_written_elem.
    + by apply update_written_elem.
    + by apply written_targets.
  - intros w Hw Ht. by eapply update_written_status.
Qed.

(** On the example site an approval is followed by a denial of the same
    pending visit. *)
Lemma racing_decisions_last_write_wins_witness :
  let st :=
    Demo.with_visit (Demo.jane_visit "pending_approval" None None None "t0") in
  let r1 := ManageVisitsPage.handleApprove (Demo.owner_page "t1") "v1" st in
  let r2 :=
    ManageVisitsPage.handleDeny (Demo.owner_page "t2") (Some "no badge") "v1"
      (store r1) in
  ManageVisitsPage.succeeded (answer r1)
  ∧ ManageVisitsPage.succeeded (answer r2).
Proof.
  intros st r1 r2.
  assert (∀ t, ManageVisitsPage.goes_through (Demo.owner_page t) "p1")
    as Henv.
  { intros t. unfold ManageVisitsPage.goes_through. simpl.
    repeat split; eauto. }
  destruct (racing_decisions_last_write_wins ManageVisitsPage.ApproveIt
              (ManageVisitsPage.DenyIt "no badge") (Demo.owner_page "t1")
              (Demo.owner_page "t2") "p1" "v1" st (Henv "t1") (Henv "t2") I
              eq_refl) as (Hr1 & Hr2 & _).
  split; [exact Hr1|exact Hr2].
Defined.

(** ** Denial *)

(** C3.  The deny route, asked by the owner to deny Jane's visit as her
    submission left it.  The route reads no reason from its request, so
    that a denial that supplies none is not turned away: it answers 200,
    the visit is [denied], and no reason is recorded on it.  On the page,
    [handleDeny] turns a denial without reason away and leaves the visit as
    it was. *)
Lemma deny_route_needs_no_reason :
  let st :=
    store (SubmitRoute.POST (Demo.submit_env "t0" "v1") Demo.jane Demo.site) in
  let r := DenyRoute.POST (Demo.owner_deny "t1") "v1" st in
  let r' :=
    ManageVisitsPage.handleDeny (Demo.owner_page "t1") (Some "") "v1" st in
  visits st = [Demo.jane_visit "checked_in" None None None "t0"]
  ∧ answer r
    = Response.mk 200
        (Response.Visit "Visitor denied successfully"
           (Demo.jane_visit "denied" None None None "t1"))
  ∧ visits (store r) = [Demo.jane_visit "denied" None None None "t1"]
  ∧ Visit.denial_reason (Demo.jane_visit "denied" None None None "t1") = None
  ∧ answer r' = ManageVisitsPage.SetError "A reason for denial is required."
  ∧ store r' = st.
Proof. repeat split; reflexivity. Qed.

(** X28: on the manage-visits page a reason that is empty or made of white
    space only is turned away with "A reason for denial is required." and
    the store is left as it was; a denial that reports success had a reason
    that is not blank, and every visit of the page's premise with the given
    id is left with status [denied] and that reason, all other visits being
    kept.  The deny route takes no reason: when it answers 200 the visit
    has status [denied] and the denial reason it had before. *)
Theorem deny_reason_required_on_page
  (env : ManageVisitsPage.Env) (denv : DenyRoute.Env)
  (reason visitId : string) (st : Store) :
  let r := ManageVisitsPage.handleDeny env (Some reason) visitId st in
  let r' := DenyRoute.POST denv visitId st in
  (Js.blank reason = true →
     answer r = ManageVisitsPage.SetError "A reason for denial is required."
     ∧ store r = st)
  ∧ (ManageVisitsPage.succeeded (answer r) →
     Js.blank reason = false
     ∧ ∃ premise, ManageVisitsPage.premiseId env = Some premise
       ∧ (∀ v, v ∈ visits st → ManageVisitsPage.targets visitId premise v →
            ∃ v', v' ∈ visits (store r)
              ∧ ManageVisitsPage.targets visitId premise v'
              ∧ Visit.status v' = Some "denied"
              ∧ Visit.denial_reason v' = Some reason)
       ∧ (∀ v, v ∈ visits st → ¬ ManageVisitsPage.targets visitId premise v →
            v ∈ visits (store r)))
  ∧ (Response.status (answer r') = 200 →
     ∃ v v', visits_with_id visitId st = [v]
       ∧ visits_with_id visitId (store r') = [v']
       ∧ Visit.status v' = Some "denied"
       ∧ Visit.denial_reason v' = Visit.denial_reason v).
Proof.
  intros r r'. split; [|split].
  - intros Hb. subst r. unfold ManageVisitsPage.handleDeny.
    by rewrite bool_decide_eq_true_2 by (by apply trim_empty).
  - subst r. unfold ManageVisitsPage.handleDeny.
    case_bool_decide as Htrim; [by intros [m [=]]|].
    rewrite trim_empty in Htrim. apply not_true_is_false in Htrim.
    destruct (ManageVisitsPage.session env); [|by intros [m [=]]].
    destruct (ManageVisitsPage.premiseId env) as [premise|];
      [|by intros [m [=]]].
    destruct (negb (Js.truthy (Some premise))); [by intros [m [=]]|].
    destruct (ManageVisitsPage.update_fault env); [by intros [m [=]]|].
    intros _. split; [done|]. exists premise. split; [done|].
    unfold set_visits. cbn [store visits]. split.
    + intros v Hv Ht.
      exists (Visit.with_denial reason (ManageVisitsPage.now env) v).
      split; [|done].
      by apply (update_written_elem (ManageVisitsPage.DenyIt reason)).
    + intros v Hv Ht. by apply update_keeps_others.
  - subst r'. unfold DenyRoute.POST, visits_with_id.
    destruct (negb (Js.truthy (Some visitId))); [done|].
    destruct (OwnerRoute.sessionError (DenyRoute.auth denv)); [done|].
    destruct (OwnerRoute.session (DenyRoute.auth denv)); [|done].
    destruct (Pg.call _ _) as [e|v] eqn:Hfetch; [by case_bool_decide|].
    destruct (OwnerRoute.embedded_premise st v); [|done].
    case_bool_decide; [done|].
    destruct (OwnerRoute.update_single _ _ _ _) as [e|[vs' v']] eqn:Hupd;
      [done|].
    intros _. apply update_single_inv in Hupd as (_ & -> & Hone).
    unfold Pg.updated in Hone.
    exists v, v'. unfold set_visits. cbn [store visits]. unfold Pg.eq_col.
    rewrite filter_update by done.
    unfold Pg.call in Hfetch. destruct (DenyRoute.fetch_fault denv); [done|].
    apply single_inv in Hfetch. unfold Pg.eq_col in Hfetch.
    rewrite Hfetch in Hone |- *. injection Hone as <-. done.
Qed.

(** A reason of three spaces is turned away on the example site. *)
Lemma deny_reason_required_on_page_witness :
  let st :=
    Demo.with_visit (Demo.jane_visit "pending_approval" None None None "t0") in
  let r :=
    ManageVisitsPage.handleDeny (Demo.owner_page "t1") (Some "   ") "v1" st in
  answer r = ManageVisitsPage.SetError "A reason for denial is required."
  ∧ store r = st.
Proof.
  intros st r.
  apply (proj1 (deny_reason_required_on_page (Demo.owner_page "t1")
                  (Demo.owner_deny "t1") "   " "v1" st)).
  reflexivity.
Defined.

(** ** What a submission stores *)

Lemma update_fresh (visitId : string) (f : Visit.t → Visit.t)
  (vs : list Visit.t) :
  visitId ∉ Visit.id <$> vs →
  Pg.update (λ v, Visit.id v = visitId) f vs = vs.
Proof.
  intros Hfresh. apply update_untouched, Forall_forall.
  intros v Hv Hid. apply Hfresh. apply list_elem_of_fmap. by exists v.
Qed.

(** The link update reaches the new row only. *)
Lemma link_visit_new_row (env : SubmitRoute.Env) (linked : option string)
  (row : Visit.t) (vs : list Visit.t) :
  Visit.id row ∉ Visit.id <$> vs →
  ∃ row', (SubmitRoute.link_visit env linked (Visit.id row) (vs ++ [row])).1
          = vs ++ [row']
    ∧ (row' = row
       ∨ ∃ p, linked = Some p
           ∧ row' = Visit.with_visitor p (SubmitRoute.now env) row).
Proof.
  intros Hfresh.
  destruct (link_visit_cases env linked (Visit.id row) (vs ++ [row]))
    as [->|(p & -> & ->)].
  - exists row. split; [done|by left].
  - exists (Visit.with_visitor p (SubmitRoute.now env) row).
    rewrite update_app, update_fresh by done.
    split; [|right; by exists p].
    unfold Pg.update. simpl. by rewrite decide_True.
Qed.

(** The link update, when it goes through, writes the resolved id. *)
Lemma link_visit_linked (env : SubmitRoute.Env) (p : string) (row : Visit.t)
  (vs : list Visit.t) :
  p ≠ "" → SubmitRoute.link_fault env = None →
  Visit.id row ∉ Visit.id <$> vs →
  (SubmitRoute.link_visit env (Some p) (Visit.id row) (vs ++ [row])).1
  = vs ++ [Visit.with_visitor p (SubmitRoute.now env) row].
Proof.
  intros Hp Hlink Hfresh. unfold SubmitRoute.link_visit.
  rewrite (truthy_nonempty _ Hp), Hlink. cbn [fst].
  rewrite update_app, update_fresh by done.
  unfold Pg.update. simpl. by rewrite decide_True.
Qed.

(** A normalized key holds no white space. *)
Lemma normalize_key_no_space (key : string) :
  Js.all (λ c, negb (Ascii.is_space c)) (SubmitRoute.normalize_key key)
  = true.
Proof.
  unfold SubmitRoute.normalize_key.
  generalize (Js.toLowerCase key) as s. generalize false as in_run.
  intros in_run s. revert in_run.
  induction s as [|c s IH]; intros in_run; simpl; [done|].
  destruct (Ascii.is_space c) eqn:Hc.
  - destruct in_run; simpl; by rewrite ?IH.
  - simpl. by rewrite Hc, IH.
Qed.

Lemma set_keys (k v : string) (o : Js.object) :
  ∀ k', k' ∈ (Js.set k v o).*1 → k' = k ∨ k' ∈ o.*1.
Proof.
  induction o as [|[k0 v0] o IH]; intros k'; simpl.
  - intros ->%list_elem_of_singleton. by left.
  - case_bool_decide as Hk; simpl.
    + intros [->|Hin]%elem_of_cons; [by left|].
      right. by apply list_elem_of_further.
    + intros [->|Hin]%elem_of_cons; [right; by apply list_elem_of_here|].
      destruct (IH _ Hin) as [->|Hin']; [by left|].
      right. by apply list_elem_of_further.
Qed.

(** Every key of the normalized copy is the normalized form of a label of
    the submission. *)
Lemma normalize_keys (fd : Js.object) (k : string) :
  k ∈ (SubmitRoute.normalize fd).*1 →
  ∃ label, label ∈ fd.*1 ∧ k = SubmitRoute.normalize_key label.
Proof.
  unfold SubmitRoute.normalize.
  assert (∀ acc,
            k ∈ (foldl (λ acc kv,
                          Js.set (SubmitRoute.normalize_key kv.1) kv.2 acc)
                   acc fd).*1 →
            k ∈ acc.*1
            ∨ ∃ label, label ∈ fd.*1 ∧ k = SubmitRoute.normalize_key label)
    as Hgen.
  { induction fd as [|[label v] fd IH]; intros acc; simpl; [by left|].
    intros Hk. destruct (IH _ Hk) as [Hacc|(l & Hl & ->)].
    - apply set_keys in Hacc as [->|Hacc]; [|by left].
      right. exists label. split; [apply list_elem_of_here|done].
    - right. exists l. split; [by apply list_elem_of_further|done]. }
  intros Hk. destruct (Hgen [] Hk) as [Hnil|Hlabel]; [|done].
  by apply elem_of_nil in Hnil.
Qed.

(** C9, as stated, fails: the submission of Jane, who is on record with her
    email, is accepted and stored under the labels she sent; the normalized
    key of "Full Name" is "full_name", and the stored form data has no such
    key. *)
Lemma stored_form_data_is_raw :
  let r := SubmitRoute.POST (Demo.submit_env "t0" "v1") Demo.jane
             Demo.site_with_jane in
  answer r
  = Response.mk 201 (Response.Created "Visit recorded successfully" "v1")
  ∧ Visit.form_data <$> visits (store r)
    = [Some [("Full Name", "Jane"); ("Email", "jane@x.com")]]
  ∧ SubmitRoute.normalize_key "Full Name" = "full_name"
  ∧ Js.get "full_name" [("Full Name", "Jane"); ("Email", "jane@x.com")]
    = None.
Proof. repeat split; reflexivity. Qed.

(** C9, amended.  A submission that is accepted stores the raw form data as
    it was sent, under the original labels, on the one visit it adds; the
    normalized copy is used to read the visitor's contact fields and is not
    stored. *)
Theorem accepted_submission_stores_raw_form_data
  (env : SubmitRoute.Env) (req : SubmitRoute.Request) (st : Store) :
  let r := SubmitRoute.POST env req st in
  Response.status (answer r) = 201 →
  ∃ fd v, SubmitRoute.formData req = Some fd
    ∧ visits (store r) = visits st ++ [v]
    ∧ Visit.id v = SubmitRoute.new_visit_id env
    ∧ Visit.form_data v = Some fd
    ∧ Visit.status v = Some "checked_in".
Proof.
  intros r Hok. subst r.
  apply submit_created in Hok
    as (qr_id & fd & qr & form & _ & Hfd & _ & _ & _ & _ & _ & Hfresh
        & linked & _ & ->).
  unfold set_visits. cbn [store visits].
  destruct (link_visit_new_row env linked
              (SubmitRoute.new_visit env qr form fd) (visits st) Hfresh)
    as (row' & Hrow & Hcases).
  cbn [SubmitRoute.new_visit Visit.id] in Hrow. rewrite Hrow.
  exists fd, row'. split; [done|]. split; [done|].
  by destruct Hcases as [->|(p & _ & ->)].
Qed.

(** The submission of Jane, who is on record, on the example site. *)
Lemma accepted_submission_stores_raw_form_data_witness :
  ∃ fd v, SubmitRoute.formData Demo.jane = Some fd
    ∧ visits (store (SubmitRoute.POST (Demo.submit_env "t0" "v1")
                       Demo.jane Demo.site_with_jane))
      = visits Demo.site_with_jane ++ [v]
    ∧ Visit.id v = "v1"
    ∧ Visit.form_data v = Some fd
    ∧ Visit.status v = Some "checked_in".
Proof.
  apply (accepted_submission_stores_raw_form_data
           (Demo.submit_env "t0" "v1") Demo.jane Demo.site_with_jane).
  reflexivity.
Defined.

(** The lines of the two lookups are on the console of every submission
    that got as far as step 4. *)
Lemma submit_console (env : SubmitRoute.Env) (qr_id : string)
  (fd : Js.object) (st : Store) (qr : QRCode.t) (form : Form.t) :
  qr_id ≠ "" →
  SubmitRoute.fetch_qr env qr_id st = inr qr →
  QRCode.is_active qr = Some true →
  SubmitRoute.fetch_form env qr st = inr form →
  Form.is_active form = Some true →
  Form.premise_id form = QRCode.premise_id qr →
  SubmitRoute.insert_fault env = None →
  SubmitRoute.new_visit_id env ∉ Visit.id <$> visits st →
  let found :=
    SubmitRoute.resolve_visitor env (SubmitRoute.normalize fd) (profiles st) in
  let vs1 := visits st ++ [SubmitRoute.new_visit env qr form fd] in
  SubmitRoute.POST env (SubmitRoute.mkRequest (Some qr_id) (Some fd)) st
  = match found.2 with
    | inl error =>
        mkRun (set_visits vs1 st)
          (found.1
           ++ ["Unexpected error in /api/visits/submit: "
                 +:+ SubmitRoute.thrown_message error])
          (Response.mk 500 (Response.Error "Internal Server Error"))
    | inr visitorIdToLink =>
        let linked :=
          SubmitRoute.link_visit env visitorIdToLink
            (SubmitRoute.new_visit_id env) vs1 in
        mkRun (set_visits linked.1 st) (found.1 ++ linked.2)
          (Response.mk 201
             (Response.Created "Visit recorded successfully"
                (SubmitRoute.new_visit_id env)))
    end.
Proof.
  intros Hid Hq Hqa Hf Hfa Hprem Hins Hfresh found vs1.
  unfold SubmitRoute.POST.
  cbn [SubmitRoute.qrIdentifier SubmitRoute.formData].
  rewrite (truthy_nonempty _ Hid), Hq, Hqa, Hf, Hfa. cbn [negb Js.not_bool].
  rewrite bool_decide_eq_false_2 by (intros Hne; by apply Hne).
  unfold SubmitRoute.insert_visit. rewrite Hins. cbn [Pg.call].
  by rewrite bool_decide_eq_false_2 by done.
Qed.

(** C8.  What a submission that passed the intake checks and whose visit
    row was inserted ends with.  It adds exactly one visit row and no
    profile.  An error of the email lookup, of the phone lookup or of the
    link update is written to the console and the submission is answered
    201 all the same.  But when neither lookup yields a profile and the
    submission carries a name, an email or an id number, the route reaches
    its provisioning step, whose row reads [user.id] of a [user] bound
    nowhere: the exception is caught by the route, which answers 500
    "Internal Server Error" although the visit row is in the table,
    without visitor. *)
Theorem provisioning_fails_submission
  (env : SubmitRoute.Env) (qr_id : string) (fd : Js.object) (st : Store)
  (qr : QRCode.t) (form : Form.t) :
  qr_id ≠ "" →
  SubmitRoute.fetch_qr env qr_id st = inr qr →
  QRCode.is_active qr = Some true →
  SubmitRoute.fetch_form env qr st = inr form →
  Form.is_active form = Some true →
  Form.premise_id form = QRCode.premise_id qr →
  SubmitRoute.insert_fault env = None →
  SubmitRoute.new_visit_id env ∉ Visit.id <$> visits st →
  let r := SubmitRoute.POST env
             (SubmitRoute.mkRequest (Some qr_id) (Some fd)) st in
  let nfd := SubmitRoute.normalize fd in
  let visitorEmail := Js.get "email" nfd in
  let visitorPhone :=
    Js.or (Js.get "phone_number" nfd) (Js.get "phone" nfd) in
  let visitorFullName := Js.or (Js.get "full_name" nfd) (Js.get "name" nfd) in
  let visitorIdNumber := Js.get "id_number" nfd in
  let by_email := SubmitRoute.find_by_email env visitorEmail (profiles st) in
  let by_phone :=
    SubmitRoute.find_by_phone env by_email.2 visitorPhone (profiles st) in
  let provisioning :=
    negb (Js.truthy by_phone.2)
    && (Js.truthy visitorFullName || Js.truthy visitorEmail
        || Js.truthy visitorIdNumber) in
  (∃ v, visits (store r) = visits st ++ [v]
     ∧ Visit.id v = SubmitRoute.new_visit_id env)
  ∧ profiles (store r) = profiles st
  ∧ (provisioning = true →
       answer r = Response.mk 500 (Response.Error "Internal Server Error")
       ∧ visits (store r)
         = visits st ++ [SubmitRoute.new_visit env qr form fd]
       ∧ console r
         = by_email.1 ++ by_phone.1
           ++ ["Unexpected error in /api/visits/submit: "
                 +:+ "ReferenceError: user is not defined"])
  ∧ (provisioning = false →
       answer r
       = Response.mk 201
           (Response.Created "Visit recorded successfully"
              (SubmitRoute.new_visit_id env))
       ∧ console r
         = by_email.1 ++ by_phone.1
           ++ (SubmitRoute.link_visit env by_phone.2
                 (SubmitRoute.new_visit_id env)
                 (visits st ++ [SubmitRoute.new_visit env qr form fd])).2)
  ∧ (∀ err, SubmitRoute.email_fault env = Some err →
       Js.truthy visitorEmail = true →
       by_email = (["Error finding visitor by email: "
                      +:+ PgError.message err], None))
  ∧ (∀ err, SubmitRoute.phone_fault env = Some err →
       Js.truthy by_email.2 = false → Js.truthy visitorPhone = true →
       by_phone = (["Error finding visitor by phone: "
                      +:+ PgError.message err], by_email.2))
  ∧ (∀ err, SubmitRoute.link_fault env = Some err →
       provisioning = false → Js.truthy by_phone.2 = true →
       "Error linking visit to visitor: " +:+ PgError.message err
         ∈ console r
       ∧ visits (store r)
         = visits st ++ [SubmitRoute.new_visit env qr form fd]).
Proof.
  intros Hid Hq Hqa Hf Hfa Hprem Hins Hfresh r nfd visitorEmail visitorPhone
    visitorFullName visitorIdNumber by_email by_phone provisioning.
  assert (r = if provisioning then
                mkRun
                  (set_visits
                     (visits st ++ [SubmitRoute.new_visit env qr form fd]) st)
                  ((by_email.1 ++ by_phone.1)
                   ++ ["Unexpected error in /api/visits/submit: "
                         +:+ "ReferenceError: user is not defined"])
                  (Response.mk 500 (Response.Error "Internal Server Error"))
              else
                let linked :=
                  SubmitRoute.link_visit env by_phone.2
                    (SubmitRoute.new_visit_id env)
                    (visits st ++ [SubmitRoute.new_visit env qr form fd]) in
                mkRun (set_visits linked.1 st)
                  ((by_email.1 ++ by_phone.1) ++ linked.2)
                  (Response.mk 201
                     (Response.Created "Visit recorded successfully"
                        (SubmitRoute.new_visit_id env)))) as Hr.
  { subst r. rewrite (submit_console env qr_id fd st qr form) by done.
    unfold SubmitRoute.resolve_visitor, SubmitRoute.create_visitor.
    cbn [fst snd]. fold nfd visitorEmail visitorPhone visitorFullName
      visitorIdNumber by_email by_phone provisioning.
    by destruct provisioning. }
  destruct (link_visit_new_row env by_phone.2
              (SubmitRoute.new_visit env qr form fd) (visits st) Hfresh)
    as (row' & Hrow & Hcases).
  cbn [SubmitRoute.new_visit Visit.id] in Hrow.
  split; [|split; [|split; [|split; [|split; [|split]]]]].
  - rewrite Hr. destruct provisioning; cbn [store set_visits visits].
    + by eexists.
    + rewrite Hrow. exists row'. split; [done|].
      by destruct Hcases as [->|(p & _ & ->)].
  - rewrite Hr. by destruct provisioning.
  - intros Hp. rewrite Hr, Hp. cbn [answer store console set_visits visits].
    by rewrite <- app_assoc.
  - intros Hp. rewrite Hr, Hp. cbn [answer store console set_visits visits].
    by rewrite <- app_assoc.
  - intros err Herr Hemail. subst by_email. unfold SubmitRoute.find_by_email.
    destruct visitorEmail as [e|]; [|done]. by rewrite Hemail, Herr.
  - intros err Herr Hnone Hphone. subst by_phone.
    unfold SubmitRoute.find_by_phone.
    destruct visitorPhone as [ph|]; [|done].
    by rewrite Hnone, Hphone, Herr.
  - intros err Herr Hp Hlinked. rewrite Hr, Hp.
    cbn [answer store console set_visits visits].
    unfold SubmitRoute.link_visit. destruct by_phone.2 as [p|]; [|done].
    rewrite Hlinked, Herr. cbn [fst snd]. split; [|done].
    apply elem_of_app. right. by apply list_elem_of_singleton.
Qed.

(** Jane's submission on the example site, where nobody is on record: her
    visit is stored, and she is told that the submission failed. *)
Lemma provisioning_fails_submission_witness :
  let r := SubmitRoute.POST (Demo.submit_env "t0" "v1") Demo.jane Demo.site in
  answer r = Response.mk 500 (Response.Error "Internal Server Error")
  ∧ visits (store r) = [Demo.jane_visit "checked_in" None None None "t0"]
  ∧ console r
    = ["Unexpected error in /api/visits/submit: "
         +:+ "ReferenceError: user is not defined"].
Proof.
  intros r.
  assert ("qr-abc" ≠ "") as Hid by discriminate.
  assert (SubmitRoute.new_visit_id (Demo.submit_env "t0" "v1")
          ∉ Visit.id <$> visits Demo.site)
    as Hfresh by (simpl; apply not_elem_of_nil).
  destruct (provisioning_fails_submission (Demo.submit_env "t0" "v1") "qr-abc"
              [("Full Name", "Jane"); ("Email", "jane@x.com")] Demo.site
              Demo.qr Demo.form Hid eq_refl eq_refl eq_refl eq_refl
              eq_refl eq_refl Hfresh) as (_ & _ & Hthrown & _).
  exact (Hthrown eq_refl).
Defined.

(** ** Identity resolution *)

Lemma find_by_email_hit (env : SubmitRoute.Env) (e : string) (p : Profile.t)
  (ps : list Profile.t) :
  e ≠ "" → SubmitRoute.email_fault env = None →
  Pg.eq_ncol Profile.email e ps = [p] →
  SubmitRoute.find_by_email env (Some e) ps = ([], Some (Profile.id p)).
Proof.
  intros He Hfault Hrows. unfold SubmitRoute.find_by_email.
  by rewrite (truthy_nonempty _ He), Hfault, Hrows.
Qed.

Lemma find_by_phone_linked (env : SubmitRoute.Env) (id : string)
  (visitorPhone : option string) (ps : list Profile.t) :
  id ≠ "" →
  SubmitRoute.find_by_phone env (Some id) visitorPhone ps = ([], Some id).
Proof.
  intros Hid. unfold SubmitRoute.find_by_phone.
  rewrite (truthy_nonempty _ Hid). by destruct visitorPhone.
Qed.

Lemma find_by_phone_hit (env : SubmitRoute.Env) (ph : string) (p : Profile.t)
  (ps : list Profile.t) :
  ph ≠ "" → SubmitRoute.phone_fault env = None →
  Pg.eq_ncol Profile.phone_number ph ps = [p] →
  SubmitRoute.find_by_phone env None (Some ph) ps
  = ([], Some (Profile.id p)).
Proof.
  intros Hph Hfault Hrows. unfold SubmitRoute.find_by_phone.
  by rewrite (truthy_nonempty _ Hph), Hfault, Hrows.
Qed.

Lemma create_visitor_linked (id : string) (name email idn : option string) :
  id ≠ "" →
  SubmitRoute.create_visitor (Some id) name email idn = inr (Some id).
Proof.
  intros Hid. unfold SubmitRoute.create_visitor.
  by rewrite (truthy_nonempty _ Hid).
Qed.

(** No submission adds, changes or removes a profile. *)
Lemma submit_keeps_profiles (env : SubmitRoute.Env)
  (req : SubmitRoute.Request) (st : Store) :
  profiles (store (SubmitRoute.POST env req st)) = profiles st.
Proof. unfold SubmitRoute.POST. by repeat case_match. Qed.

(** The email comes first: a profile found by email is the answer, the
    phone number is not looked up and nothing is provisioned. *)
Lemma resolve_by_email (env : SubmitRoute.Env) (nfd : Js.object)
  (ps : list Profile.t) (e : string) (p : Profile.t) :
  Js.get "email" nfd = Some e → e ≠ "" →
  SubmitRoute.email_fault env = None →
  Pg.eq_ncol Profile.email e ps = [p] → Profile.id p ≠ "" →
  SubmitRoute.resolve_visitor env nfd ps = ([], inr (Some (Profile.id p))).
Proof.
  intros Hget He Hfault Hrows Hid. unfold SubmitRoute.resolve_visitor.
  rewrite Hget, (find_by_email_hit env e p) by done. cbn [fst snd].
  rewrite find_by_phone_linked by done. cbn [fst snd].
  by rewrite create_visitor_linked.
Qed.

(** The phone number comes second: when the email gave no profile, a
    profile found by phone is the answer and nothing is provisioned. *)
Lemma resolve_by_phone (env : SubmitRoute.Env) (nfd : Js.object)
  (ps : list Profile.t) (ph : string) (p : Profile.t) :
  (SubmitRoute.find_by_email env (Js.get "email" nfd) ps).2 = None →
  Js.or (Js.get "phone_number" nfd) (Js.get "phone" nfd) = Some ph →
  ph ≠ "" → SubmitRoute.phone_fault env = None →
  Pg.eq_ncol Profile.phone_number ph ps = [p] → Profile.id p ≠ "" →
  (SubmitRoute.resolve_visitor env nfd ps).2 = inr (Some (Profile.id p)).
Proof.
  intros Hemail Hphone Hph Hfault Hrows Hid.
  unfold SubmitRoute.resolve_visitor. cbn [fst snd].
  rewrite Hemail, Hphone, (find_by_phone_hit env ph p) by done. cbn [fst snd].
  by rewrite create_visitor_linked.
Qed.

(** The store and the linked visit of an accepted submission whose email is
    on record. *)
Lemma submit_email_on_record (env : SubmitRoute.Env)
  (req : SubmitRoute.Request) (fd : Js.object) (st : Store) (e : string)
  (p : Profile.t) :
  SubmitRoute.formData req = Some fd →
  Js.get "email" (SubmitRoute.normalize fd) = Some e → e ≠ "" →
  Pg.eq_ncol Profile.email e (profiles st) = [p] → Profile.id p ≠ "" →
  SubmitRoute.email_fault env = None → SubmitRoute.link_fault env = None →
  Response.status (answer (SubmitRoute.POST env req st)) = 201 →
  ∃ v, Visit.id v = SubmitRoute.new_visit_id env
    ∧ Visit.visitor_id v = Some (Profile.id p)
    ∧ profiles (store (SubmitRoute.POST env req st)) = profiles st
    ∧ visits (store (SubmitRoute.POST env req st)) = visits st ++ [v].
Proof.
  intros Hfd Hget He Hrows Hid Hemail Hlink Hok.
  apply submit_created in Hok
    as (qr_id & fd' & qr & form & _ & Hfd' & _ & _ & _ & _ & _ & Hfresh
        & linked & Hfound & ->).
  assert (fd' = fd) as -> by congruence.
  rewrite (resolve_by_email env _ _ e p) in Hfound by done.
  injection Hfound as <-.
  unfold set_visits. cbn [store visits profiles fst snd].
  rewrite (link_visit_linked env (Profile.id p)
             (SubmitRoute.new_visit env qr form fd)) by done.
  by exists (Visit.with_visitor (Profile.id p) (SubmitRoute.now env)
               (SubmitRoute.new_visit env qr form fd)).
Qed.

(** C7, as stated, fails: on the example site with Ann and Bob on record,
    two submissions carry the same email, which no profile has, and the
    phone numbers of Ann and of Bob.  Both are accepted; the first visit is
    linked to Ann and the second to Bob. *)
Lemma same_email_two_identities :
  let r1 :=
    SubmitRoute.POST (Demo.submit_env "t0" "v1")
      (Demo.contact "jane@x.com" "111") Demo.site_with_visitors in
  let r2 :=
    SubmitRoute.POST (Demo.submit_env "t1" "v2")
      (Demo.contact "jane@x.com" "222") (store r1) in
  Response.status (answer r1) = 201
  ∧ Response.status (answer r2) = 201
  ∧ (λ v, (Visit.id v, Visit.visitor_id v)) <$> visits (store r2)
    = [("v1", Some "a"); ("v2", Some "b")].
Proof. repeat split; reflexivity. Qed.

(** C7, amended.  Resolution is a function of the submission and the
    profiles, it looks up the email first, the phone number second and
    turns to provisioning last, and no submission leaves more profiles
    than it found.  Two accepted submissions with the same email are linked
    to the same identity when exactly one profile on record has that email
    and the email lookups and link updates go through; no profile is added
    then. *)
Theorem same_email_on_record_same_identity
  (env1 env2 : SubmitRoute.Env) (req1 req2 : SubmitRoute.Request)
  (fd1 fd2 : Js.object) (st : Store) (e : string) (p : Profile.t) :
  SubmitRoute.formData req1 = Some fd1 →
  SubmitRoute.formData req2 = Some fd2 →
  Js.get "email" (SubmitRoute.normalize fd1) = Some e →
  Js.get "email" (SubmitRoute.normalize fd2) = Some e →
  e ≠ "" →
  Pg.eq_ncol Profile.email e (profiles st) = [p] → Profile.id p ≠ "" →
  SubmitRoute.email_fault env1 = None → SubmitRoute.email_fault env2 = None →
  SubmitRoute.link_fault env1 = None → SubmitRoute.link_fault env2 = None →
  let r1 := SubmitRoute.POST env1 req1 st in
  let r2 := SubmitRoute.POST env2 req2 (store r1) in
  Response.status (answer r1) = 201 →
  Response.status (answer r2) = 201 →
  (∃ v1 v2, visits (store r2) = visits st ++ [v1; v2]
     ∧ Visit.id v1 = SubmitRoute.new_visit_id env1
     ∧ Visit.id v2 = SubmitRoute.new_visit_id env2
     ∧ Visit.visitor_id v1 = Some (Profile.id p)
     ∧ Visit.visitor_id v2 = Some (Profile.id p))
  ∧ profiles (store r2) = profiles st
  ∧ SubmitRoute.resolve_visitor env1 (SubmitRoute.normalize fd1) (profiles st)
    = ([], inr (Some (Profile.id p)))
  ∧ (∀ env nfd ps ph q,
       (SubmitRoute.find_by_email env (Js.get "email" nfd) ps).2 = None →
       Js.or (Js.get "phone_number" nfd) (Js.get "phone" nfd) = Some ph →
       ph ≠ "" → SubmitRoute.phone_fault env = None →
       Pg.eq_ncol Profile.phone_number ph ps = [q] → Profile.id q ≠ "" →
       (SubmitRoute.resolve_visitor env nfd ps).2 = inr (Some (Profile.id q)))
  ∧ (∀ env req st',
       profiles (store (SubmitRoute.POST env req st')) = profiles st').
Proof.
  intros Hfd1 Hfd2 Hget1 Hget2 He Hrows Hid Hem1 Hem2 Hl1 Hl2 r1 r2 Hok1 Hok2.
  destruct (submit_email_on_record env1 req1 fd1 st e p)
    as (v1 & Hv1 & Hp1 & Hps1 & Hvs1); try done.
  fold r1 in Hps1, Hvs1.
  destruct (submit_email_on_record env2 req2 fd2 (store r1) e p)
    as (v2 & Hv2 & Hp2 & Hps2 & Hvs2); try done.
  { by rewrite Hps1. }
  fold r2 in Hps2, Hvs2.
  split; [|split; [|split; [|split]]].
  - exists v1, v2. rewrite Hvs2, Hvs1, <- app_assoc. done.
  - by rewrite Hps2.
  - by apply (resolve_by_email env1 _ _ e p).
  - intros env nfd ps ph q. apply resolve_by_phone.
  - intros env req st'. apply submit_keeps_profiles.
Qed.

(** With Jane on record under her email, two submissions with that email
    and different phone numbers are both linked to her profile. *)
Lemma same_email_on_record_same_identity_witness :
  let r1 :=
    SubmitRoute.POST (Demo.submit_env "t0" "v1")
      (Demo.contact "jane@x.com" "111") Demo.site_with_jane in
  let r2 :=
    SubmitRoute.POST (Demo.submit_env "t1" "v2")
      (Demo.contact "jane@x.com" "222") (store r1) in
  ∃ v1 v2, visits (store r2) = visits Demo.site_with_jane ++ [v1; v2]
    ∧ Visit.id v1 = "v1" ∧ Visit.id v2 = "v2"
    ∧ Visit.visitor_id v1 = Some "j" ∧ Visit.visitor_id v2 = Some "j".
Proof.
  intros r1 r2.
  assert ("jane@x.com" ≠ "") as He by discriminate.
  assert (Profile.id Demo.jane_profile ≠ "") as Hid by discriminate.
  exact (proj1 (same_email_on_record_same_identity
                  (Demo.submit_env "t0" "v1")
                  (Demo.submit_env "t1" "v2")
                  (Demo.contact "jane@x.com" "111")
                  (Demo.contact "jane@x.com" "222")
                  [("Email", "jane@x.com"); ("Phone Number", "111")]
                  [("Email", "jane@x.com"); ("Phone Number", "222")]
                  Demo.site_with_jane "jane@x.com" Demo.jane_profile
                  eq_refl eq_refl eq_refl eq_refl He eq_refl Hid
                  eq_refl eq_refl eq_refl eq_refl eq_refl eq_refl)).
Defined.

(** * Further properties of the handlers *)

(** ** Failure, frame and keys *)

(** X1: an operation that is not answered with a success leaves every table
    as it was (the deny and checkout routes answering anything but 200, the
    two page handlers ending with anything but a message, the submit route
    answering anything but 201), with one exception: a submission stopped
    by the exception of its provisioning step is answered 500 "Internal
    Server Error" while the visit row it inserted stays in the table. *)
Theorem failure_leaves_store (op : Op) (st : Store) :
  ¬ succeeds op st →
  apply op st = st
  ∨ ∃ env req fd qr form,
      op = Submit env req
      ∧ SubmitRoute.formData req = Some fd
      ∧ answer (SubmitRoute.POST env req st)
        = Response.mk 500 (Response.Error "Internal Server Error")
      ∧ apply op st
        = set_visits (visits st ++ [SubmitRoute.new_visit env qr form fd]) st.
Proof.
  destruct op as [env req|env visitId|env prompted visitId|env visitId
                 |env visitId]; simpl; intros Hfail.
  - destruct (submit_not_created env req st Hfail)
      as [Hsame|(fd & qr & form & Hfd & _ & _ & Hans & Hst)]; [by left|].
    right. by exists env, req, fd, qr, form.
  - left. unfold ManageVisitsPage.handleApprove in *.
    repeat case_match; simpl in *; try done.
    exfalso. apply Hfail. by eexists.
  - left. unfold ManageVisitsPage.handleDeny in *.
    repeat case_match; simpl in *; try done.
    exfalso. apply Hfail. by eexists.
  - left. unfold DenyRoute.POST in *. repeat case_match; simpl in *; done.
  - left. unfold CheckoutRoute.POST in *. repeat case_match; simpl in *; done.
Qed.

(** A checkout by a visitor who is not signed in. *)
Lemma failure_leaves_store_witness :
  apply (Checkout (CheckoutRoute.mkEnv "t1" (OwnerRoute.mkAuth None None)
                     None None) "v1")
    (Demo.with_visit (Demo.jane_visit "approved" None None None "t0"))
  = Demo.with_visit (Demo.jane_visit "approved" None None None "t0").
Proof.
  destruct (failure_leaves_store
              (Checkout (CheckoutRoute.mkEnv "t1" (OwnerRoute.mkAuth None None)
                           None None) "v1")
              (Demo.with_visit
                 (Demo.jane_visit "approved" None None None "t0")))
    as [Hsame|(env & req & fd & qr & form & Hop & _)].
  - simpl. discriminate.
  - exact Hsame.
  - discriminate Hop.
Defined.

Lemma evolves_refl (v : Visit.t) : evolves v v.
Proof. by repeat split. Qed.

Lemma evolves_trans (v1 v2 v3 : Visit.t) :
  evolves v1 v2 → evolves v2 v3 → evolves v1 v3.
Proof.
  unfold evolves. intros (?&?&?&?&?&?&?&?&?) (?&?&?&?&?&?&?&?&?).
  repeat split; try congruence; auto.
Qed.

Lemma evolves_status (s now : string) (v : Visit.t) :
  evolves v (Visit.with_status s now v).
Proof. by repeat split. Qed.

Lemma evolves_denial (reason now : string) (v : Visit.t) :
  evolves v (Visit.with_denial reason now v).
Proof. repeat split; try done; try (intros _; by eexists). Qed.

Lemma evolves_checkout (now : string) (v : Visit.t) :
  evolves v (Visit.with_checkout now v).
Proof. repeat split; try done; try (intros _; by eexists). Qed.

(** The three ways an operation leaves the visits: as they were, with one
    row with a new key appended, or rewritten in place by one update. *)
Lemma visits_after (op : Op) (st : Store) :
  visits (apply op st) = visits st
  ∨ (∃ row, visits (apply op st) = visits st ++ [row]
       ∧ Visit.id row ∉ Visit.id <$> visits st)
  ∨ (∃ (P : Visit.t → Prop) (HP : ∀ r, Decision (P r)) (f : Visit.t → Visit.t),
       visits (apply op st) = Pg.update P f (visits st)
       ∧ ∀ v, evolves v (f v)).
Proof.
  destruct op as [env req|env visitId|env prompted visitId|env visitId
                 |env visitId]; simpl.
  - destruct (decide (Response.status (answer (SubmitRoute.POST env req st))
                      = 201)) as [Hok|Hno].
    + right. left.
      apply submit_created in Hok
        as (qr_id & fd & qr & form & _ & _ & _ & _ & _ & _ & _ & Hfresh
            & linked & _ & ->).
      unfold set_visits. cbn [store visits].
      destruct (link_visit_new_row env linked
                  (SubmitRoute.new_visit env qr form fd) (visits st) Hfresh)
        as (row' & Hrow & Hcases).
      cbn [SubmitRoute.new_visit Visit.id] in Hrow. rewrite Hrow.
      exists row'. split; [done|].
      by destruct Hcases as [->|(p & _ & ->)].
    + destruct (submit_not_created env req st Hno)
        as [->|(fd & qr & form & _ & Hfresh & _ & _ & ->)]; [by left|].
      right. left. by eexists.
  - unfold ManageVisitsPage.handleApprove.
    repeat case_match; simpl; try by left.
    right. right. eexists _, _, _. split; [done|]. apply evolves_status.
  - unfold ManageVisitsPage.handleDeny.
    repeat case_match; simpl; try by left.
    right. right. eexists _, _, _. split; [done|]. apply evolves_denial.
  - unfold DenyRoute.POST. repeat case_match; simpl; try by left.
    match goal with H : OwnerRoute.update_single _ _ _ _ = inr _ |- _ =>
      apply update_single_inv in H as (_ & -> & _) end.
    right. right. eexists _, _, _. split; [done|]. apply evolves_status.
  - unfold CheckoutRoute.POST. repeat case_match; simpl; try by left.
    match goal with H : OwnerRoute.update_single _ _ _ _ = inr _ |- _ =>
      apply update_single_inv in H as (_ & -> & _) end.
    right. right. eexists _, _, _. split; [done|]. apply evolves_checkout.
Qed.

Lemma update_lookup {A} (P : A → Prop) `{∀ r, Decision (P r)} (f : A → A)
  (rows : list A) (i : nat) (r : A) :
  rows !! i = Some r →
  Pg.update P f rows !! i = Some (if decide (P r) then f r else r).
Proof. intros Hr. unfold Pg.update. by rewrite list_lookup_fmap, Hr. Qed.

Lemma update_ids (P : Visit.t → Prop) `{∀ r, Decision (P r)}
  (f : Visit.t → Visit.t) (vs : list Visit.t) :
  (∀ v, evolves v (f v)) →
  Visit.id <$> Pg.update P f vs = Visit.id <$> vs.
Proof.
  intros Hf. unfold Pg.update. rewrite <- list_fmap_compose.
  apply list_fmap_ext. intros _ v _. simpl.
  destruct (decide (P v)); [|done]. apply (Hf v).
Qed.

Lemma step_evolves (op : Op) (st : Store) (i : nat) (v : Visit.t) :
  visits st !! i = Some v →
  ∃ v', visits (apply op st) !! i = Some v' ∧ evolves v v'.
Proof.
  intros Hv.
  destruct (visits_after op st)
    as [->|[(row & -> & _)|(P & HP & f & -> & Hf)]].
  - exists v. split; [done|apply evolves_refl].
  - exists v. split; [|apply evolves_refl].
    by apply lookup_app_l_Some.
  - eexists. split; [by apply update_lookup|].
    destruct (decide (P v)); [apply Hf|apply evolves_refl].
Qed.

(** X2: no sequence of operations removes or moves a visit, and none changes
    what was submitted: the visit at a position of the table stays at that
    position with the same id, premise, form, QR code, visitor, form data
    and check-in time, and a check-out time or denial reason that is set
    stays set. *)
Theorem visits_are_kept (ops : list Op) (st : Store) (i : nat) (v : Visit.t) :
  visits st !! i = Some v →
  ∃ v', visits (run ops st) !! i = Some v' ∧ evolves v v'.
Proof.
  revert st v. induction ops as [|op ops IH]; intros st v Hv; simpl.
  - exists v. split; [done|apply evolves_refl].
  - destruct (step_evolves op st i v Hv) as (v1 & Hv1 & He1).
    destruct (IH _ _ Hv1) as (v2 & Hv2 & He2).
    exists v2. split; [done|]. by eapply evolves_trans.
Qed.

(** Jane's visit after an approval, a checkout and a denial by route. *)
Lemma visits_are_kept_witness :
  ∃ v', visits
          (run [Approve (Demo.owner_page "t1") "v1";
                Checkout (Demo.owner_checkout "t2") "v1";
                DenyByRoute (Demo.owner_deny "t3") "v1"]
             (Demo.with_visit
                (Demo.jane_visit "checked_in" None None None "t0"))) !! 0
        = Some v'
    ∧ evolves (Demo.jane_visit "checked_in" None None None "t0") v'.
Proof.
  apply visits_are_kept. reflexivity.
Defined.

Lemma step_ids_NoDup (op : Op) (st : Store) :
  NoDup (Visit.id <$> visits st) →
  NoDup (Visit.id <$> visits (apply op st)).
Proof.
  intros Hst.
  destruct (visits_after op st)
    as [->|[(row & -> & Hfresh)|(P & HP & f & -> & Hf)]].
  - done.
  - rewrite fmap_app. apply NoDup_app. split; [done|]. split.
    + intros x Hx ->%list_elem_of_singleton. done.
    + apply NoDup_singleton.
  - by rewrite update_ids.
Qed.

(** X3: [id] is a key of the visits: in every store the operations can
    reach, no two visits carry the same id. *)
Theorem reachable_ids_unique (st : Store) :
  reachable st → NoDup (Visit.id <$> visits st).
Proof.
  induction 1 as [st Hempty|op st _ IH].
  - rewrite Hempty. constructor.
  - by apply step_ids_NoDup.
Qed.

(** The example site after Jane's submission. *)
Lemma reachable_ids_unique_witness :
  NoDup (Visit.id
         <$> visits (run [Submit (Demo.submit_env "t0" "v1") Demo.jane]
                       Demo.site)).
Proof.
  apply reachable_ids_unique. apply reachable_run. apply reachable_init.
  reflexivity.
Defined.

(** ** Who may change a visit through the routes *)

Lemma fetch_visit_inv (fault : option PgError.t) (visitId : string)
  (st : Store) (v : Visit.t) :
  Pg.call fault (Pg.single (Pg.eq_col Visit.id visitId (visits st))) = inr v →
  fault = None ∧ visits_with_id visitId st = [v].
Proof.
  unfold Pg.call. destruct fault; [done|].
  intros Hs%single_inv. done.
Qed.

(** X4: the deny route and the checkout route change the store only for a
    caller who is signed in as the owner of the premise of the addressed
    visit; the checkout route moreover only for a visit that is approved. *)
Theorem routes_change_only_for_owner
  (denv : DenyRoute.Env) (cenv : CheckoutRoute.Env) (visitId : string)
  (st : Store) :
  (store (DenyRoute.POST denv visitId st) ≠ st →
     ∃ uid, signed_in (DenyRoute.auth denv) uid ∧ owns_visit uid visitId st)
  ∧ (store (CheckoutRoute.POST cenv visitId st) ≠ st →
     ∃ uid, signed_in (CheckoutRoute.auth cenv) uid
       ∧ owns_visit uid visitId st
       ∧ ∃ v, visits_with_id visitId st = [v]
           ∧ Visit.status v = Some "approved").
Proof.
  split.
  - unfold DenyRoute.POST.
    destruct (negb (Js.truthy (Some visitId))); [done|].
    destruct (OwnerRoute.sessionError (DenyRoute.auth denv)) eqn:He; [done|].
    destruct (OwnerRoute.session (DenyRoute.auth denv)) as [uid|] eqn:Hs;
      [|done].
    destruct (Pg.call _ _) as [e|v] eqn:Hfetch; [by case_bool_decide|].
    apply fetch_visit_inv in Hfetch as [_ Hv].
    destruct (OwnerRoute.embedded_premise st v) as [p|] eqn:Hp; [|done].
    case_bool_decide as Hown; [done|].
    intros _. exists uid. split; [done|]. by exists v, p.
  - unfold CheckoutRoute.POST.
    destruct (negb (Js.truthy (Some visitId))); [done|].
    destruct (OwnerRoute.sessionError (CheckoutRoute.auth cenv)) eqn:He;
      [done|].
    destruct (OwnerRoute.session (CheckoutRoute.auth cenv)) as [uid|] eqn:Hs;
      [|done].
    destruct (Pg.call _ _) as [e|v] eqn:Hfetch; [by case_bool_decide|].
    apply fetch_visit_inv in Hfetch as [_ Hv].
    destruct (OwnerRoute.embedded_premise st v) as [p|] eqn:Hp; [|done].
    case_bool_decide as Hown; [done|].
    case_bool_decide as Hout; [done|].
    case_bool_decide as Happ; [done|].
    intros _. exists uid. split; [done|]. split; [by exists v, p|].
    by exists v.
Qed.

(** The owner of the example site denies Jane's visit by route. *)
Lemma routes_change_only_for_owner_witness :
  ∃ uid, signed_in Demo.owner_auth uid
    ∧ owns_visit uid "v1"
        (Demo.with_visit (Demo.jane_visit "checked_in" None None None "t0")).
Proof.
  apply (proj1 (routes_change_only_for_owner (Demo.owner_deny "t1")
                  (Demo.owner_checkout "t1") "v1"
                  (Demo.with_visit
                     (Demo.jane_visit "checked_in" None None None "t0")))).
  discriminate.
Defined.

(** X5: the answers of the two routes to a caller who may not act.  Without
    a session (or with a session error) both answer 401; signed in, for an
    id that no visit or several visits carry, both answer 404; signed in,
    for a visit whose premise is missing or owned by someone else, both
    answer 403.  The store is untouched in each case. *)
Theorem routes_refuse_strangers
  (denv : DenyRoute.Env) (cenv : CheckoutRoute.Env) (visitId : string)
  (st : Store) :
  visitId ≠ "" →
  let rd := DenyRoute.POST denv visitId st in
  let rc := CheckoutRoute.POST cenv visitId st in
  ((∀ uid, ¬ signed_in (DenyRoute.auth denv) uid) →
     Response.status (answer rd) = 401 ∧ store rd = st)
  ∧ ((∀ uid, ¬ signed_in (CheckoutRoute.auth cenv) uid) →
     Response.status (answer rc) = 401 ∧ store rc = st)
  ∧ (∀ uid, signed_in (DenyRoute.auth denv) uid →
       DenyRoute.fetch_fault denv = None →
       (∀ v, visits_with_id visitId st ≠ [v]) →
       Response.status (answer rd) = 404 ∧ store rd = st)
  ∧ (∀ uid, signed_in (CheckoutRoute.auth cenv) uid →
       CheckoutRoute.fetch_fault cenv = None →
       (∀ v, visits_with_id visitId st ≠ [v]) →
       Response.status (answer rc) = 404 ∧ store rc = st)
  ∧ (∀ uid v, signed_in (DenyRoute.auth denv) uid →
       DenyRoute.fetch_fault denv = None →
       visits_with_id visitId st = [v] → ¬ owns_visit uid visitId st →
       Response.status (answer rd) = 403 ∧ store rd = st)
  ∧ (∀ uid v, signed_in (CheckoutRoute.auth cenv) uid →
       CheckoutRoute.fetch_fault cenv = None →
       visits_with_id visitId st = [v] → ¬ owns_visit uid visitId st →
       Response.status (answer rc) = 403 ∧ store rc = st).
Proof.
  intros Hid rd rc. subst rd rc.
  unfold DenyRoute.POST, CheckoutRoute.POST, signed_in, owns_visit,
    visits_with_id.
  rewrite (truthy_nonempty _ Hid). cbn [negb].
  split; [|split; [|split; [|split; [|split]]]].
  - intros Hno.
    destruct (OwnerRoute.sessionError _); [done|].
    destruct (OwnerRoute.session _) as [uid|]; [|done].
    by destruct (Hno uid).
  - intros Hno.
    destruct (OwnerRoute.sessionError _); [done|].
    destruct (OwnerRoute.session _) as [uid|]; [|done].
    by destruct (Hno uid).
  - intros uid [-> ->] -> Hnone. cbn [Pg.call].
    destruct (Pg.single _) as [e|v] eqn:Hs.
    + destruct (Pg.eq_col Visit.id visitId (visits st)) as [|v [|w l]];
        simpl in Hs; try done; by injection Hs as <-.
    + apply single_inv in Hs. by destruct (Hnone v).
  - intros uid [-> ->] -> Hnone. cbn [Pg.call].
    destruct (Pg.single _) as [e|v] eqn:Hs.
    + destruct (Pg.eq_col Visit.id visitId (visits st)) as [|v [|w l]];
        simpl in Hs; try done; by injection Hs as <-.
    + apply single_inv in Hs. by destruct (Hnone v).
  - intros uid v [-> ->] -> Hv Hnot. rewrite Hv. cbn [Pg.call Pg.single].
    destruct (OwnerRoute.embedded_premise st v) as [p|] eqn:Hp; [|done].
    case_bool_decide as Hown; [done|].
    exfalso. apply Hnot. by exists v, p.
  - intros uid v [-> ->] -> Hv Hnot. rewrite Hv. cbn [Pg.call Pg.single].
    destruct (OwnerRoute.embedded_premise st v) as [p|] eqn:Hp; [|done].
    case_bool_decide as Hown; [done|].
    exfalso. apply Hnot. by exists v, p.
Qed.

(** Somebody else, signed in, tries to check Jane out of the example site. *)
Lemma routes_refuse_strangers_witness :
  let st := Demo.with_visit (Demo.jane_visit "approved" None None None "t1") in
  let mallory :=
    CheckoutRoute.mkEnv "t2" (OwnerRoute.mkAuth (Some "mallory") None)
      None None in
  Response.status (answer (CheckoutRoute.POST mallory "v1" st)) = 403
  ∧ store (CheckoutRoute.POST mallory "v1" st) = st.
Proof.
  intros st mallory.
  assert ("v1" ≠ "") as Hid by discriminate.
  destruct (routes_refuse_strangers (Demo.owner_deny "t2") mallory "v1" st Hid)
    as (_ & _ & _ & _ & _ & Hforbidden).
  apply (Hforbidden "mallory"
           (Demo.jane_visit "approved" None None None "t1")).
  - split; reflexivity.
  - reflexivity.
  - reflexivity.
  - intros (v & p & Hv & Hp & Hown).
    injection Hv as <-. injection Hp as <-. discriminate Hown.
Defined.

(** ** The other tables *)

Lemma step_tables (op : Op) (st : Store) :
  premises (apply op st) = premises st
  ∧ forms (apply op st) = forms st
  ∧ qrcodes (apply op st) = qrcodes st
  ∧ profiles (apply op st) = profiles st.
Proof.
  destruct op as [env req|env visitId|env prompted visitId|env visitId
                 |env visitId]; simpl in *.
  - unfold SubmitRoute.POST. repeat case_match; simpl; done.
  - unfold ManageVisitsPage.handleApprove.
    repeat case_match; simpl; done.
  - unfold ManageVisitsPage.handleDeny.
    repeat case_match; simpl; done.
  - unfold DenyRoute.POST. repeat case_match; simpl; done.
  - unfold CheckoutRoute.POST. repeat case_match; simpl; done.
Qed.

(** X6: no sequence of operations creates, changes or deletes a premise, a
    form, a QR code or a profile: the four tables stay as they were (the
    one insert into the profiles, in the provisioning step of the submit
    route, is never reached). *)
Theorem other_tables_are_kept (ops : list Op) (st : Store) :
  premises (run ops st) = premises st
  ∧ forms (run ops st) = forms st
  ∧ qrcodes (run ops st) = qrcodes st
  ∧ profiles (run ops st) = profiles st.
Proof.
  revert st. induction ops as [|op ops IH]; intros st; simpl; [done|].
  destruct (IH (apply op st)) as (-> & -> & -> & ->).
  apply step_tables.
Qed.

(** ** A visit from submission to checkout *)

(** The checkout route past its three gates. *)
Lemma checkout_authorized (env : CheckoutRoute.Env) (visitId uid : string)
  (st : Store) (v : Visit.t) :
  visitId ≠ "" → signed_in (CheckoutRoute.auth env) uid →
  CheckoutRoute.fetch_fault env = None →
  visits_with_id visitId st = [v] →
  (∃ p, OwnerRoute.embedded_premise st v = Some p
        ∧ Premise.owner_id p = Some uid) →
  CheckoutRoute.POST env visitId st
  = if bool_decide (Visit.status v = Some "checked_out") then
      mkRun st []
        (Response.mk 400 (Response.Error "Visitor already checked out."))
    else if bool_decide (Visit.status v ≠ Some "approved") then
      mkRun st []
        (Response.mk 400 (Response.Error "Visitor not approved yet."))
    else
      match CheckoutRoute.update_fault env with
      | Some e =>
          mkRun st
            ["Error updating visit status to checked_out: "
               +:+ PgError.message e]
            (Response.mk 500 (Response.Error "Failed to check out visitor."))
      | None =>
          mkRun
            (set_visits
               (Pg.update (λ w, Visit.id w = visitId)
                  (Visit.with_checkout (CheckoutRoute.now env)) (visits st))
               st)
            []
            (Response.mk 200
               (Response.Visit "Visitor checked out successfully"
                  (Visit.with_checkout (CheckoutRoute.now env) v)))
      end.
Proof.
  intros Hid [Herr Hsess] Hfetch Hv (p & Hp & Hown).
  unfold CheckoutRoute.POST, visits_with_id in *.
  rewrite (truthy_nonempty _ Hid), Herr, Hsess, Hfetch, Hv. cbn.
  rewrite Hp, Hown.
  rewrite bool_decide_eq_false_2 by (intros Hne; by apply Hne).
  repeat case_bool_decide; try done.
  unfold OwnerRoute.update_single, Pg.updated.
  unfold Pg.eq_col in Hv. rewrite Hv.
  by destruct (CheckoutRoute.update_fault env).
Qed.

Lemma embedded_premise_same (st st' : Store) (v v' : Visit.t) :
  premises st' = premises st → Visit.premise_id v' = Visit.premise_id v →
  OwnerRoute.embedded_premise st' v' = OwnerRoute.embedded_premise st v.
Proof. unfold OwnerRoute.embedded_premise. by intros -> ->. Qed.

(** X7: a visit is checked out once.  After a checkout that went through, a
    second checkout of the same visit by the owner is answered 400 "Visitor
    already checked out." and changes nothing, so the visit keeps the
    check-out time of the first. *)
Theorem second_checkout_is_refused
  (env1 env2 : CheckoutRoute.Env) (visitId uid : string) (st : Store)
  (v : Visit.t) (p : Premise.t) :
  visitId ≠ "" →
  signed_in (CheckoutRoute.auth env1) uid →
  signed_in (CheckoutRoute.auth env2) uid →
  CheckoutRoute.fetch_fault env1 = None →
  CheckoutRoute.fetch_fault env2 = None →
  CheckoutRoute.update_fault env1 = None →
  visits_with_id visitId st = [v] →
  OwnerRoute.embedded_premise st v = Some p →
  Premise.owner_id p = Some uid →
  Visit.status v = Some "approved" →
  let r1 := CheckoutRoute.POST env1 visitId st in
  let r2 := CheckoutRoute.POST env2 visitId (store r1) in
  Response.status (answer r1) = 200
  ∧ answer r2
    = Response.mk 400 (Response.Error "Visitor already checked out.")
  ∧ store r2 = store r1
  ∧ visits_with_id visitId (store r2)
    = [Visit.with_checkout (CheckoutRoute.now env1) v].
Proof.
  intros Hid Hs1 Hs2 Hf1 Hf2 Hu1 Hv Hp Hown Hst r1 r2.
  assert (r1 = mkRun
            (set_visits
               (Pg.update (λ w, Visit.id w = visitId)
                  (Visit.with_checkout (CheckoutRoute.now env1)) (visits st))
               st)
            []
            (Response.mk 200
               (Response.Visit "Visitor checked out successfully"
                  (Visit.with_checkout (CheckoutRoute.now env1) v)))) as Hr1.
  { subst r1. rewrite (checkout_authorized env1 visitId uid st v); try done.
    - rewrite bool_decide_eq_false_2 by (rewrite Hst; discriminate).
      rewrite bool_decide_eq_false_2 by (intros Hne; by apply Hne).
      by rewrite Hu1.
    - by exists p. }
  assert (visits_with_id visitId (store r1)
          = [Visit.with_checkout (CheckoutRoute.now env1) v]) as Hv1.
  { rewrite Hr1. unfold visits_with_id, set_visits, Pg.eq_col in *.
    cbn [store visits]. rewrite filter_update by done. by rewrite Hv. }
  subst r2.
  rewrite (checkout_authorized env2 visitId uid (store r1)
             (Visit.with_checkout (CheckoutRoute.now env1) v)); try done.
  - rewrite bool_decide_eq_true_2 by done. cbn [answer store].
    rewrite Hr1 at 1. done.
  - exists p. split; [|done].
    rewrite (embedded_premise_same st (store r1) v); try done.
    by rewrite Hr1.
Qed.

(** Jane, approved on the example site, is checked out twice. *)
Lemma second_checkout_is_refused_witness :
  let st := Demo.with_visit (Demo.jane_visit "approved" None None None "t1") in
  let r1 := CheckoutRoute.POST (Demo.owner_checkout "t2") "v1" st in
  let r2 := CheckoutRoute.POST (Demo.owner_checkout "t3") "v1" (store r1) in
  answer r2 = Response.mk 400 (Response.Error "Visitor already checked out.")
  ∧ visits_with_id "v1" (store r2)
    = [Demo.jane_visit "checked_out" None (Some "t2") None "t2"].
Proof.
  intros st r1 r2.
  assert ("v1" ≠ "") as Hid by discriminate.
  destruct (second_checkout_is_refused (Demo.owner_checkout "t2")
              (Demo.owner_checkout "t3") "v1" "owner" st
              (Demo.jane_visit "approved" None None None "t1") Demo.premise
              Hid (conj eq_refl eq_refl) (conj eq_refl eq_refl) eq_refl
              eq_refl eq_refl eq_refl eq_refl eq_refl eq_refl)
    as (_ & Hans & _ & Hrow).
  split; [exact Hans|exact Hrow].
Defined.

(** The store an accepted submission leaves. *)
Lemma submit_new_row (env : SubmitRoute.Env) (req : SubmitRoute.Request)
  (st : Store) :
  Response.status (answer (SubmitRoute.POST env req st)) = 201 →
  ∃ qr_id fd qr row,
    SubmitRoute.qrIdentifier req = Some qr_id
    ∧ SubmitRoute.formData req = Some fd
    ∧ SubmitRoute.fetch_qr env qr_id st = inr qr
    ∧ (SubmitRoute.new_visit_id env ∉ Visit.id <$> visits st)
    ∧ visits (store (SubmitRoute.POST env req st)) = visits st ++ [row]
    ∧ premises (store (SubmitRoute.POST env req st)) = premises st
    ∧ Visit.id row = SubmitRoute.new_visit_id env
    ∧ Visit.premise_id row = QRCode.premise_id qr
    ∧ Visit.form_data row = Some fd
    ∧ Visit.status row = Some "checked_in"
    ∧ Visit.check_out_time row = None.
Proof.
  intros Hok.
  apply submit_created in Hok
    as (qr_id & fd & qr & form & Hq & Hfd & Hqr & _ & _ & _ & _ & Hfresh
        & linked & _ & ->).
  unfold set_visits. cbn [store visits premises].
  destruct (link_visit_new_row env linked
              (SubmitRoute.new_visit env qr form fd) (visits st) Hfresh)
    as (row' & Hrow & Hcases).
  cbn [SubmitRoute.new_visit Visit.id] in Hrow. rewrite Hrow.
  exists qr_id, fd, qr, row'. repeat split; try done;
    by destruct Hcases as [->|(p & _ & ->)].
Qed.

Lemma visits_with_new_id (visitId : string) (st : Store) (vs : list Visit.t)
  (row : Visit.t) :
  visits st = vs ++ [row] →
  visitId ∉ Visit.id <$> vs → Visit.id row = visitId →
  visits_with_id visitId st = [row].
Proof.
  intros Hvs Hfresh Hrow. unfold visits_with_id, Pg.eq_col. rewrite Hvs.
  rewrite filter_app, filter_cons_True, filter_nil by done.
  rewrite filter_none; [done|]. apply Forall_forall.
  intros v Hv Hid. apply Hfresh. apply list_elem_of_fmap. by exists v.
Qed.

(** X8: a visit that was just submitted cannot be checked out: the owner's
    checkout of the new visit is answered 400 "Visitor not approved yet."
    and changes nothing. *)
Theorem checkout_needs_approval
  (senv : SubmitRoute.Env) (req : SubmitRoute.Request)
  (cenv : CheckoutRoute.Env) (uid : string) (st : Store) :
  SubmitRoute.new_visit_id senv ≠ "" →
  Response.status (answer (SubmitRoute.POST senv req st)) = 201 →
  signed_in (CheckoutRoute.auth cenv) uid →
  CheckoutRoute.fetch_fault cenv = None →
  let st1 := store (SubmitRoute.POST senv req st) in
  owns_visit uid (SubmitRoute.new_visit_id senv) st1 →
  let r := CheckoutRoute.POST cenv (SubmitRoute.new_visit_id senv) st1 in
  answer r = Response.mk 400 (Response.Error "Visitor not approved yet.")
  ∧ store r = st1.
Proof.
  intros Hid Hok Hs Hf st1 (v & p & Hv & Hp & Hown) r.
  destruct (submit_new_row senv req st Hok)
    as (qr_id & fd & qr & row & _ & _ & _ & Hfresh & Hvs & _ & Hrid & _ & _
        & Hst & _).
  assert (v = row) as ->.
  { assert (visits_with_id (SubmitRoute.new_visit_id senv) st1 = [row]) as Hr
      by (by apply (visits_with_new_id _ _ (visits st))).
    congruence. }
  subst r.
  rewrite (checkout_authorized cenv _ uid st1 row); try done; [|by exists p].
  rewrite bool_decide_eq_false_2 by (rewrite Hst; discriminate).
  rewrite bool_decide_eq_true_2 by (rewrite Hst; discriminate).
  done.
Qed.

(** The visit of Jane, who is on record, right after her submission. *)
Lemma checkout_needs_approval_witness :
  answer
    (CheckoutRoute.POST (Demo.owner_checkout "t1") "v1"
       (store (SubmitRoute.POST (Demo.submit_env "t0" "v1") Demo.jane
                 Demo.site_with_jane)))
  = Response.mk 400 (Response.Error "Visitor not approved yet.").
Proof.
  assert ("v1" ≠ "") as Hid by discriminate.
  refine (proj1 (checkout_needs_approval (Demo.submit_env "t0" "v1")
                   Demo.jane (Demo.owner_checkout "t1") "owner"
                   Demo.site_with_jane
                   Hid eq_refl (conj eq_refl eq_refl) eq_refl _)).
  eexists _, Demo.premise. repeat split; reflexivity.
Defined.

(** X9: the intended order of submission, approval and checkout is never
    completed.  In every state the program reaches, the pages show no
    pending row, so that they offer no Approve and no Deny button; every
    visit has status [checked_in] or [denied] and carries neither a
    check-out time nor a denial reason; every request to the checkout route
    is answered with an error and changes nothing; and the admitted list of
    every premise is empty. *)
Theorem no_visit_is_ever_admitted (s : State) :
  page_reachable s →
  pending_rows s = []
  ∧ (∀ v, v ∈ visits (tables s) →
       (Visit.status v = Some "checked_in" ∨ Visit.status v = Some "denied")
       ∧ Visit.check_out_time v = None
       ∧ Visit.denial_reason v = None)
  ∧ (∀ env visitId,
       Response.status (answer (CheckoutRoute.POST env visitId (tables s)))
       ≠ 200
       ∧ store (CheckoutRoute.POST env visitId (tables s)) = tables s)
  ∧ (∀ premise, ManageVisitsView.admitted_query premise (tables s) = []).
Proof.
  intros Hs. apply page_reachable_undecided in Hs as [Hrows Hvisits].
  split; [done|]. split; [|split].
  - intros v Hv. rewrite Forall_forall in Hvisits. apply (Hvisits v Hv).
  - intros env visitId.
    destruct (checkout_undecided env visitId _ Hvisits) as [Hsame Hno].
    done.
  - intros premise. unfold ManageVisitsView.admitted_query.
    apply listing_nil. eapply Forall_impl; [exact Hvisits|].
    intros v ([Hst|Hst] & _ & _) (_ & Happ & _); congruence.
Qed.

(** The example site after Jane's submission: the owner cannot check her
    out. *)
Lemma no_visit_is_ever_admitted_witness :
  let s :=
    after (Submitted (Demo.submit_env "t0" "v1") Demo.jane)
      (mkState Demo.site []) in
  Response.status
    (answer (CheckoutRoute.POST (Demo.owner_checkout "t1") "v1" (tables s)))
  ≠ 200.
Proof.
  intros s.
  assert (page_reachable s) as Hs.
  { apply page_reachable_step; [|exact I]. by apply page_reachable_init. }
  destruct (no_visit_is_ever_admitted s Hs) as (_ & _ & Hcheckout & _).
  apply (Hcheckout (Demo.owner_checkout "t1") "v1").
Defined.

(** ** Normalized keys *)

Lemma lower_char_idem (c : ascii) :
  Js.lower_char (Js.lower_char c) = Js.lower_char c.
Proof. by destruct c as [[] [] [] [] [] [] [] []]. Qed.

Lemma lower_char_space (c : ascii) :
  Ascii.is_space (Js.lower_char c) = Ascii.is_space c.
Proof. by destruct c as [[] [] [] [] [] [] [] []]. Qed.

Lemma toLowerCase_idem (s : string) :
  Js.toLowerCase (Js.toLowerCase s) = Js.toLowerCase s.
Proof.
  induction s as [|c s IH]; simpl; [done|]. by rewrite lower_char_idem, IH.
Qed.

Lemma toLowerCase_replace_spaces (in_run : bool) (s : string) :
  Js.toLowerCase (Js.replace_spaces in_run s)
  = Js.replace_spaces in_run (Js.toLowerCase s).
Proof.
  revert in_run. induction s as [|c s IH]; intros in_run; simpl; [done|].
  rewrite lower_char_space.
  destruct (Ascii.is_space c); [destruct in_run|]; simpl; by rewrite IH.
Qed.

Lemma replace_spaces_no_space (in_run : bool) (s : string) :
  Js.all (λ c, negb (Ascii.is_space c)) (Js.replace_spaces in_run s) = true.
Proof.
  revert in_run. induction s as [|c s IH]; intros in_run; simpl; [done|].
  destruct (Ascii.is_space c) eqn:Hc.
  - destruct in_run; simpl; by rewrite ?IH.
  - simpl. by rewrite Hc, IH.
Qed.

Lemma replace_spaces_fixed (in_run : bool) (s : string) :
  Js.all (λ c, negb (Ascii.is_space c)) s = true →
  Js.replace_spaces in_run s = s.
Proof.
  revert in_run. induction s as [|c s IH]; intros in_run; simpl; [done|].
  intros [Hc Hs]%andb_true_iff. apply negb_true_iff in Hc.
  by rewrite Hc, IH.
Qed.

(** X10: normalizing a key twice gives what normalizing it once gives; a key
    that is already in normal form is left as it is. *)
Theorem normalize_key_idempotent (key : string) :
  SubmitRoute.normalize_key (SubmitRoute.normalize_key key)
  = SubmitRoute.normalize_key key.
Proof.
  unfold SubmitRoute.normalize_key.
  rewrite toLowerCase_replace_spaces, toLowerCase_idem.
  apply replace_spaces_fixed, replace_spaces_no_space.
Qed.

Lemma get_set (k k' v : string) (o : Js.object) :
  Js.get k (Js.set k' v o) = if bool_decide (k' = k) then Some v else Js.get k o.
Proof.
  induction o as [|[k0 v0] o IH]; simpl.
  - by case_bool_decide.
  - destruct (bool_decide (k0 = k')) eqn:H0; simpl.
    + apply bool_decide_eq_true in H0 as ->.
      repeat case_bool_decide; simplify_eq; done.
    + apply bool_decide_eq_false in H0. rewrite IH.
      repeat case_bool_decide; simplify_eq; done.
Qed.

Lemma normalize_get_from (k : string) (fd : list (string * string))
  (acc : Js.object) :
  Js.get k
    (foldl (λ acc kv, Js.set (SubmitRoute.normalize_key kv.1) kv.2 acc)
       acc fd)
  = match last (filter (λ kv, SubmitRoute.normalize_key kv.1 = k) fd) with
    | Some kv => Some kv.2
    | None => Js.get k acc
    end.
Proof.
  revert acc. induction fd as [|kv fd IH]; intros acc; [done|].
  cbn [foldl]. rewrite IH, get_set.
  rewrite filter_cons.
  destruct (decide (SubmitRoute.normalize_key kv.1 = k)) as [Hk|Hk].
  - rewrite bool_decide_eq_true_2 by done.
    destruct (filter _ fd) as [|x l] eqn:Hl; [done|].
    rewrite last_cons_cons.
    destruct (last (x :: l)) eqn:Hlast; [done|]. by apply last_None in Hlast.
  - by rewrite bool_decide_eq_false_2 by done.
Qed.

(** X11: the value the submit route reads under a normalized key is that of
    the last label of the submission with this normal form (of "Email" and
    "email", the one sent later), and nothing when no label has it. *)
Theorem normalize_last_label_wins (k : string) (fd : Js.object) :
  Js.get k (SubmitRoute.normalize fd)
  = snd <$> last (filter (λ kv, SubmitRoute.normalize_key kv.1 = k) fd).
Proof.
  unfold SubmitRoute.normalize, Js.object in *. rewrite normalize_get_from.
  by destruct (last _).
Qed.

(** ** The three lists of the manage-visits page *)

Section Lists.
Import ManageVisitsView.

(** X12: in every store the operations can reach, the pending list of every
    premise is empty: no operation writes the status [pending_approval]
    the list asks for, so a page that starts without pending rows never
    shows one (and with them, no Approve or Deny button). *)
Theorem pending_list_is_empty (st : Store) (env : Env) (page : Page)
  (created : Visit.t → string) (premise : string) :
  reachable st →
  pending_query created premise st = []
  ∧ (pendingVisits page = [] →
     pendingVisits (fetchUserDataAndVisits env page st).1 = []).
Proof.
  intros Hst. apply reachable_lifecycle_ok in Hst.
  assert (∀ c p, pending_query c p st = []) as Hnil.
  { intros c p. unfold pending_query. apply listing_nil.
    eapply Forall_impl; [exact Hst|]. intros v Hv [_ Hpending].
    destruct Hv as [[Hs _]|[Hs|[Hs|[Hs _]]]]; congruence. }
  split; [done|]. intros Hpage. unfold fetchUserDataAndVisits.
  destruct (OwnerRoute.sessionError (auth env)); [done|].
  destruct (OwnerRoute.session (auth env)) as [uid|]; [|done].
  destruct (Pg.call (premise_fault env) _) as [e|premiseData]; [done|].
  cbn [fst pendingVisits]. unfold Pg.call.
  destruct (pending_fault env); [done|]. apply Hnil.
Qed.

(** The example site after Jane's submission, seen by the owner. *)
Lemma pending_list_is_empty_witness :
  pending_query Visit.check_in_time "p1"
    (run [Submit (Demo.submit_env "t0" "v1") Demo.jane] Demo.site)
  = [].
Proof.
  refine (proj1 (pending_list_is_empty _
                   (mkEnv Demo.owner_auth Visit.check_in_time None None None
                      None)
                   (mkPage None None [] [] [] true None None)
                   Visit.check_in_time "p1" _)).
  apply reachable_run. apply reachable_init. reflexivity.
Defined.

(** X13: each list holds visits of the asked premise only, every listed row
    is a visit of the store, and no visit is in two of the three lists. *)
Theorem lists_are_disjoint (created : Visit.t → string) (premise : string)
  (st : Store) (r : Row) :
  (r ∈ pending_query created premise st ∨ r ∈ admitted_query premise st
   ∨ r ∈ historical_query premise st →
   visit r ∈ visits st ∧ Visit.premise_id (visit r) = Some premise)
  ∧ ¬ (r ∈ pending_query created premise st ∧ r ∈ admitted_query premise st)
  ∧ ¬ (r ∈ pending_query created premise st
       ∧ r ∈ historical_query premise st)
  ∧ ¬ (r ∈ admitted_query premise st ∧ r ∈ historical_query premise st).
Proof.
  unfold pending_query, admitted_query, historical_query.
  rewrite !elem_of_listing.
  split; [|split; [|split]].
  - intros [(v & -> & Hv & Hp & _)|[(v & -> & Hv & Hp & _)
                                   |(v & -> & Hv & Hp & _)]]; done.
  - intros [(v & -> & _ & _ & Hs) (w & [= <-] & _ & _ & Hs' & _)].
    congruence.
  - intros [(v & -> & _ & _ & Hs) (w & [= <-] & _ & _ & [Hs'|Hs'])];
      congruence.
  - intros [(v & -> & _ & _ & Hs & _) (w & [= <-] & _ & _ & [Hs'|Hs'])];
      congruence.
Qed.

End Lists.

Section ListsAfterDecisions.
Import ManageVisitsView.

(** X14: where a decided visit shows up.  After an approval that went
    through, a visit that has no check-out time is in the admitted list; a
    visit that was already checked out and is approved again is in none of
    the three lists; after a denial that went through the visit is in the
    history. *)
Theorem decided_visit_is_listed
  (d : ManageVisitsPage.Verdict) (env : ManageVisitsPage.Env)
  (created : Visit.t → string) (premise visitId : string) (st : Store)
  (v : Visit.t) :
  ManageVisitsPage.goes_through env premise →
  ManageVisitsPage.well_formed d →
  v ∈ visits st → ManageVisitsPage.targets visitId premise v →
  let st' := store (ManageVisitsPage.decide_visit d env visitId st) in
  let v' := ManageVisitsPage.written d (ManageVisitsPage.now env) v in
  v' ∈ visits st'
  ∧ (d = ManageVisitsPage.ApproveIt → Visit.check_out_time v = None →
     embed st' v' ∈ admitted_query premise st')
  ∧ (d = ManageVisitsPage.ApproveIt → is_Some (Visit.check_out_time v) →
     ∀ r, visit r = v' →
       (r ∉ pending_query created premise st')
       ∧ (r ∉ admitted_query premise st')
       ∧ (r ∉ historical_query premise st'))
  ∧ (∀ reason, d = ManageVisitsPage.DenyIt reason →
     embed st' v' ∈ historical_query premise st').
Proof.
  intros Henv Hd Hv Ht st' v'.
  destruct (decision_goes_through d env premise visitId st Henv Hd)
    as [Hst _]. fold st' in Hst.
  assert (v' ∈ visits st') as Hv'.
  { rewrite Hst. unfold set_visits. cbn [visits].
    by apply update_written_elem. }
  destruct Ht as [Hid Hp].
  split; [done|].
  unfold pending_query, admitted_query, historical_query.
  split; [|split].
  - intros -> Hout. apply elem_of_listing. exists v'. by repeat split.
  - intros -> [t Hout] r Hr. rewrite !elem_of_listing.
    repeat split; intros (w & -> & _ & _ & Hw); cbn [visit embed] in Hr;
      subst w v'; cbn in Hw.
    + done.
    + destruct Hw as [_ Hw]. congruence.
    + by destruct Hw.
  - intros reason ->. apply elem_of_listing. exists v'.
    repeat split; try done. by right.
Qed.

(** Jane's visit is approved on the example site. *)
Lemma decided_visit_is_listed_witness :
  let st := Demo.with_visit (Demo.jane_visit "checked_in" None None None "t0") in
  let st' :=
    store (ManageVisitsPage.handleApprove (Demo.owner_page "t1") "v1" st) in
  embed st' (Demo.jane_visit "approved" None None None "t1")
  ∈ admitted_query "p1" st'.
Proof.
  intros st st'.
  assert (ManageVisitsPage.goes_through (Demo.owner_page "t1") "p1") as Henv.
  { unfold ManageVisitsPage.goes_through. simpl. repeat split; eauto. }
  assert (Demo.jane_visit "checked_in" None None None "t0" ∈ visits st)
    as Hv by (apply list_elem_of_singleton; reflexivity).
  destruct (decided_visit_is_listed ManageVisitsPage.ApproveIt
              (Demo.owner_page "t1") Visit.check_in_time "p1" "v1" st _ Henv
              I Hv
              (conj eq_refl eq_refl)) as (_ & Hadm & _).
  exact (Hadm eq_refl eq_refl).
Defined.

(** X15: a checkout moves a visit from the admitted list to the history.
    After a checkout by the owner that went through, the visit is in the
    history of its premise and no row of the admitted list carries its
    id. *)
Theorem checked_out_visit_is_history
  (env : CheckoutRoute.Env) (visitId uid premise : string) (st : Store)
  (v : Visit.t) (p : Premise.t) :
  visitId ≠ "" →
  signed_in (CheckoutRoute.auth env) uid →
  CheckoutRoute.fetch_fault env = None →
  CheckoutRoute.update_fault env = None →
  visits_with_id visitId st = [v] →
  OwnerRoute.embedded_premise st v = Some p →
  Premise.owner_id p = Some uid →
  Visit.status v = Some "approved" →
  Visit.premise_id v = Some premise →
  let st' := store (CheckoutRoute.POST env visitId st) in
  let v' := Visit.with_checkout (CheckoutRoute.now env) v in
  embed st' v' ∈ historical_query premise st'
  ∧ ∀ r, r ∈ admitted_query premise st' → Visit.id (visit r) ≠ visitId.
Proof.
  intros Hid Hs Hf Hu Hv Hp Hown Hst Hprem st' v'.
  assert (st' = set_visits
                  (Pg.update (λ w, Visit.id w = visitId)
                     (Visit.with_checkout (CheckoutRoute.now env))
                     (visits st)) st) as Hst'.
  { subst st'. rewrite (checkout_authorized env visitId uid st v); try done.
    - rewrite bool_decide_eq_false_2 by (rewrite Hst; discriminate).
      rewrite bool_decide_eq_false_2 by (intros Hne; by apply Hne).
      by rewrite Hu.
    - by exists p. }
  assert (visits_with_id visitId st' = [v']) as Hv'.
  { rewrite Hst'. unfold visits_with_id, set_visits, Pg.eq_col in *.
    cbn [visits]. rewrite filter_update by done. by rewrite Hv. }
  assert (∀ w, w ∈ visits st' → Visit.id w = visitId → w = v') as Honly.
  { intros w Hw Hwid.
    assert (w ∈ visits_with_id visitId st') as Hin
      by (by apply list_elem_of_filter).
    rewrite Hv' in Hin. by apply list_elem_of_singleton in Hin. }
  unfold historical_query, admitted_query. split.
  - apply elem_of_listing. exists v'. split; [done|]. split.
    + assert (v' ∈ visits_with_id visitId st') as Hin
        by (rewrite Hv'; apply list_elem_of_here).
      by apply list_elem_of_filter in Hin as [_ ?].
    + split; [done|by left].
  - intros r (w & -> & Hw & _ & Hs' & _)%elem_of_listing Hwid.
    cbn [visit embed] in Hwid. rewrite (Honly w Hw Hwid) in Hs'. done.
Qed.

(** Jane, approved on the example site, is checked out. *)
Lemma checked_out_visit_is_history_witness :
  let st := Demo.with_visit (Demo.jane_visit "approved" None None None "t1") in
  let st' := store (CheckoutRoute.POST (Demo.owner_checkout "t2") "v1" st) in
  embed st' (Demo.jane_visit "checked_out" None (Some "t2") None "t2")
  ∈ historical_query "p1" st'.
Proof.
  intros st st'.
  assert ("v1" ≠ "") as Hid by discriminate.
  exact (proj1 (checked_out_visit_is_history (Demo.owner_checkout "t2") "v1"
                  "owner" "p1" st
                  (Demo.jane_visit "approved" None None None "t1")
                  Demo.premise Hid (conj eq_refl eq_refl) eq_refl eq_refl
                  eq_refl eq_refl eq_refl eq_refl eq_refl)).
Defined.

End ListsAfterDecisions.

Section PageAuthority.
Import ManageVisitsView.

Lemma fetched_premise (env : Env) (page : Page) (st : Store) (pid : string) :
  premiseId page = None →
  premiseId (fetchUserDataAndVisits env page st).1 = Some pid →
  ∃ uid pr, signed_in (auth env) uid ∧ pr ∈ premises st
    ∧ Premise.id pr = pid ∧ Premise.owner_id pr = Some uid.
Proof.
  intros Hnone. unfold fetchUserDataAndVisits, signed_in.
  destruct (OwnerRoute.sessionError (auth env)); [by rewrite Hnone|].
  destruct (OwnerRoute.session (auth env)) as [uid|]; [|by rewrite Hnone].
  destruct (Pg.call (premise_fault env) _) as [e|pr] eqn:Hcall;
    [by rewrite Hnone|].
  cbn [fst premiseId]. intros [= <-].
  unfold Pg.call in Hcall. destruct (premise_fault env); [done|].
  apply single_inv in Hcall.
  assert (pr ∈ filter (λ p, Premise.owner_id p = Some uid) (premises st))
    as Hin by (rewrite Hcall; apply list_elem_of_here).
  apply list_elem_of_filter in Hin as [Hown Hin].
  by exists uid, pr.
Qed.

(** X16: the page acts on the premise of the signed-in owner only.  When the
    [premiseId] the handlers use is the one [fetchUserDataAndVisits] has
    set, an approval or denial rewrites only visits that carry the asked id
    and belong to a premise whose owner is the user of the session. *)
Theorem page_acts_on_own_premise
  (env : Env) (page : Page) (st : Store) (penv : ManageVisitsPage.Env)
  (d : ManageVisitsPage.Verdict) (visitId : string) (i : nat)
  (v v' : Visit.t) :
  premiseId page = None →
  ManageVisitsPage.premiseId penv
  = premiseId (fetchUserDataAndVisits env page st).1 →
  visits st !! i = Some v →
  visits (store (ManageVisitsPage.decide_visit d penv visitId st)) !! i
  = Some v' →
  v' ≠ v →
  ∃ uid pr, signed_in (auth env) uid ∧ pr ∈ premises st
    ∧ Premise.owner_id pr = Some uid
    ∧ Visit.premise_id v = Some (Premise.id pr)
    ∧ Visit.id v = visitId.
Proof.
  intros Hnone Hpid Hv Hv' Hne.
  assert (∃ premise f,
            ManageVisitsPage.premiseId penv = Some premise
            ∧ visits (store (ManageVisitsPage.decide_visit d penv visitId st))
              = Pg.update (ManageVisitsPage.targets visitId premise) f
                  (visits st)) as (premise & f & Hprem & Hvs).
  { destruct d as [|reason]; cbn [ManageVisitsPage.decide_visit] in *.
    - unfold ManageVisitsPage.handleApprove in *.
      repeat case_match; simpl in *; try congruence; by eexists _, _.
    - unfold ManageVisitsPage.handleDeny in *.
      repeat case_match; simpl in *; try congruence; by eexists _, _. }
  rewrite Hvs, (update_lookup _ _ _ _ _ Hv) in Hv'.
  destruct (decide (ManageVisitsPage.targets visitId premise v))
    as [[Hid Hp]|Hno]; [|congruence].
  rewrite Hprem in Hpid. symmetry in Hpid.
  destruct (fetched_premise env page st premise Hnone Hpid)
    as (uid & pr & Hs & Hin & Hprid & Hown).
  exists uid, pr. destruct Hs as [Herr Hsess].
  repeat split; try done. by rewrite Hp, Hprid.
Qed.

(** The owner of the example site loads the page and approves Jane. *)
Lemma page_acts_on_own_premise_witness :
  ∃ uid pr, signed_in Demo.owner_auth uid
    ∧ pr ∈ [Demo.premise] ∧ Premise.owner_id pr = Some uid
    ∧ Some "p1" = Some (Premise.id pr) ∧ "v1" = "v1".
Proof.
  apply (page_acts_on_own_premise
           (mkEnv Demo.owner_auth Visit.check_in_time None None None None)
           (mkPage None None [] [] [] true None None)
           (Demo.with_visit (Demo.jane_visit "checked_in" None None None "t0"))
           (Demo.owner_page "t1") ManageVisitsPage.ApproveIt "v1" 0
           (Demo.jane_visit "checked_in" None None None "t0")
           (Demo.jane_visit "approved" None None None "t1"));
    try reflexivity.
  discriminate.
Defined.

End PageAuthority.

(** ** The page's checkout button and its table cells *)

Section Relay.
Import ManageVisitsView.

Lemma first_truthy_nonempty (candidates : list (option string))
  (fallback : string) :
  fallback ≠ "" → first_truthy candidates fallback ≠ "".
Proof.
  intros Hf. unfold first_truthy.
  destruct (foldl Js.or None candidates) as [s|] eqn:Hc; simpl; [|done].
  case_bool_decide; simpl; done.
Qed.

Lemma first_truthy_single (s fallback : string) :
  s ≠ "" → first_truthy [Some s] fallback = s.
Proof.
  intros Hs. unfold first_truthy. simpl. unfold Js.or. simpl.
  by rewrite bool_decide_eq_false_2.
Qed.

(** The answers of the checkout route: 200 with the checked-out visit, or
    an error status with a text. *)
Lemma checkout_answer_shape (env : CheckoutRoute.Env) (visitId : string)
  (st : Store) :
  let r := CheckoutRoute.POST env visitId st in
  (∃ v, answer r
        = Response.mk 200
            (Response.Visit "Visitor checked out successfully" v))
  ∨ (∃ e, Response.json (answer r) = Response.Error e ∧ e ≠ ""
       ∧ ok (answer r) = false ∧ store r = st).
Proof.
  unfold CheckoutRoute.POST.
  repeat case_match; simpl;
    try (right; eexists; split; [reflexivity|]; split; [discriminate|];
         split; reflexivity).
  left. by eexists.
Qed.

(** X17: the checkout button relays the route.  Whenever [handleCheckout]
    ends with an error, the error text is not empty, and the store is as it
    was unless the answer of the route was lost on its way, in which case
    the store is the one the route left.  When the answer arrives and the
    route refuses, the text shown is the route's own error text, and the
    page ends with a message only when the route answered 200, the message
    being the route's and the store the one the route left.  When the
    answer is lost the page shows an error whatever the route did: also
    after a checkout that went through. *)
Theorem handleCheckout_relays_route (env : CheckoutEnv) (visitId : string)
  (st : Store) :
  let r := handleCheckout env visitId st in
  let route := CheckoutRoute.POST (route_env env) visitId st in
  (∀ e, answer r = ManageVisitsPage.SetError e →
     e ≠ ""
     ∧ ((∀ msg, delivery env ≠ ResponseLost msg) → store r = st)
     ∧ (store r = st ∨ store r = store route))
  ∧ (∀ e, is_Some (page_session env) →
       Js.truthy (page_premiseId env) = true → delivery env = Delivered →
       Response.json (answer route) = Response.Error e →
       answer r = ManageVisitsPage.SetError e)
  ∧ (∀ m, answer r = ManageVisitsPage.SetMessage m →
       m = "Visitor checked out successfully"
       ∧ delivery env = Delivered
       ∧ Response.status (answer route) = 200
       ∧ store r = store route)
  ∧ (∀ msg, is_Some (page_session env) →
       Js.truthy (page_premiseId env) = true →
       delivery env = ResponseLost msg →
       (∃ e, answer r = ManageVisitsPage.SetError e)
       ∧ store r = store route).
Proof.
  intros r route. subst r route. unfold handleCheckout, caught.
  destruct (checkout_answer_shape (route_env env) visitId st)
    as [(v & Hok)|(e0 & Hjson & He0 & Hnok & Hsame)].
  - split; [|split; [|split]].
    + intros e. destruct (page_session env); [|by intros [= <-]; auto].
      destruct (negb (Js.truthy (page_premiseId env)));
        [by intros [= <-]; auto|].
      destruct (delivery env) as [|msg|msg]; cbn [answer store].
      * by rewrite Hok.
      * intros [= <-]. split; [by apply first_truthy_nonempty|auto].
      * intros [= <-]. split; [by apply first_truthy_nonempty|].
        split; [|by right]. intros Hno. by destruct (Hno msg).
    + intros e _ _ _. by rewrite Hok.
    + intros m. destruct (page_session env); [|done].
      destruct (negb (Js.truthy (page_premiseId env))); [done|].
      destruct (delivery env) as [|msg|msg]; [|done..].
      rewrite Hok. cbn. by intros [= <-].
    + intros msg [u ->] -> ->. cbn [negb answer store]. split; [|done].
      by eexists.
  - split; [|split; [|split]].
    + intros e. destruct (page_session env); [|by intros [= <-]; auto].
      destruct (negb (Js.truthy (page_premiseId env)));
        [by intros [= <-]; auto|].
      destruct (delivery env) as [|msg|msg]; cbn [answer store].
      * rewrite Hnok. cbn [negb answer store]. intros [= <-].
        split; [by apply first_truthy_nonempty|]. rewrite Hsame. auto.
      * intros [= <-]. split; [by apply first_truthy_nonempty|auto].
      * intros [= <-]. split; [by apply first_truthy_nonempty|].
        rewrite Hsame. auto.
    + intros e [u ->] -> -> He. cbn [negb]. rewrite Hnok. cbn [negb answer].
      rewrite Hjson in He. injection He as <-. rewrite Hjson.
      cbn [json_error]. by rewrite !(first_truthy_single e0) by done.
    + intros m. destruct (page_session env); [|done].
      destruct (negb (Js.truthy (page_premiseId env))); [done|].
      destruct (delivery env) as [|msg|msg]; [|done..].
      by rewrite Hnok.
    + intros msg [u ->] -> ->. cbn [negb answer store]. split; [|done].
      by eexists.
Qed.

(** Jane, approved, is checked out by the owner's page while the answer of
    the route is lost: the page shows an error and the visit is checked
    out. *)
Lemma handleCheckout_relays_route_witness :
  let st := Demo.with_visit (Demo.jane_visit "approved" None None None "t1") in
  let r :=
    handleCheckout
      (mkCheckoutEnv (Some "owner") (Some "p1") (ResponseLost "Failed to fetch")
         (Demo.owner_checkout "t2")) "v1" st in
  (∃ e, answer r = ManageVisitsPage.SetError e)
  ∧ store r
    = Demo.with_visit
        (Demo.jane_visit "checked_out" None (Some "t2") None "t2").
Proof.
  intros st r.
  destruct (handleCheckout_relays_route
              (mkCheckoutEnv (Some "owner") (Some "p1")
                 (ResponseLost "Failed to fetch") (Demo.owner_checkout "t2"))
              "v1" st) as (_ & _ & _ & Hlost).
  apply (Hlost "Failed to fetch"); [by eexists|reflexivity|reflexivity].
Defined.

End Relay.

(** ** Where a signed-in user is sent *)

Section RoutingFacts.
Import Routing.

(** X19: the dashboard page sends a signed-in user to the premise page
    exactly when one profile carries the user's id and exactly one premise
    has the user as owner; a user without profile, without premise, or with
    two premises is sent to the profile completion page.  (No store error
    is assumed.) *)
Theorem dashboard_routing (env : Env) (uid : string) (st : Store) :
  signed_in (auth env) uid →
  profile_fault env = None → premise_fault env = None →
  let profiles_of := Pg.eq_col Profile.id uid (profiles st) in
  let premises_of :=
    filter (λ p, Premise.owner_id p = Some uid) (premises st) in
  (pushed (checkUserAndProfile env st) = Some "/dashboard/premise"
   ↔ (∃ p, profiles_of = [p]) ∧ (∃ pr, premises_of = [pr]))
  ∧ (pushed (checkUserAndProfile env st) = Some "/auth/complete-profile"
     ↔ (∀ p, profiles_of ≠ [p]) ∨ (∀ pr, premises_of ≠ [pr])).
Proof.
  intros [Herr Hsess] Hpf Hprf profiles_of premises_of.
  unfold checkUserAndProfile, profile_maybe, premise_maybe.
  rewrite Herr, Hsess, Hpf, Hprf. cbn [Pg.call].
  fold profiles_of premises_of.
  destruct profiles_of as [|p [|p' ps]], premises_of as [|pr [|pr' prs]];
    cbn; (split; split; intros H); try done;
    try (match type of H with _ ∧ _ => by destruct H as [[? ?] [? ?]] end);
    try (by left; intros ? [=]); try (by right; intros ? [=]);
    try (by split; eexists).
  destruct H as [H|H]; [by destruct (H p)|by destruct (H pr)].
Qed.

(** The owner of the example site has a premise but no profile yet. *)
Lemma dashboard_routing_witness :
  pushed (checkUserAndProfile (mkEnv Demo.owner_auth None None) Demo.site)
  = Some "/auth/complete-profile".
Proof.
  apply (proj2 (dashboard_routing (mkEnv Demo.owner_auth None None) "owner"
                  Demo.site (conj eq_refl eq_refl) eq_refl eq_refl)).
  left. intros p. discriminate.
Defined.

Lemma profile_answers_agree (env : Env) (uid : string) (st : Store) :
  fatal (profile_single env uid st) = fatal (profile_maybe env uid st)
  ∧ (is_Some (data (profile_single env uid st))
     ↔ is_Some (data (profile_maybe env uid st))).
Proof.
  unfold profile_single, profile_maybe, Pg.call.
  destruct (profile_fault env) as [e|]; [done|].
  by destruct (Pg.eq_col Profile.id uid (profiles st)) as [|p [|p' ps]].
Qed.

(** X20: the provider and the dashboard page agree.  For the same store and
    the same answers of the store, the [SIGNED_IN] callback of the provider
    pushes "/dashboard" exactly when the dashboard page then pushes
    "/dashboard/premise", pushes the profile completion page exactly when
    the dashboard page does, and stays where it is exactly when the
    dashboard page does. *)
Theorem provider_and_dashboard_agree (env : Env) (uid : string) (st : Store) :
  signed_in (auth env) uid →
  let provider := pushed (onAuthStateChange env SIGNED_IN (Some uid) st) in
  let dashboard := pushed (checkUserAndProfile env st) in
  (provider = Some "/dashboard" ↔ dashboard = Some "/dashboard/premise")
  ∧ (provider = Some "/auth/complete-profile"
     ↔ dashboard = Some "/auth/complete-profile")
  ∧ (provider = None ↔ dashboard = None).
Proof.
  intros [Herr Hsess] provider dashboard. subst provider dashboard.
  unfold onAuthStateChange, checkUserAndProfile. rewrite Herr, Hsess.
  destruct (profile_answers_agree env uid st) as [-> Hdata].
  destruct (fatal (profile_maybe env uid st)); [done|].
  destruct (data (profile_single env uid st)) as [p|],
    (data (profile_maybe env uid st)) as [q|];
    try (by destruct Hdata as [H1 H2];
         first [destruct H1 as [? [=]]; by eexists
               |destruct H2 as [? [=]]; by eexists]).
  - destruct (fatal (premise_maybe env uid st)); [done|].
    by destruct (data (premise_maybe env uid st)).
  - done.
Qed.

(** The owner of the example site signs in. *)
Lemma provider_and_dashboard_agree_witness :
  pushed (onAuthStateChange (mkEnv Demo.owner_auth None None) SIGNED_IN
            (Some "owner") Demo.site)
  = Some "/auth/complete-profile".
Proof.
  apply (proj1 (proj2 (provider_and_dashboard_agree
                         (mkEnv Demo.owner_auth None None) "owner" Demo.site
                         (conj eq_refl eq_refl)))).
  reflexivity.
Defined.

End RoutingFacts.

(** ** Field names of the visitor form page *)

Section FieldNames.
Import VisitorFormPage.

Lemma all_app (p : ascii → bool) (s t : string) :
  Js.all p (s +:+ t) = Js.all p s && Js.all p t.
Proof.
  induction s as [|c s IH]; simpl; [done|].
  rewrite <- andb_assoc. by f_equal.
Qed.

Lemma lower_word_char (c : ascii) :
  word_char (Js.lower_char c) = true → name_char (Js.lower_char c) = true.
Proof. by destruct c as [[] [] [] [] [] [] [] []]. Qed.

Lemma lower_char_word (c : ascii) :
  word_char c = true → word_char (Js.lower_char c) = true.
Proof. by destruct c as [[] [] [] [] [] [] [] []]. Qed.

Lemma word_not_space (c : ascii) :
  word_char c = true → Ascii.is_space c = false.
Proof. by destruct c as [[] [] [] [] [] [] [] []]. Qed.

(** Stripping what is left of a lower-cased label gives name characters. *)
Lemma strip_lowered (in_run : bool) (s : string) :
  Js.all name_char
    (strip_non_word (Js.replace_spaces in_run (Js.toLowerCase s))) = true.
Proof.
  revert in_run. induction s as [|c s IH]; intros in_run; simpl; [done|].
  destruct (Ascii.is_space (Js.lower_char c)) eqn:Hc.
  - destruct in_run; simpl; by rewrite ?IH.
  - simpl. destruct (word_char (Js.lower_char c)) eqn:Hw; [|apply IH].
    simpl. by rewrite (lower_word_char _ Hw), IH.
Qed.

Lemma digits_are_name_chars (d : Decimal.uint) :
  Js.all name_char (DecimalString.NilEmpty.string_of_uint d) = true.
Proof. induction d; simpl; by rewrite ?IHd. Qed.

Lemma fallback_name_chars (index : nat) :
  Js.all name_char (fallback_name index) = true ∧ fallback_name index ≠ "".
Proof.
  unfold fallback_name. split; [|done].
  rewrite all_app. simpl. unfold DecimalString.NilZero.string_of_uint.
  destruct (Nat.to_uint index); try done; simpl;
    by rewrite ?digits_are_name_chars.
Qed.

(** X21: the name the page gives a field is never empty and is made of
    lower-case letters, digits and underscores only, whatever the label
    (an empty label, or one of punctuation only, gets "field_" followed by
    its index). *)
Theorem field_name_is_an_identifier (label : string) (index : nat) :
  field_name label index ≠ ""
  ∧ Js.all name_char (field_name label index) = true.
Proof.
  unfold field_name. simpl.
  case_bool_decide as Hempty; simpl.
  - apply and_comm, fallback_name_chars.
  - split; [done|]. apply strip_lowered.
Qed.

Lemma strip_word_fixed (s : string) :
  Js.all word_char s = true → strip_non_word s = s.
Proof.
  induction s as [|c s IH]; simpl; [done|].
  intros [Hc Hs]%andb_true_iff. by rewrite Hc, IH.
Qed.

Lemma normalized_word_chars (in_run : bool) (s : string) :
  Js.all (λ c, word_char c || Ascii.is_space c) s = true →
  Js.all word_char (Js.replace_spaces in_run (Js.toLowerCase s)) = true.
Proof.
  revert in_run. induction s as [|c s IH]; intros in_run; simpl; [done|].
  intros [Hc Hs]%andb_true_iff. rewrite lower_char_space.
  destruct (Ascii.is_space c) eqn:Hsp.
  - destruct in_run; simpl; by rewrite ?IH.
  - rewrite orb_false_r in Hc. simpl. by rewrite lower_char_word, IH.
Qed.

(** X22: for a label of letters, digits, underscores and white space that
    has at least one of the first three, the field name of the page is the
    key the submit route derives from the same label. *)
Theorem field_name_is_route_key (label : string) (index : nat) :
  Js.all (λ c, word_char c || Ascii.is_space c) label = true →
  SubmitRoute.normalize_key label ≠ "" →
  field_name label index = SubmitRoute.normalize_key label.
Proof.
  intros Hchars Hne.
  assert (derived_name label = SubmitRoute.normalize_key label) as Hd.
  { unfold derived_name, SubmitRoute.normalize_key.
    by apply strip_word_fixed, normalized_word_chars. }
  unfold field_name. rewrite Hd. by rewrite (truthy_nonempty _ Hne).
Qed.

(** The label "Full Name" of the example form. *)
Lemma field_name_is_route_key_witness :
  field_name "Full Name" 0 = "full_name".
Proof.
  apply (field_name_is_route_key "Full Name" 0); [reflexivity|discriminate].
Defined.

End FieldNames.

(** ** The list of fields of the form editor *)

Section Editor.
Import FormEditor.

(** X23: removing the field that was just added gives back the list of
    fields, provided the new id is not the id of a field already there; if
    it is, the fields that share the id are removed with it. *)
Theorem remove_added_field (new_id : string) (fields : list FormField) :
  (new_id ∉ id <$> fields → removeField new_id (addField new_id fields) = fields)
  ∧ removeField new_id (addField new_id fields) = removeField new_id fields.
Proof.
  unfold removeField, addField.
  assert (filter (λ field, id field ≠ new_id)
            (fields ++ [mkField new_id "" VisitorFormPage.text false])
          = filter (λ field, id field ≠ new_id) fields) as Heq.
  { rewrite filter_app, filter_cons_False, filter_nil by (by intros Hne).
    apply app_nil_r. }
  split; [|exact Heq]. intros Hfresh. rewrite Heq. clear Heq.
  induction fields as [|f fields IH]; [done|].
  rewrite filter_cons. rewrite fmap_cons, not_elem_of_cons in Hfresh.
  destruct Hfresh as [Hf Hrest]. rewrite decide_True by done.
  by rewrite IH.
Qed.

(** A fresh field on a list of one. *)
Lemma remove_added_field_witness :
  removeField "b"
    (addField "b" [mkField "a" "Full Name" VisitorFormPage.text true])
  = [mkField "a" "Full Name" VisitorFormPage.text true].
Proof.
  apply (proj1 (remove_added_field "b"
                  [mkField "a" "Full Name" VisitorFormPage.text true])).
  intros Hin%list_elem_of_singleton. discriminate Hin.
Defined.

(** X24: editing the label, type or required flag of a field keeps the ids
    and the number of the fields, and it does not matter whether another
    field is removed before or after the edit. *)
Theorem edit_keeps_ids (field_id other : string) (c : Change)
  (fields : list FormField) :
  (∀ v, c ≠ SetId v) →
  id <$> handleFieldChange field_id c fields = id <$> fields
  ∧ length (formDefinitionForDb (handleFieldChange field_id c fields))
    = length fields
  ∧ removeField other (handleFieldChange field_id c fields)
    = handleFieldChange field_id c (removeField other fields).
Proof.
  intros Hc.
  assert (∀ f, id (change c f) = id f) as Hid.
  { intros f. destruct c; try done. by destruct (Hc value). }
  unfold handleFieldChange, formDefinitionForDb, removeField.
  split; [|split].
  - rewrite <- list_fmap_compose. apply list_fmap_ext. intros _ f _. simpl.
    by destruct (decide (id f = field_id)).
  - by rewrite !length_fmap.
  - induction fields as [|f fields IH]; [done|].
    rewrite fmap_cons, !filter_cons, IH.
    destruct (decide (id f = field_id)) as [Hf|Hf].
    + rewrite Hid. destruct (decide (id f ≠ other)); [|done].
      by rewrite fmap_cons, decide_True.
    + destruct (decide (id f ≠ other)); [|done].
      by rewrite fmap_cons, decide_False.
Qed.

(** The label of a field is typed in. *)
Lemma edit_keeps_ids_witness :
  id <$> handleFieldChange "a" (SetLabel "Email")
           [mkField "a" "" VisitorFormPage.text false]
  = ["a"].
Proof.
  apply (proj1 (edit_keeps_ids "a" "b" (SetLabel "Email")
                  [mkField "a" "" VisitorFormPage.text false]
                  ltac:(discriminate))).
Defined.

End Editor.

(** ** What the visitor form page sends *)

Section Submission.
Import VisitorFormPage.

Lemma to_json_get_absent (k : string) (o : list (string * option string)) :
  k ∉ o.*1 → Js.get k (to_json o) = None.
Proof.
  induction o as [|[k0 v0] o IH]; [done|].
  rewrite fmap_cons, not_elem_of_cons. intros [Hk Ho].
  unfold to_json in *. cbn.
  destruct v0 as [v0|]; cbn; [|by apply IH].
  rewrite bool_decide_eq_false_2 by done. by apply IH.
Qed.

Lemma assign_keys (k : string) (v : option string)
  (o : list (string * option string)) :
  NoDup o.*1 →
  NoDup (assign k v o).*1 ∧ ∀ k', k' ∈ (assign k v o).*1 ↔ k' = k ∨ k' ∈ o.*1.
Proof.
  induction o as [|[k0 v0] o IH]; simpl.
  - intros _. split; [apply NoDup_singleton|].
    intros k'. rewrite list_elem_of_singleton, elem_of_nil. tauto.
  - rewrite NoDup_cons. intros [Hk0 Ho].
    case_bool_decide as Hk; simpl.
    + subst k0. split; [by apply NoDup_cons|].
      intros k'. rewrite elem_of_cons. tauto.
    + destruct (IH Ho) as [Hnd Hin]. split.
      * apply NoDup_cons. split; [|done]. rewrite Hin. intros [?|?]; done.
      * intros k'. rewrite !elem_of_cons, Hin. tauto.
Qed.

Lemma to_json_assign (k k' : string) (v : option string)
  (o : list (string * option string)) :
  NoDup o.*1 →
  Js.get k (to_json (assign k' v o))
  = if bool_decide (k' = k) then v else Js.get k (to_json o).
Proof.
  induction o as [|[k0 v0] o IH].
  - intros _. unfold to_json. destruct v as [v|]; cbn; by case_bool_decide.
  - rewrite fmap_cons, NoDup_cons. intros [Hk0 Ho]. specialize (IH Ho).
    pose proof (to_json_get_absent _ _ Hk0) as Habs.
    unfold to_json in *. cbn [assign].
    destruct (decide (k0 = k')) as [->|Hne].
    + rewrite (bool_decide_eq_true_2 (k' = k')) by done.
      destruct (decide (k' = k)) as [->|Hk].
      * rewrite bool_decide_eq_true_2 by done.
        destruct v as [v|]; cbn; [by rewrite bool_decide_eq_true_2|done].
      * rewrite (bool_decide_eq_false_2 (k' = k)) by done.
        destruct v as [v|], v0 as [v0|]; cbn;
          by rewrite ?bool_decide_eq_false_2 by done.
    + rewrite (bool_decide_eq_false_2 (k0 = k')) by done.
      destruct v0 as [v0|]; cbn; [|exact IH].
      destruct (decide (k0 = k)) as [->|Hk0k].
      * rewrite (bool_decide_eq_true_2 (k = k)) by done.
        by rewrite (bool_decide_eq_false_2 (k' = k)) by done.
      * rewrite (bool_decide_eq_false_2 (k0 = k)) by done. exact IH.
Qed.

Lemma submission_get_from (l : string) (definition : list FormField)
  (values : Js.object) (acc : list (string * option string)) :
  NoDup acc.*1 →
  Js.get l
    (to_json
       (foldl (λ acc field,
                 assign (label field) (Js.get (value_key field) values) acc)
          acc definition))
  = match last (filter (λ field, label field = l) definition) with
    | Some field => Js.get (value_key field) values
    | None => Js.get l (to_json acc)
    end.
Proof.
  revert acc. induction definition as [|f definition IH]; intros acc Hacc;
    [done|].
  cbn [foldl]. rewrite IH by (by apply assign_keys).
  rewrite to_json_assign by done. rewrite filter_cons.
  destruct (decide (label f = l)) as [Hl|Hl].
  - rewrite bool_decide_eq_true_2 by done.
    destruct (filter _ definition) as [|x xs] eqn:Hx; [done|].
    rewrite last_cons_cons.
    destruct (last (x :: xs)) eqn:Hlast; [done|]. by apply last_None in Hlast.
  - by rewrite bool_decide_eq_false_2 by done.
Qed.

Lemma last_filter_unique (l : string) (definition : list FormField)
  (f : FormField) :
  NoDup (label <$> definition) → f ∈ definition → label f = l →
  last (filter (λ field, label field = l) definition) = Some f.
Proof.
  intros Hnd Hf Hl.
  induction definition as [|g definition IH]; [by apply elem_of_nil in Hf|].
  rewrite fmap_cons, NoDup_cons in Hnd. destruct Hnd as [Hg Hnd].
  rewrite filter_cons. apply elem_of_cons in Hf as [->|Hf].
  - rewrite decide_True by done.
    rewrite filter_none; [done|]. apply Forall_forall. intros h Hh Hhl.
    apply Hg. apply list_elem_of_fmap. exists h. split; [congruence|done].
  - rewrite decide_False; [by apply IH|].
    intros Hgl. apply Hg. apply list_elem_of_fmap. exists f.
    split; [congruence|done].
Qed.

Lemma field_name_nonempty (l : string) (index : nat) :
  field_name l index ≠ "".
Proof.
  unfold field_name. simpl. case_bool_decide as Hempty; simpl; [|done].
  apply fallback_name_chars.
Qed.

(** A field of the page state: its label is the one of the definition and
    its name is set and not empty. *)
Lemma with_names_lookup (raw : list FormField) (i : nat) (f : FormField) :
  with_names raw !! i = Some f →
  ∃ n, name f = Some n ∧ n ≠ "" ∧ value_key f = n ∧ input_name f i = n.
Proof.
  unfold with_names. rewrite list_lookup_imap.
  destruct (raw !! i) as [r|]; [|done]. intros [= <-].
  exists (field_name (label r) i).
  pose proof (field_name_nonempty (label r) i) as Hne.
  unfold value_key, input_name. cbn [name].
  by rewrite (truthy_nonempty _ Hne).
Qed.

Lemma with_names_labels (raw : list FormField) :
  label <$> with_names raw = label <$> raw.
Proof.
  unfold with_names. rewrite fmap_imap.
  change (imap (λ _, label) raw = label <$> raw). apply imap_const.
Qed.

(** Under the label of a field goes what the state holds under its name. *)
Lemma sent_under_label (definition : list FormField) (values : Js.object)
  (g : FormField) :
  NoDup (label <$> definition) → g ∈ definition →
  Js.get (label g) (to_json (submissionData definition values))
  = Js.get (value_key g) values.
Proof.
  intros Hnd Hg. unfold submissionData.
  rewrite submission_get_from by apply NoDup_nil_2.
  by rewrite (last_filter_unique (label g) definition g).
Qed.

(** X25: what a visitor types is what is sent.  When the labels of the form
    are pairwise different, the value typed into the input of a field is
    sent under the label of that field, and under the label of every field
    the page gave the same name (as "Email" and "E-mail"); what is sent
    under the labels of the other fields is not changed; and a field
    nothing was typed for is left out of the submission. *)
Theorem typed_value_is_sent (raw : list FormField) (formValues : Js.object)
  (i : nat) (f : FormField) (value : string) :
  NoDup (label <$> raw) → with_names raw !! i = Some f →
  let sent values := to_json (submissionData (with_names raw) values) in
  let typed := handleInputChange (input_name f i) value formValues in
  Js.get (label f) (sent typed) = Some value
  ∧ (∀ g, g ∈ with_names raw → name g = name f →
       Js.get (label g) (sent typed) = Some value)
  ∧ (∀ g, g ∈ with_names raw → name g ≠ name f →
       Js.get (label g) (sent typed) = Js.get (label g) (sent formValues))
  ∧ (∀ g, g ∈ with_names raw → Js.get (value_key g) formValues = None →
       Js.get (label g) (sent formValues) = None).
Proof.
  intros Hnd Hf sent typed. subst sent typed. cbn beta.
  rewrite <- with_names_labels in Hnd.
  destruct (with_names_lookup raw i f Hf) as (n & Hname & Hn & Hkey & Hin).
  assert (f ∈ with_names raw) as Hmem by (by eapply list_elem_of_lookup_2).
  unfold handleInputChange. rewrite Hin.
  split; [|split; [|split]].
  - rewrite sent_under_label, get_set by done.
    by rewrite bool_decide_eq_true_2.
  - intros g Hg Hsame. rewrite sent_under_label, get_set by done.
    rewrite bool_decide_eq_true_2; [done|].
    unfold value_key. rewrite Hsame, Hname. by rewrite (truthy_nonempty _ Hn).
  - intros g Hg Hother. rewrite !sent_under_label, get_set by done.
    rewrite bool_decide_eq_false_2; [done|].
    apply list_elem_of_lookup_1 in Hg as [j Hj].
    destruct (with_names_lookup raw j g Hj) as (m & Hm & _ & Hkm & _).
    rewrite Hkm. intros ->. apply Hother. by rewrite Hm, Hname.
  - intros g Hg Hnone. by rewrite sent_under_label.
Qed.

(** A form with a name and an email field; the visitor types her name. *)
Lemma typed_value_is_sent_witness :
  let definition :=
    with_names [mkField "Full Name" text true None;
                mkField "Email" email true None] in
  Js.get "Full Name"
    (to_json
       (submissionData definition (handleInputChange "full_name" "Jane" [])))
  = Some "Jane".
Proof.
  intros definition.
  refine (proj1 (typed_value_is_sent
                   [mkField "Full Name" text true None;
                    mkField "Email" email true None] [] 0
                   (mkField "Full Name" text true (Some "full_name")) "Jane"
                   _ eq_refl)).
  repeat (apply NoDup_cons; split;
          [rewrite ?elem_of_cons, ?elem_of_nil; intros H;
           repeat destruct H as [H|H]; discriminate || done|]).
  apply NoDup_nil_2.
Defined.

End Submission.

(** ** Edge cases of the submit route *)

(** X26: a submission without QR identifier, with an empty one, or without
    form data is answered 400 "Missing qrIdentifier or formData" before
    anything is read from the store; nothing is stored or logged. *)
Theorem submit_missing_input (env : SubmitRoute.Env)
  (req : SubmitRoute.Request) (st : Store) :
  Js.truthy (SubmitRoute.qrIdentifier req) = false
  ∨ SubmitRoute.formData req = None →
  SubmitRoute.POST env req st
  = mkRun st []
      (Response.mk 400 (Response.Error "Missing qrIdentifier or formData")).
Proof.
  unfold SubmitRoute.POST.
  destruct (SubmitRoute.qrIdentifier req) as [qr_id|],
    (SubmitRoute.formData req) as [fd|]; try done.
  intros [Hq|[=]]. by rewrite Hq.
Qed.

(** An empty identifier with an empty form. *)
Lemma submit_missing_input_witness :
  store (SubmitRoute.POST (Demo.submit_env "t0" "v1")
           (SubmitRoute.mkRequest (Some "") (Some [])) Demo.site)
  = Demo.site.
Proof.
  rewrite (submit_missing_input (Demo.submit_env "t0" "v1")
             (SubmitRoute.mkRequest (Some "") (Some [])) Demo.site);
    [reflexivity|].
  left. reflexivity.
Defined.

(** X27: a submission that gives no email, no name and no id number never
    reaches the provisioning step, so that no profile is created for it and
    it is not stopped by the exception of that step.  The visit is linked
    only when its phone number is that of a profile on record; without a
    phone number nothing is looked up, nothing is logged and the visit stays
    without visitor. *)
Theorem no_contact_no_profile (env : SubmitRoute.Env) (nfd : Js.object)
  (ps : list Profile.t) :
  Js.truthy (Js.get "email" nfd) = false →
  Js.truthy (Js.or (Js.get "full_name" nfd) (Js.get "name" nfd)) = false →
  Js.truthy (Js.get "id_number" nfd) = false →
  let res := SubmitRoute.resolve_visitor env nfd ps in
  let phone := Js.or (Js.get "phone_number" nfd) (Js.get "phone" nfd) in
  (∃ linked, res.2 = inr linked)
  ∧ (∀ id, res.2 = inr (Some id) →
       ∃ p ph, p ∈ ps ∧ Profile.id p = id ∧ phone = Some ph
         ∧ Profile.phone_number p = Some ph)
  ∧ (Js.truthy phone = false → res = ([], inr None)).
Proof.
  intros Hemail Hname Hidn res phone. subst res.
  unfold SubmitRoute.resolve_visitor. fold phone.
  assert (SubmitRoute.find_by_email env (Js.get "email" nfd) ps = ([], None))
    as ->.
  { unfold SubmitRoute.find_by_email.
    destruct (Js.get "email" nfd); [|done]. by rewrite Hemail. }
  cbn [fst snd].
  assert (∀ linked,
            SubmitRoute.create_visitor linked
              (Js.or (Js.get "full_name" nfd) (Js.get "name" nfd))
              (Js.get "email" nfd) (Js.get "id_number" nfd)
            = inr linked) as Hcreate.
  { intros linked. unfold SubmitRoute.create_visitor.
    rewrite Hemail, Hname, Hidn. by rewrite andb_false_r. }
  rewrite Hcreate. split; [by eexists|]. split.
  - unfold SubmitRoute.find_by_phone. cbn [negb Js.truthy].
    destruct phone as [ph|] eqn:Hphone; [|done].
    destruct (Js.truthy (Some ph)); cbn [andb]; [|done].
    unfold Pg.call. destruct (SubmitRoute.phone_fault env); [done|].
    destruct (Pg.maybeSingle _) as [e|[p|]] eqn:Hrows; try done.
    cbn [snd]. intros id [= <-]. exists p, ph.
    assert (Pg.eq_ncol Profile.phone_number ph ps = [p]) as Hone.
    { destruct (Pg.eq_ncol Profile.phone_number ph ps) as [|q [|q' l]];
        simpl in Hrows; congruence. }
    assert (p ∈ Pg.eq_ncol Profile.phone_number ph ps) as Hin
      by (rewrite Hone; apply list_elem_of_here).
    apply list_elem_of_filter in Hin as [Hph Hin]. done.
  - intros Hphone. unfold SubmitRoute.find_by_phone.
    destruct phone as [ph|]; [|done].
    rewrite Hphone. by rewrite andb_false_r.
Qed.

(** A submission that only states the purpose of the visit. *)
Lemma no_contact_no_profile_witness :
  SubmitRoute.resolve_visitor (Demo.submit_env "t0" "v1")
    (SubmitRoute.normalize [("Purpose", "Delivery")]) [Demo.ann; Demo.bob]
  = ([], inr None).
Proof.
  apply (no_contact_no_profile (Demo.submit_env "t0" "v1")
           (SubmitRoute.normalize [("Purpose", "Delivery")])
           [Demo.ann; Demo.bob] eq_refl eq_refl eq_refl).
  reflexivity.
Defined.
